(** * threat_graph: the time-partitioned event store of [app/models/wazuh_db.py]

    A shallow embedding of the document normalizers, the query builders and
    the store-facing operations of [app/models/wazuh_db.py], together with
    the request schema of [app/schemas/wazuh.py] they depend on.

    Conventions of the embedding:
    - a Python [str] is a Rocq [string] read as a sequence of code points
      below 256;
    - a [datetime] is a record of its calendar fields; the text produced by
      [isoformat()] is kept as the JSON value [JDate], which the store
      compares by instant;
    - a Python [dict] sent to or read from the store is a [gmap string JValue];
    - the module-level client [es] is an explicit [World] threaded through
      every operation, and a Python exception is the [Raise] outcome;
    - calls to [logging] write to a log file only and are left out. *)

From Stdlib Require Import ZArith List String Ascii Bool Lia.
From stdpp Require Import base option gmap strings list sorting.
Import ListNotations.

Local Open Scope string_scope.
Local Open Scope list_scope.
Local Open Scope Z_scope.

(** ** Values and documents *)

Record datetime := mk_datetime {
  year : Z; month : Z; day : Z;
  hour : Z; minute : Z; second : Z; microsecond : Z
}.

#[global] Instance datetime_eq_dec : EqDecision datetime.
Proof. solve_decision. Defined.

(** Chronological rank of a datetime: for calendar-valid fields the order of
    the ranks is the order of the instants (and of the [isoformat] texts). *)
Definition instant (d : datetime) : Z :=
  (((((year d * 13 + month d) * 32 + day d) * 24 + hour d) * 60
     + minute d) * 60 + second d) * 1000000 + microsecond d.

Inductive JValue :=
  | JNull
  | JStr (s : string)
  | JInt (n : Z)
  | JDate (d : datetime).

#[global] Instance JValue_eq_dec : EqDecision JValue.
Proof. solve_decision. Defined.

Abbreviation Document := (gmap string JValue).

(** ** Python string helpers *)

(** [str.lower()] on code points below 256: A-Z and the Latin-1 capitals
    (U+00C0..U+00DE without the multiplication sign U+00D7) move up by 32. *)
Definition lower_code (n : N) : N :=
  if ((65 <=? n) && (n <=? 90))%N then (n + 32)%N
  else if ((192 <=? n) && (n <=? 222) && negb (n =? 215))%N then (n + 32)%N
  else n.

Definition lower_char (c : ascii) : ascii := ascii_of_N (lower_code (N_of_ascii c)).

Fixpoint lower (s : string) : string :=
  match s with
  | EmptyString => EmptyString
  | String c rest => String (lower_char c) (lower rest)
  end.

(** Decimal digits, for [strftime]. *)
Definition digit (n : Z) : string :=
  String (ascii_of_N (48 + Z.to_N (n mod 10))) EmptyString.

(** [%m]: the month as two digits. *)
Definition strftime_m (d : datetime) : string :=
  digit (month d / 10) +:+ digit (month d).

(** [%Y]: the year as four digits (years 1000 to 9999). *)
Definition strftime_Y (d : datetime) : string :=
  digit (year d / 1000) +:+ digit (year d / 100) +:+ digit (year d / 10) +:+ digit (year d).

(** ** Request schemas ([app/schemas/wazuh.py]) *)

Module Schema.

Record Agent := {
  agent_name : string;
  agent_id : string;
  ip : string;
  agent_status : string;
  status_code : Z;
  last_keep_alive : datetime;
  os : string;
  os_version : string;
  group_name : string
}.

Record WazuhEvent := {
  timestamp : datetime;
  ev_agent_id : string;
  agent_ip : string;
  rule_description : string;
  rule_level : Z;
  rule_id : string;
  rule_mitre_id : option string;
  rule_mitre_tactic : option string;
  rule_mitre_technique : option string;
  ev_group_name : string
}.

(** What a request body may carry in a MITRE field before validation. *)
Inductive RawField :=
  | Missing
  | RawNull
  | RawStr (s : string)
  | RawList (l : list string)
  | RawInt (n : Z).

(** Validation of a field declared [Optional[str] = Field(None, ...)]: a
    missing key takes the default [None], [null] is [None], a string is kept,
    and every other shape is refused with a validation error. *)
Definition validate_optional_str (r : RawField) : option (option string) :=
  match r with
  | Missing => Some None
  | RawNull => Some None
  | RawStr s => Some (Some s)
  | RawList _ => None
  | RawInt _ => None
  end.

(** The part of an incoming event that has already passed validation of the
    required fields, and the three raw MITRE fields. *)
Record RawEvent := {
  raw_timestamp : datetime;
  raw_agent_id : string;
  raw_agent_ip : string;
  raw_rule_description : string;
  raw_rule_level : Z;
  raw_rule_id : string;
  raw_rule_mitre_id : RawField;
  raw_rule_mitre_tactic : RawField;
  raw_rule_mitre_technique : RawField;
  raw_group_name : string
}.

(** Construction of a [WazuhEvent] from a request body: [None] stands for
    the [ValidationError]. *)
Definition parse_WazuhEvent (r : RawEvent) : option WazuhEvent :=
  match validate_optional_str (raw_rule_mitre_id r),
        validate_optional_str (raw_rule_mitre_tactic r),
        validate_optional_str (raw_rule_mitre_technique r) with
  | Some mid, Some tactic, Some technique =>
      Some {| timestamp := raw_timestamp r;
              ev_agent_id := raw_agent_id r;
              agent_ip := raw_agent_ip r;
              rule_description := raw_rule_description r;
              rule_level := raw_rule_level r;
              rule_id := raw_rule_id r;
              rule_mitre_id := mid;
              rule_mitre_tactic := tactic;
              rule_mitre_technique := technique;
              ev_group_name := raw_group_name r |}
  | _, _, _ => None
  end.

End Schema.

(** ** Document normalizers *)

Definition opt_str (o : option string) : JValue :=
  match o with
  | Some s => JStr s
  | None => JNull
  end.

Module AgentModel.

Record t := {
  agent_name : string;
  agent_id : string;
  ip : string;
  agent_status : string;
  status_code : Z;
  last_keep_alive : datetime;
  group_name : string;
  os : string;
  os_version : string;
  wazuh_data_type : string;
  timestamp : datetime
}.

(** [AgentModel.__init__]; [utcnow] is the value of [datetime.utcnow()]. *)
Definition init (utcnow : datetime) (agent : Schema.Agent) : t :=
  {| agent_name := Schema.agent_name agent;
     agent_id := Schema.agent_id agent;
     ip := Schema.ip agent;
     agent_status := Schema.agent_status agent;
     status_code := Schema.status_code agent;
     last_keep_alive := Schema.last_keep_alive agent;
     group_name := Schema.group_name agent;
     os := Schema.os agent;
     os_version := Schema.os_version agent;
     wazuh_data_type := "agent_info";
     timestamp := utcnow |}.

(** [AgentModel.to_dict]. A [datetime] is always truthy, so the conditional
    on [last_keep_alive] always takes its [isoformat()] branch. *)
Definition to_dict (self : t) : Document :=
  <["agent_name" := JStr (agent_name self)]>
  (<["agent_id" := JStr (agent_id self)]>
  (<["ip" := JStr (ip self)]>
  (<["agent_status" := JStr (lower (agent_status self))]>
  (<["status_code" := JInt (status_code self)]>
  (<["last_keep_alive" := JDate (last_keep_alive self)]>
  (<["os" := JStr (os self)]>
  (<["os_version" := JStr (os_version self)]>
  (<["group_name" := JStr (group_name self)]>
  (<["wazuh_data_type" := JStr (wazuh_data_type self)]>
  (<["timestamp" := JDate (timestamp self)]> ∅)))))))))).

End AgentModel.

Module EventModel.

Record t := {
  timestamp : datetime;
  agent_id : string;
  agent_ip : string;
  rule_description : string;
  rule_level : Z;
  rule_id : string;
  rule_mitre_id : option string;
  rule_mitre_tactic : option string;
  rule_mitre_technique : option string;
  wazuh_data_type : string;
  group_name : string
}.

(** [EventModel.__init__]. *)
Definition init (event : Schema.WazuhEvent) : t :=
  {| timestamp := Schema.timestamp event;
     agent_id := Schema.ev_agent_id event;
     agent_ip := Schema.agent_ip event;
     rule_description := Schema.rule_description event;
     rule_level := Schema.rule_level event;
     rule_id := Schema.rule_id event;
     rule_mitre_id := Schema.rule_mitre_id event;
     rule_mitre_tactic := Schema.rule_mitre_tactic event;
     rule_mitre_technique := Schema.rule_mitre_technique event;
     wazuh_data_type := "wazuh_events";
     group_name := Schema.ev_group_name event |}.

(** [EventModel.to_dict]: every key is written, a [None] as [null]. *)
Definition to_dict (self : t) : Document :=
  <["timestamp" := JDate (timestamp self)]>
  (<["agent_id" := JStr (agent_id self)]>
  (<["agent_ip" := JStr (agent_ip self)]>
  (<["rule_description" := JStr (rule_description self)]>
  (<["rule_level" := JInt (rule_level self)]>
  (<["rule_id" := JStr (rule_id self)]>
  (<["rule_mitre_id" := opt_str (rule_mitre_id self)]>
  (<["rule_mitre_tactic" := opt_str (rule_mitre_tactic self)]>
  (<["rule_mitre_technique" := opt_str (rule_mitre_technique self)]>
  (<["group_name" := JStr (group_name self)]>
  (<["wazuh_data_type" := JStr (wazuh_data_type self)]> ∅)))))))))).

End EventModel.


(** ** Exceptions *)

(** The first three constructors are the exceptions of the store client:
    [NotFoundError] and [RequestError] of [elasticsearch.exceptions] (the
    latter with its [error] attribute) and [OtherError] for any other
    exception a client call raises (connection failure, timeout, server
    error).

    Modelled from the spec: [app/ext/error.py] is not part of the reviewed
    sources. Its two classes used here are the not-found fault
    [UserNotFoundError] and the store fault [ElasticsearchError], exception
    classes built from a message and a status code (the code is left out by
    some callers) and unrelated to the client's exception classes. *)
Inductive exn :=
  | NotFoundError (info : string)
  | RequestError (error : string)
  | OtherError (info : string)
  | UserNotFoundError (message : string) (code : Z)
  | ElasticsearchError (message : string) (code : option Z).

#[global] Instance exn_eq_dec : EqDecision exn.
Proof. solve_decision. Defined.

Inductive outcome (A : Type) :=
  | Ret (a : A)
  | Raise (e : exn).
Arguments Ret {A} a.
Arguments Raise {A} e.

(** ** The document store

    The search engine is an external collaborator. Its reference behaviour
    below is the one the operations of [wazuh_db.py] rely on: an index is a
    schema and a list of hits, a query selects the hits it matches, a search
    sorts them, cuts them to the page size and reports the number of
    matches, a count reports that number alone. *)

(** A hit: [_id] ([None] for an identifier generated by the store) and
    [_source]. *)
Record Entry := { _id : option string; _source : Document }.

#[global] Instance Entry_eq_dec : EqDecision Entry.
Proof. solve_decision. Defined.

Record Index := { idx_mapping : list (string * string); idx_docs : list Entry }.

(** The bounds of a [range] clause. *)
Record Bounds := {
  gte : option JValue; gt : option JValue;
  lte : option JValue; lt : option JValue;
  format : option string
}.

#[warnings="-register-all"] Inductive Query :=
  | QRange (field : string) (b : Bounds)
  | QTerm (field : string) (v : JValue)
  | QTerms (field : string) (vs : list JValue)
  | QBoolMust (must : list Query).

Inductive Order := Asc | Desc.

(** The body of a search: the code passes either no [sort] or a sort on one
    field, and always a [size]. *)
Record SearchBody := {
  query : Query;
  sort : option (string * Order);
  size : Z
}.

Record SearchResponse := {
  hits_hits : list Entry;
  hits_total_value : Z
}.

(** Comparison of a stored value with a bound: numbers with numbers, dates
    with dates. *)
Definition cmp_value (a b : JValue) : option comparison :=
  match a, b with
  | JInt x, JInt y => Some (x ?= y)
  | JDate x, JDate y => Some (instant x ?= instant y)
  | _, _ => None
  end.

Definition bound_ok (ok : comparison -> bool) (bound : option JValue) (v : JValue) : bool :=
  match bound with
  | None => true
  | Some b =>
      match cmp_value v b with
      | Some c => ok c
      | None => false
      end
  end.

Definition is_ge (c : comparison) : bool := match c with Lt => false | _ => true end.
Definition is_gt (c : comparison) : bool := match c with Gt => true | _ => false end.
Definition is_le (c : comparison) : bool := match c with Gt => false | _ => true end.
Definition is_lt (c : comparison) : bool := match c with Lt => true | _ => false end.

Definition range_matches (b : Bounds) (v : JValue) : bool :=
  bound_ok is_ge (gte b) v && bound_ok is_gt (gt b) v
  && bound_ok is_le (lte b) v && bound_ok is_lt (lt b) v.

(** A document without the field, or with [null] in it, matches no clause on
    that field. *)
Fixpoint matches (q : Query) (d : Document) : bool :=
  match q with
  | QRange f b =>
      match d !! f with
      | Some v => range_matches b v
      | None => false
      end
  | QTerm f v => bool_decide (d !! f = Some v)
  | QTerms f vs =>
      match d !! f with
      | Some v => bool_decide (v ∈ vs)
      | None => false
      end
  | QBoolMust must => forallb (fun q' => matches q' d) must
  end.

(** Does the query carry a clause on the given field? *)
Fixpoint filters_on (f : string) (q : Query) : bool :=
  match q with
  | QRange f' _ => String.eqb f f'
  | QTerm f' _ => String.eqb f f'
  | QTerms f' _ => String.eqb f f'
  | QBoolMust must => existsb (filters_on f) must
  end.

(** Sort key of a hit on a field. *)
Definition sort_key (f : string) (e : Entry) : option Z :=
  match _source e !! f with
  | Some (JDate t) => Some (instant t)
  | Some (JInt n) => Some n
  | _ => None
  end.

(** [before f o a b]: [a] may stand before [b]; hits without the key go last. *)
Definition before (f : string) (o : Order) (a b : Entry) : bool :=
  match sort_key f a, sort_key f b with
  | Some x, Some y =>
      match o with
      | Asc => x <=? y
      | Desc => y <=? x
      end
  | Some _, None => true
  | None, Some _ => false
  | None, None => true
  end.

Fixpoint insert_by {A} (leb : A -> A -> bool) (x : A) (l : list A) : list A :=
  match l with
  | [] => [x]
  | y :: l' => if leb x y then x :: l else y :: insert_by leb x l'
  end.

(** A stable sort: hits with equal keys keep their order. *)
Definition sort_by {A} (leb : A -> A -> bool) (l : list A) : list A :=
  foldr (insert_by leb) [] l.

Definition sort_hits (s : option (string * Order)) (l : list Entry) : list Entry :=
  match s with
  | Some (f, o) => sort_by (before f o) l
  | None => l
  end.

Definition matching (q : Query) (docs : list Entry) : list Entry :=
  List.filter (fun e => matches q (_source e)) docs.

(** How far the store counts the hits of a search whose body carries no
    [track_total_hits]: up to 10000, the default. No search body of the code
    carries one, so [hits.total.value] is the number of matches only while
    that is at most 10000, and 10000 beyond. *)
Definition TRACK_TOTAL_HITS : Z := 10000.

(** The answer to a search whose page size lies between 0 and the store's
    cap of 10000 results. *)
Definition run_search (body : SearchBody) (docs : list Entry) : SearchResponse :=
  let found := matching (query body) docs in
  {| hits_hits := take (Z.to_nat (size body)) (sort_hits (sort body) found);
     hits_total_value := Z.min (Z.of_nat (length found)) TRACK_TOTAL_HITS |}.

Definition run_count (q : Query) (docs : list Entry) : Z :=
  Z.of_nat (length (matching q docs)).

(** ** The world: store contents, what the store does next, calls made *)

Inductive ApiCall :=
  | CallExists (index : string)
  | CallCreate (index : string)
  | CallIndex (index : string) (id : option string)
  | CallSearch (index : string)
  | CallCount (index : string).

(** [schedule]: for each coming client call, [None] when the store serves
    it and [Some e] when the call raises [e]; past its end every call is
    served. [calls]: the client calls made so far, oldest first. *)
Record World := {
  indices : gmap string Index;
  schedule : list (option exn);
  calls : list ApiCall
}.

Definition next_fault (w : World) : option exn :=
  match schedule w with
  | Some e :: _ => Some e
  | _ => None
  end.

Definition advance (c : ApiCall) (w : World) : World :=
  {| indices := indices w; schedule := tail (schedule w); calls := calls w ++ [c] |}.

Definition with_indices (m : gmap string Index) (w : World) : World :=
  {| indices := m; schedule := schedule w; calls := calls w |}.

(** ** The monad of store-facing code *)

Definition M (A : Type) : Type := World -> outcome A * World.

Definition ret {A} (a : A) : M A := fun w => (Ret a, w).

Definition raise {A} (e : exn) : M A := fun w => (Raise e, w).

Definition bind {A B} (m : M A) (k : A -> M B) : M B :=
  fun w =>
    match m w with
    | (Ret a, w') => k a w'
    | (Raise e, w') => (Raise e, w')
    end.

(** [try: m except Exception as e: h e]. *)
Definition try_except {A} (m : M A) (h : exn -> M A) : M A :=
  fun w =>
    match m w with
    | (Ret a, w') => (Ret a, w')
    | (Raise e, w') => h e w'
    end.

Notation "x <- m ;; k" := (bind m (fun x => k))
  (at level 100, m at next level, right associativity).

(** ** The client [es] *)

Definition already_exists : string := "resource_already_exists_exception".

Definition is_already_exists (e : exn) : bool :=
  match e with
  | RequestError err => String.eqb err already_exists
  | _ => false
  end.

Definition empty_index (mapping : list (string * string)) : Index :=
  {| idx_mapping := mapping; idx_docs := [] |}.

(** The index is there afterwards, with the schema given if it was not. *)
Definition ensure_index (name : string) (mapping : list (string * string))
    (m : gmap string Index) : gmap string Index :=
  match m !! name with
  | Some _ => m
  | None => <[name := empty_index mapping]> m
  end.

(** [es.indices.exists(index=name)]. *)
Definition es_indices_exists (name : string) : M bool :=
  fun w =>
    let w' := advance (CallExists name) w in
    match next_fault w with
    | Some e => (Raise e, w')
    | None => (Ret (bool_decide (is_Some (indices w !! name))), w')
    end.

(** [es.indices.create(index=name, body=mapping)]. Creating an index that
    exists is refused with [resource_already_exists_exception]; when the
    store answers so to a creator that saw no index, a concurrent creator
    has made it in between, and the index is there afterwards. *)
Definition es_indices_create (name : string) (mapping : list (string * string)) : M unit :=
  fun w =>
    let w' := advance (CallCreate name) w in
    match next_fault w with
    | Some e =>
        (Raise e,
         if is_already_exists e
         then with_indices (ensure_index name mapping (indices w)) w'
         else w')
    | None =>
        match indices w !! name with
        | Some _ => (Raise (RequestError already_exists), w')
        | None => (Ret tt, with_indices (<[name := empty_index mapping]> (indices w)) w')
        end
    end.

Inductive IndexResult := Created | Updated.

(** Writing a hit: one with the same identifier is replaced in place,
    otherwise the hit is appended. *)
Fixpoint put_entry (id : string) (d : Document) (l : list Entry) : IndexResult * list Entry :=
  match l with
  | [] => (Created, [{| _id := Some id; _source := d |}])
  | e :: l' =>
      if bool_decide (_id e = Some id)
      then (Updated, {| _id := Some id; _source := d |} :: l')
      else let '(r, l'') := put_entry id d l' in (r, e :: l'')
  end.

Definition write_entry (id : option string) (d : Document) (l : list Entry)
    : IndexResult * list Entry :=
  match id with
  | Some i => put_entry i d l
  | None => (Created, l ++ [{| _id := None; _source := d |}])
  end.

(** [es.index(index=name, id=id, body=d)]; a missing index is created on
    the fly by the store, without a schema. *)
Definition es_index (name : string) (id : option string) (d : Document) : M IndexResult :=
  fun w =>
    let w' := advance (CallIndex name id) w in
    match next_fault w with
    | Some e => (Raise e, w')
    | None =>
        let ix := default (empty_index []) (indices w !! name) in
        let '(r, docs) := write_entry id d (idx_docs ix) in
        (Ret r,
         with_indices (<[name := {| idx_mapping := idx_mapping ix; idx_docs := docs |}]> (indices w)) w')
    end.

(** [es.search(index=name, body=body)]. *)
Definition es_search (name : string) (body : SearchBody) : M SearchResponse :=
  fun w =>
    let w' := advance (CallSearch name) w in
    match next_fault w with
    | Some e => (Raise e, w')
    | None =>
        match indices w !! name with
        | Some ix => (Ret (run_search body (idx_docs ix)), w')
        | None => (Raise (NotFoundError "index_not_found_exception"), w')
        end
    end.

(** [es.count(index=name, body={"query": q})]. *)
Definition es_count (name : string) (q : Query) : M Z :=
  fun w =>
    let w' := advance (CallCount name) w in
    match next_fault w with
    | Some e => (Raise e, w')
    | None =>
        match indices w !! name with
        | Some ix => (Ret (run_count q (idx_docs ix)), w')
        | None => (Raise (NotFoundError "index_not_found_exception"), w')
        end
    end.

(** ** [app/models/wazuh_db.py] *)

Definition MAX_RESULTS : Z := 10000.

(** The schema written by [create_index_with_mapping]. *)
Definition mapping : list (string * string) :=
  [ ("agent_name", "keyword"); ("agent_id", "keyword"); ("ip", "ip");
    ("agent_status", "keyword"); ("status_code", "integer");
    ("last_keep_alive", "date"); ("os", "keyword"); ("os_version", "keyword");
    ("group_name", "keyword"); ("wazuh_data_type", "keyword");
    ("timestamp", "date");
    ("rule_description", "text"); ("rule_level", "integer");
    ("rule_id", "keyword"); ("rule_mitre_id", "keyword");
    ("rule_mitre_tactic", "keyword"); ("rule_mitre_technique", "keyword");
    ("agent_ip", "ip") ].

(** [f"{datetime.now().strftime('%Y_%m')}_agents_data"]. *)
Definition index_name_at (now : datetime) : string :=
  strftime_Y now +:+ "_" +:+ strftime_m now +:+ "_agents_data".

(** [create_index_with_mapping]; [now] is the value of [datetime.now()]. *)
Definition create_index_with_mapping (now : datetime) : M string :=
  let index_name := index_name_at now in
  present <- es_indices_exists index_name ;;
  if negb present then
    _ <- try_except (es_indices_create index_name mapping)
           (fun e =>
              match e with
              | RequestError err =>
                  if String.eqb err already_exists then ret tt else raise e
              | _ => raise e
              end) ;;
    ret index_name
  else ret index_name.

Definition get_index_name (now : datetime) : M string :=
  create_index_with_mapping now.

(** A time range clause on [timestamp]. *)
Definition range_gte_lte (start_time end_time : datetime) (fmt : option string) : Query :=
  QRange "timestamp"
    {| gte := Some (JDate start_time); gt := None;
       lte := Some (JDate end_time); lt := None; format := fmt |}.

Definition range_gte_lt (start_time end_time : datetime) : Query :=
  QRange "timestamp"
    {| gte := Some (JDate start_time); gt := None;
       lte := None; lt := Some (JDate end_time); format := None |}.

(** Truth value of an optional list of group names. *)
Definition truthy (group_names : option (list string)) : bool :=
  match group_names with
  | Some (_ :: _) => true
  | _ => false
  end.

Definition group_clause (group_names : option (list string)) : list Query :=
  if truthy group_names
  then [QTerms "group_name" (JStr <$> default [] group_names)]
  else [].

Definition sources (r : SearchResponse) : list Document :=
  _source <$> hits_hits r.

Section Operations.

(** [str(e)]: the text of an exception, fixed by classes outside the
    reviewed sources. *)
Variable exn_str : exn -> string.

(** The decorator [handle_es_exceptions]. *)
Definition handle_es_exceptions {A} (func : M A) : M A :=
  try_except func
    (fun e =>
       match e with
       | NotFoundError _ => raise (UserNotFoundError (exn_str e) 404)
       | _ => raise (ElasticsearchError ("Elasticsearch error: " +:+ exn_str e) (Some 500))
       end).

(** [AgentModel.save_to_elasticsearch]: the handler logs and re-raises. *)
Definition AgentModel_save_to_elasticsearch (now : datetime) (agent : AgentModel.t)
    : M IndexResult :=
  try_except
    (index_name <- get_index_name now ;;
     let agent_dict := AgentModel.to_dict agent in
     es_index index_name (Some ("agent_" +:+ AgentModel.agent_id agent)) agent_dict)
    (fun e => raise e).

Definition load_agents_query (start_time end_time : datetime)
    (group_names : option (list string)) : SearchBody :=
  {| query :=
       QBoolMust
         ([ QTerm "wazuh_data_type" (JStr "agent_info");
            range_gte_lte start_time end_time (Some "strict_date_optional_time") ]
          ++ group_clause group_names);
     sort := Some ("timestamp", Desc);
     size := MAX_RESULTS |}.

(** [AgentModel.load_agents], under its decorator. *)
Definition load_agents (now start_time end_time : datetime)
    (group_names : option (list string)) : M (list Document) :=
  handle_es_exceptions
    (try_except
       (let query := load_agents_query start_time end_time group_names in
        index_name <- get_index_name now ;;
        response <- es_search index_name query ;;
        ret (sources response))
       (fun e => raise (ElasticsearchError ("Error loading agents: " +:+ exn_str e) (Some 500)))).

(** [EventModel.save_to_elasticsearch]. *)
Definition EventModel_save_to_elasticsearch (now : datetime) (event : EventModel.t)
    : M IndexResult :=
  try_except
    (index_name <- get_index_name now ;;
     let event_dict := EventModel.to_dict event in
     es_index index_name None event_dict)
    (fun e => raise e).

Definition load_group_events_query (group_names : list string)
    (start_time end_time : datetime) : SearchBody :=
  {| query :=
       QBoolMust
         [ range_gte_lte start_time end_time None;
           QTerms "group_name" (JStr <$> group_names);
           QTerm "wazuh_data_type" (JStr "wazuh_events") ];
     sort := None;
     size := MAX_RESULTS |}.

Definition load_group_events_from_elasticsearch (now : datetime)
    (group_names : list string) (start_time end_time : datetime) : M (list Document) :=
  handle_es_exceptions
    (let query := load_group_events_query group_names start_time end_time in
     index_name <- get_index_name now ;;
     response <- es_search index_name query ;;
     ret (sources response)).

Definition load_agent_events_query (agent_id : string)
    (start_time end_time : datetime) : SearchBody :=
  {| query :=
       QBoolMust
         [ range_gte_lte start_time end_time None;
           QTerm "agent_id" (JStr agent_id);
           QTerm "wazuh_data_type" (JStr "wazuh_events") ];
     sort := None;
     size := MAX_RESULTS |}.

Definition load_from_elasticsearch_with_time_range (now : datetime)
    (agent_id : string) (start_time end_time : datetime) : M (list Document) :=
  handle_es_exceptions
    (let query := load_agent_events_query agent_id start_time end_time in
     index_name <- get_index_name now ;;
     response <- es_search index_name query ;;
     ret (sources response)).

Definition load_all_events_query (start_time end_time : datetime) : SearchBody :=
  {| query :=
       QBoolMust
         [ range_gte_lte start_time end_time None;
           QTerm "wazuh_data_type" (JStr "wazuh_events") ];
     sort := None;
     size := MAX_RESULTS |}.

Definition load_all_events_from_elasticsearch (now : datetime)
    (start_time end_time : datetime) : M (list Document) :=
  handle_es_exceptions
    (let query := load_all_events_query start_time end_time in
     index_name <- get_index_name now ;;
     response <- es_search index_name query ;;
     ret (sources response)).

(** The body shared, word for word, by [get_events_in_timerange] and
    [get_events_for_pie_chart]. *)
Definition timerange_query (start_time end_time : datetime) (size : Z) : SearchBody :=
  {| query := range_gte_lt start_time end_time;
     sort := Some ("timestamp", Asc);
     size := size |}.

(** [EventModel.get_events_in_timerange]: returns the hits themselves. *)
Definition get_events_in_timerange (now start_time end_time : datetime) (size : Z)
    : M (list Entry) :=
  let query := timerange_query start_time end_time size in
  try_except
    (index_name <- get_index_name now ;;
     result <- es_search index_name query ;;
     ret (hits_hits result))
    (fun e => raise (ElasticsearchError ("Error getting events: " +:+ exn_str e) None)).

Definition high_level_count_query (start_time end_time : datetime) : Query :=
  QBoolMust
    [ range_gte_lt start_time end_time;
      QRange "rule_level"
        {| gte := Some (JInt 8); gt := None; lte := Some (JInt 14); lt := None;
           format := None |} ].

(** [EventModel.get_high_level_event_count]. *)
Definition get_high_level_event_count (now start_time end_time : datetime) : M Z :=
  let query := high_level_count_query start_time end_time in
  try_except
    (index_name <- get_index_name now ;;
     es_count index_name query)
    (fun e =>
       raise (ElasticsearchError ("Error getting high-level event count: " +:+ exn_str e) None)).

(** [EventModel.get_events_for_pie_chart]. *)
Definition get_events_for_pie_chart (now start_time end_time : datetime) (size : Z)
    : M (list Entry) :=
  let query := timerange_query start_time end_time size in
  try_except
    (index_name <- get_index_name now ;;
     result <- es_search index_name query ;;
     ret (hits_hits result))
    (fun e =>
       raise (ElasticsearchError ("Error getting events for pie chart: " +:+ exn_str e) None)).

Definition load_messages_query (start_time end_time : datetime)
    (group_names : option (list string)) : Query :=
  QBoolMust
    ([ range_gte_lt start_time end_time;
       QRange "rule_level"
         {| gte := None; gt := Some (JInt 8); lte := None; lt := None; format := None |} ]
     ++ group_clause group_names).

Definition load_messages_body (start_time end_time : datetime)
    (group_names : option (list string)) (limit : Z) : SearchBody :=
  {| query := load_messages_query start_time end_time group_names;
     sort := Some ("timestamp", Desc);
     size := limit |}.

(** [EventModel.load_messages]. *)
Definition load_messages (now start_time end_time : datetime)
    (group_names : option (list string)) (limit : Z) : M (list Document * Z) :=
  let body := load_messages_body start_time end_time group_names limit in
  try_except
    (index_name <- get_index_name now ;;
     result <- es_search index_name body ;;
     let messages := sources result in
     let total_count := hits_total_value result in
     ret (messages, total_count))
    (fun e =>
       raise (ElasticsearchError ("Error loading high-level messages: " +:+ exn_str e) None)).

End Operations.

(** * Vocabulary of the properties, and sample data *)

(** ** The stable sort *)

(** The relation a boolean ordering stands for. *)
Definition leb_rel {A} (leb : A -> A -> bool) : relation A := fun a b => leb a b = true.

(** ** Worlds in which the store serves every call *)

Definition quiet (w : World) : Prop := Forall (fun o => o = None) (schedule w).

(** The hits of the partition of the month of [now]. *)
Definition active_docs (now : datetime) (w : World) : list Entry :=
  match indices w !! index_name_at now with
  | Some ix => idx_docs ix
  | None => []
  end.

(** The calls a run added to the log. *)
Definition added (w w' : World) (cs : list ApiCall) : Prop := calls w' = calls w ++ cs.

Definition partition_calls (k : string) (cs : list ApiCall) : Prop :=
  cs = [CallExists k] \/ cs = [CallExists k; CallCreate k].

(** The shape shared by every read: resolve the partition, run one search,
    project the response. *)
Definition search_active {B} (now : datetime) (body : SearchBody)
    (f : SearchResponse -> B) : M B :=
  index_name <- get_index_name now ;;
  response <- es_search index_name body ;;
  ret (f response).

(** ** Reading documents *)

Definition timestamp_of (d : Document) : option datetime :=
  match d !! "timestamp" with
  | Some (JDate t) => Some t
  | _ => None
  end.

Definition level_of (d : Document) : option Z :=
  match d !! "rule_level" with
  | Some (JInt l) => Some l
  | _ => None
  end.

(** [start <= timestamp < end]. *)
Definition in_window_excl (start_time end_time : datetime) (d : Document) : bool :=
  match timestamp_of d with
  | Some t => (instant start_time <=? instant t) && (instant t <? instant end_time)
  | None => false
  end.

(** [start <= timestamp <= end]. *)
Definition in_window_incl (start_time end_time : datetime) (d : Document) : bool :=
  match timestamp_of d with
  | Some t => (instant start_time <=? instant t) && (instant t <=? instant end_time)
  | None => false
  end.

(** [8 <= rule_level <= 14]. *)
Definition high_severity (d : Document) : bool :=
  match level_of d with
  | Some l => (8 <=? l) && (l <=? 14)
  | None => false
  end.

(** [rule_level > 8]. *)
Definition above_8 (d : Document) : bool :=
  match level_of d with
  | Some l => 8 <? l
  | None => false
  end.

Definition in_groups (group_names : option (list string)) (d : Document) : bool :=
  if truthy group_names
  then match d !! "group_name" with
       | Some v => bool_decide (v ∈ JStr <$> default [] group_names)
       | None => false
       end
  else true.

Definition has_type (ty : string) (d : Document) : bool :=
  bool_decide (d !! "wazuh_data_type" = Some (JStr ty)).

(** ** Sample data *)

Definition at_day (d h : Z) : datetime := mk_datetime 2024 8 d h 0 0 0.

Definition sample_event (t : datetime) (lvl : Z) (g : string) : EventModel.t :=
  EventModel.init
    {| Schema.timestamp := t; Schema.ev_agent_id := "001";
       Schema.agent_ip := "192.168.1.101";
       Schema.rule_description := "Multiple authentication failures.";
       Schema.rule_level := lvl; Schema.rule_id := "5710";
       Schema.rule_mitre_id := Some "T1110";
       Schema.rule_mitre_tactic := Some "Credential Access";
       Schema.rule_mitre_technique := None;
       Schema.ev_group_name := g |}.

Definition stored_event (t : datetime) (lvl : Z) (g : string) : Entry :=
  {| _id := None; _source := EventModel.to_dict (sample_event t lvl g) |}.

Definition world_of (docs : list Entry) : World :=
  {| indices := {[ "2024_08_agents_data" := {| idx_mapping := mapping; idx_docs := docs |} ]};
     schedule := [];
     calls := [] |}.

(** Events of severity 7, 8, 14 and 15 on the second of August. *)
Definition severity_world : World :=
  world_of [ stored_event (at_day 2 1) 7 "group1"; stored_event (at_day 2 2) 8 "group1";
             stored_event (at_day 2 3) 14 "group1"; stored_event (at_day 2 4) 15 "group1" ].

Definition plain_str (e : exn) : string :=
  match e with
  | NotFoundError s | RequestError s | OtherError s => s
  | UserNotFoundError s _ | ElasticsearchError s _ => s
  end.

(** ** The high-severity count *)

(** What the count is meant to count. *)
Definition counted (start_time end_time : datetime) (d : Document) : bool :=
  in_window_excl start_time end_time d && high_severity d.

Definition count_calls (k : string) (cs : list ApiCall) : Prop :=
  cs = [CallExists k; CallCount k] \/ cs = [CallExists k; CallCreate k; CallCount k].

(** ** The paginated high-severity feed *)

(** What the feed is meant to select. *)
Definition feed_match (start_time end_time : datetime) (group_names : option (list string))
    (d : Document) : bool :=
  in_window_excl start_time end_time d && above_8 d && in_groups group_names d.

(** Every document carries a timestamp and no later position is newer. *)
Definition newest_first (l : list Document) : Prop :=
  forall (i j : nat) (di dj : Document),
    (i < j)%nat -> l !! i = Some di -> l !! j = Some dj ->
    exists ti tj, timestamp_of di = Some ti /\ timestamp_of dj = Some tj
                  /\ instant tj <= instant ti.

(** Five matching events of the second of August, one event of level 8,
    which is not above 8, and one stamped after the window. *)
Definition feed_world : World :=
  world_of [ stored_event (at_day 2 1) 9 "group1"; stored_event (at_day 2 5) 12 "group1";
             stored_event (at_day 2 3) 8 "group1"; stored_event (at_day 2 2) 15 "group2";
             stored_event (at_day 2 4) 10 "group1"; stored_event (at_day 4 0) 13 "group1";
             stored_event (at_day 2 6) 11 "group2" ].

(** A burst of 10001 events of level 12, one a second from 00:00:00 on the
    second of August. *)
Definition burst_event (i : Z) : Entry :=
  stored_event (mk_datetime 2024 8 2 (i / 3600) ((i / 60) mod 60) (i mod 60) 0) 12 "group1".

Definition burst_world : World := world_of (burst_event <$> seqZ 0 10001).

(** ** The read operations as searches of the active partition *)

(** A handler that never returns a value. *)
Definition raises_only {A} (h : exn -> M A) : Prop :=
  forall e w, exists e', h e w = (Raise e', w).

(** ** What each query selects *)

Definition in_group_list (group_names : list string) (d : Document) : bool :=
  match d !! "group_name" with
  | Some v => bool_decide (v ∈ JStr <$> group_names)
  | None => false
  end.

Definition of_agent (agent_id : string) (d : Document) : bool :=
  bool_decide (d !! "agent_id" = Some (JStr agent_id)).


Definition within_excl (start_time end_time : datetime) (d : Document) : Prop :=
  exists t, timestamp_of d = Some t /\ instant start_time <= instant t < instant end_time.

(** ** Time bounds of the reads *)

(** A high-severity event stamped exactly at the end of the window
    [2024-08-02, 2024-08-03]. *)
Definition boundary_event : EventModel.t := sample_event (at_day 3 0) 12 "group1".


(** ** The partition manager *)

(** A store that holds no index, answers the existence check and then
    refuses the creation with [e]. *)
Definition refusing_world (e : exn) : World :=
  {| indices := ∅; schedule := [None; Some e]; calls := [] |}.

(** ** The fault translator *)

Definition is_domain_fault (e : exn) : bool :=
  match e with
  | UserNotFoundError _ _ | ElasticsearchError _ _ => true
  | _ => false
  end.

(** The fault a decorated operation raises for an exception of its body. *)
Definition decorated_fault (exn_str : exn -> string) (e : exn) : exn :=
  match e with
  | NotFoundError _ => UserNotFoundError (exn_str e) 404
  | _ => ElasticsearchError ("Elasticsearch error: " +:+ exn_str e) (Some 500)
  end.

(** The count as a program of the store: resolve the partition, count. *)
Definition count_active (now : datetime) (q : Query) : M Z :=
  index_name <- get_index_name now ;; es_count index_name q.

(** The partition exists and the store answers the existence check, then
    fails the next call with [e]. *)
Definition failing_world (e : exn) : World :=
  {| indices := {[ "2024_08_agents_data" := {| idx_mapping := mapping; idx_docs := [] |} ]};
     schedule := [None; Some e];
     calls := [] |}.

(** ** Agent normalization *)

Definition sample_agent : Schema.Agent :=
  {| Schema.agent_name := "test-agent-1"; Schema.agent_id := "001";
     Schema.ip := "192.168.1.100"; Schema.agent_status := "Active";
     Schema.status_code := 0; Schema.last_keep_alive := at_day 2 12;
     Schema.os := "Ubuntu"; Schema.os_version := "20.04";
     Schema.group_name := "group1" |}.

Definition empty_world : World := {| indices := ∅; schedule := []; calls := [] |}.

(** ** Event normalization *)

(** A field the schema accepts for [Optional[str]]. *)
Definition accepted (f : Schema.RawField) : Prop :=
  is_Some (Schema.validate_optional_str f).

(** What the persisted document holds for an accepted field: the string,
    or [null] when none was supplied. *)
Definition persisted (f : Schema.RawField) : JValue :=
  match f with
  | Schema.RawStr s => JStr s
  | _ => JNull
  end.

Definition raw_event (mid tactic technique : Schema.RawField) : Schema.RawEvent :=
  {| Schema.raw_timestamp := at_day 2 11; Schema.raw_agent_id := "001";
     Schema.raw_agent_ip := "192.168.1.101";
     Schema.raw_rule_description := "File integrity checksum changed.";
     Schema.raw_rule_level := 7; Schema.raw_rule_id := "550";
     Schema.raw_rule_mitre_id := mid;
     Schema.raw_rule_mitre_tactic := tactic;
     Schema.raw_rule_mitre_technique := technique;
     Schema.raw_group_name := "threathunting" |}.

(** ** Top-N rankings *)

(** The label of a document under a grouping field; a missing field, a
    [null] and a value that is not a string give no label. *)
Definition field_label (f : string) (d : Document) : option string :=
  match d !! f with
  | Some (JStr s) => Some s
  | _ => None
  end.

Inductive Grouping :=
  | ByAgentName
  | ByMitreId
  | ByRuleDescription
  | ByAgentEventCount.

Definition grouping_key (g : Grouping) : Document -> option string :=
  match g with
  | ByAgentName => field_label "agent_name"
  | ByMitreId => field_label "rule_mitre_id"
  | ByRuleDescription => field_label "rule_description"
  | ByAgentEventCount => field_label "agent_name"
  end.

(** Number of occurrences of each label. *)
Definition tally (labels : list string) : gmap string nat :=
  foldr (fun k m => <[k := S (default 0%nat (m !! k))]> m) ∅ labels.

(** [rank_leb p q]: [p] ranks no later than [q]: higher count first, equal
    counts by ascending label. *)
Definition rank_leb (p q : string * nat) : bool :=
  (q.2 <? p.2)%nat || ((p.2 =? q.2)%nat && String.leb p.1 q.1).

(** Modelled from the spec: the ranking of the aggregation engine (section
    4.4, "Top-N rankings") is computed outside the reviewed sources, which
    only declare its output shape ([PieChartData], lists of [PieChartItem]
    with a [name] and a [value]). Following the spec: the documents are
    grouped by the label of the key, documents without a label are left
    out, each group is emitted as (name, value) with its count, groups are
    ordered by descending count and, for equal counts, by ascending lexical
    order of the label, and the first [n] are kept. *)
Definition top_n (n : nat) (key : Document -> option string) (events : list Entry)
    : list (string * nat) :=
  let labels := omap (fun h => key (_source h)) events in
  take n (sort_by rank_leb (map_to_list (tally labels))).

(** The pie-chart rankings keep five groups. *)
Definition top_5 (g : Grouping) (events : list Entry) : list (string * nat) :=
  top_n 5 (grouping_key g) events.

(** Number of documents of a group. *)
Definition group_size (key : Document -> option string) (events : list Entry)
    (name : string) : nat :=
  length (List.filter (fun h => bool_decide (key (_source h) = Some name)) events).

Definition named_event (name : option string) : Entry :=
  {| _id := None;
     _source :=
       match name with
       | Some s => <["agent_name" := JStr s]> (EventModel.to_dict (sample_event (at_day 2 1) 9 "g"))
       | None => EventModel.to_dict (sample_event (at_day 2 1) 9 "g")
       end |}.

(** Agents A and B with three events each, C with one, and one event that
    names no agent. *)
Definition tie_events : list Entry :=
  [ named_event (Some "B"); named_event (Some "A"); named_event (Some "C");
    named_event (Some "B"); named_event None; named_event (Some "A");
    named_event (Some "A"); named_event (Some "B") ].

(** *** The order of the ranking *)

(** [outranks p q]: [p] has the higher count, or the same count and the
    lexically smaller label. *)
Definition outranks (p q : string * nat) : Prop :=
  (q.2 < p.2)%nat \/ (p.2 = q.2 /\ String.ltb p.1 q.1 = true).

(** *** Counting *)

Definition occ (k : string) (labels : list string) : nat :=
  length (List.filter (fun x => bool_decide (x = k)) labels).

(** The groups before the cut: every label with its count, in rank order. *)
Definition ranked (key : Document -> option string) (events : list Entry)
    : list (string * nat) :=
  sort_by rank_leb (map_to_list (tally (omap (fun h => key (_source h)) events))).

(** ** The discriminator in the queries *)

Definition discriminator : string := "wazuh_data_type".

(** An agent record captured and two events stored on the second of August. *)
Definition mixed_world : World :=
  world_of [ {| _id := Some "agent_001";
                _source := AgentModel.to_dict (AgentModel.init (at_day 2 12) sample_agent) |};
             stored_event (at_day 2 1) 3 "group1"; stored_event (at_day 2 20) 12 "group1" ].

(** A document tagged [agent_info] that carries a rule level. *)
Definition tagged_agent_doc : Document :=
  <["wazuh_data_type" := JStr "agent_info"]>
    (EventModel.to_dict (sample_event (at_day 2 1) 12 "group1")).

(** ** Runs of the operations *)

(** Every index of [w] is in [w'] as it was: same schema, same hits. *)
Definition kept (w w' : World) : Prop :=
  forall k ix, indices w !! k = Some ix -> indices w' !! k = Some ix.

(** The run from [w] to [w'] made the client calls [cs], each of which used
    up one entry of the schedule. *)
Definition consumed (w w' : World) (cs : list ApiCall) : Prop :=
  calls w' = calls w ++ cs /\ schedule w' = drop (length cs) (schedule w).

(** The store failed the [n]-th coming call with [e]. *)
Definition fault_at (w : World) (n : nat) (e : exn) : Prop :=
  schedule w !! n = Some (Some e).

(** The client calls of an operation that resolves the partition and then
    makes the call [c]. *)
Definition op_calls (k : string) (c : ApiCall) (cs : list ApiCall) : Prop :=
  partition_calls k cs \/ cs = [CallExists k; c] \/ cs = [CallExists k; CallCreate k; c].

(** What a final client call does on a partition that exists. *)
Definition final_call {A} (k : string) (c : ApiCall) (final : M A) : Prop :=
  forall w1, is_Some (indices w1 !! k) ->
    match final w1 with
    | (Ret _, w2) => consumed w1 w2 [c]
    | (Raise e, w2) => consumed w1 w2 [c] /\ indices w2 = indices w1 /\ fault_at w1 0 e
    end.

(** A final call that leaves the indices alone. *)
Definition reading {A} (final : M A) : Prop :=
  forall w1, indices (final w1).2 = indices w1.

(** An index differs from the one before at most in its hits. *)
Definition same_schema (w w' : World) : Prop :=
  forall k ix, indices w !! k = Some ix ->
               exists ix', indices w' !! k = Some ix' /\ idx_mapping ix' = idx_mapping ix.

(** Identifiers given by the callers are not shared by two hits. *)
Definition ids_unique (docs : list Entry) : Prop := NoDup (omap _id docs).

Definition has_id (id : string) (e : Entry) : bool := bool_decide (_id e = Some id).

(** The operation stopped because the store failed a client call with [e]:
    that call was its last one, no index that existed was touched, and the
    hits of the active partition are those from before. *)
Definition failed_by_store (now : datetime) (c : ApiCall) (w w' : World) (e : exn) : Prop :=
  kept w w'
  /\ active_docs now w' = active_docs now w
  /\ exists cs, consumed w w' cs /\ op_calls (index_name_at now) c cs
                /\ fault_at w (length cs - 1) e.

(** The identifier under which an agent is stored. *)
Definition agent_key (a : AgentModel.t) : string := "agent_" +:+ AgentModel.agent_id a.

Definition stored_agent (a : AgentModel.t) : Entry :=
  {| _id := Some (agent_key a); _source := AgentModel.to_dict a |}.

(** The agent of [sample_agent], reported again later as disconnected. *)
Definition later_agent : AgentModel.t :=
  AgentModel.init (at_day 3 9)
    {| Schema.agent_name := "test-agent-1"; Schema.agent_id := "001";
       Schema.ip := "192.168.1.100"; Schema.agent_status := "Disconnected";
       Schema.status_code := 1; Schema.last_keep_alive := at_day 3 8;
       Schema.os := "Ubuntu"; Schema.os_version := "20.04";
       Schema.group_name := "group1" |}.

(** ** The eight reads, taken together *)

Inductive ReadOp :=
  | LoadAgents (group_names : option (list string))
  | LoadGroupEvents (group_names : list string)
  | LoadAgentEvents (agent_id : string)
  | LoadAllEvents
  | EventsInTimerange (size : Z)
  | HighLevelEventCount
  | EventsForPieChart (size : Z)
  | LoadMessages (group_names : option (list string)) (limit : Z).

Definition outcome_exn {A} (o : outcome A) : option exn :=
  match o with
  | Ret _ => None
  | Raise e => Some e
  end.

(** What can be seen of a run without looking at its value: the exception
    raised, if any, and the world left behind. *)
Definition observe {A} (r : outcome A * World) : option exn * World :=
  (outcome_exn r.1, r.2).

Definition run_read (exn_str : exn -> string) (now start_time end_time : datetime)
    (op : ReadOp) (w : World) : option exn * World :=
  match op with
  | LoadAgents g => observe (load_agents exn_str now start_time end_time g w)
  | LoadGroupEvents g =>
      observe (load_group_events_from_elasticsearch exn_str now g start_time end_time w)
  | LoadAgentEvents id =>
      observe (load_from_elasticsearch_with_time_range exn_str now id start_time end_time w)
  | LoadAllEvents =>
      observe (load_all_events_from_elasticsearch exn_str now start_time end_time w)
  | EventsInTimerange size =>
      observe (get_events_in_timerange exn_str now start_time end_time size w)
  | HighLevelEventCount =>
      observe (get_high_level_event_count exn_str now start_time end_time w)
  | EventsForPieChart size =>
      observe (get_events_for_pie_chart exn_str now start_time end_time size w)
  | LoadMessages g limit =>
      observe (load_messages exn_str now start_time end_time g limit w)
  end.

(** The client call a read makes once the partition is resolved. *)
Definition read_call (op : ReadOp) (k : string) : ApiCall :=
  match op with
  | HighLevelEventCount => CallCount k
  | _ => CallSearch k
  end.

(** The exception a read raises when one of its client calls raised [e]. *)
Definition read_fault (exn_str : exn -> string) (op : ReadOp) (e : exn) : exn :=
  match op with
  | LoadAgents _ =>
      decorated_fault exn_str
        (ElasticsearchError ("Error loading agents: " +:+ exn_str e) (Some 500))
  | LoadGroupEvents _ | LoadAgentEvents _ | LoadAllEvents => decorated_fault exn_str e
  | EventsInTimerange _ => ElasticsearchError ("Error getting events: " +:+ exn_str e) None
  | HighLevelEventCount =>
      ElasticsearchError ("Error getting high-level event count: " +:+ exn_str e) None
  | EventsForPieChart _ =>
      ElasticsearchError ("Error getting events for pie chart: " +:+ exn_str e) None
  | LoadMessages _ _ =>
      ElasticsearchError ("Error loading high-level messages: " +:+ exn_str e) None
  end.

(** All a read may do to the store: nothing to an index that existed, and
    at most the creation of the partition of the month, empty and with the
    fixed schema. *)
Definition read_effect (now : datetime) (c : ApiCall) (w w' : World) : Prop :=
  kept w w'
  /\ (forall j, j <> index_name_at now -> indices w' !! j = indices w !! j)
  /\ (indices w' !! index_name_at now = indices w !! index_name_at now
      \/ (indices w !! index_name_at now = None
          /\ indices w' !! index_name_at now = Some (empty_index mapping)))
  /\ exists cs, consumed w w' cs /\ op_calls (index_name_at now) c cs.

(** ** Clocks *)

(** A clock reading whose year has four digits. *)
Definition valid_clock (d : datetime) : Prop :=
  1000 <= year d <= 9999 /\ 1 <= month d <= 12.

(** A store filled in July and in August: one high-severity event in the
    partition of each month. *)
Definition two_month_world : World :=
  {| indices :=
       {[ "2024_07_agents_data" :=
            {| idx_mapping := mapping;
               idx_docs := [ stored_event (mk_datetime 2024 7 30 1 0 0 0) 12 "group1" ] |};
          "2024_08_agents_data" :=
            {| idx_mapping := mapping;
               idx_docs := [ stored_event (at_day 2 1) 12 "group1" ] |} ]};
     schedule := [];
     calls := [] |}.

(** ** The values of the reads *)

Inductive ReadValue :=
  | Docs (documents : list Document)
  | Hits (hits : list Entry)
  | Count (n : Z)
  | Page (messages : list Document) (total_count : Z).

Definition tag {A} (f : A -> ReadValue) (r : outcome A * World) : outcome ReadValue * World :=
  match r with
  | (Ret a, w') => (Ret (f a), w')
  | (Raise e, w') => (Raise e, w')
  end.

(** A read, with its value under one type. *)
Definition read_result (exn_str : exn -> string) (now start_time end_time : datetime)
    (op : ReadOp) (w : World) : outcome ReadValue * World :=
  match op with
  | LoadAgents g => tag Docs (load_agents exn_str now start_time end_time g w)
  | LoadGroupEvents g =>
      tag Docs (load_group_events_from_elasticsearch exn_str now g start_time end_time w)
  | LoadAgentEvents id =>
      tag Docs (load_from_elasticsearch_with_time_range exn_str now id start_time end_time w)
  | LoadAllEvents =>
      tag Docs (load_all_events_from_elasticsearch exn_str now start_time end_time w)
  | EventsInTimerange size =>
      tag Hits (get_events_in_timerange exn_str now start_time end_time size w)
  | HighLevelEventCount =>
      tag Count (get_high_level_event_count exn_str now start_time end_time w)
  | EventsForPieChart size =>
      tag Hits (get_events_for_pie_chart exn_str now start_time end_time size w)
  | LoadMessages g limit =>
      tag (fun r => Page r.1 r.2) (load_messages exn_str now start_time end_time g limit w)
  end.

(** The value a read computes from the hits of the active partition when
    the store serves its calls. *)
Definition read_answer (start_time end_time : datetime) (op : ReadOp) (docs : list Entry)
    : ReadValue :=
  match op with
  | LoadAgents g => Docs (sources (run_search (load_agents_query start_time end_time g) docs))
  | LoadGroupEvents g =>
      Docs (sources (run_search (load_group_events_query g start_time end_time) docs))
  | LoadAgentEvents id =>
      Docs (sources (run_search (load_agent_events_query id start_time end_time) docs))
  | LoadAllEvents =>
      Docs (sources (run_search (load_all_events_query start_time end_time) docs))
  | EventsInTimerange size | EventsForPieChart size =>
      Hits (hits_hits (run_search (timerange_query start_time end_time size) docs))
  | HighLevelEventCount => Count (run_count (high_level_count_query start_time end_time) docs)
  | LoadMessages g limit =>
      Page (sources (run_search (load_messages_body start_time end_time g limit) docs))
           (hits_total_value (run_search (load_messages_body start_time end_time g limit) docs))
  end.

(** The value of a read that found nothing. *)
Definition nothing (op : ReadOp) : ReadValue :=
  match op with
  | LoadAgents _ | LoadGroupEvents _ | LoadAgentEvents _ | LoadAllEvents => Docs []
  | EventsInTimerange _ | EventsForPieChart _ => Hits []
  | HighLevelEventCount => Count 0
  | LoadMessages _ _ => Page [] 0
  end.


(** The query a read sends. *)
Definition read_query (start_time end_time : datetime) (op : ReadOp) : Query :=
  match op with
  | LoadAgents g => query (load_agents_query start_time end_time g)
  | LoadGroupEvents g => query (load_group_events_query g start_time end_time)
  | LoadAgentEvents id => query (load_agent_events_query id start_time end_time)
  | LoadAllEvents => query (load_all_events_query start_time end_time)
  | EventsInTimerange size | EventsForPieChart size =>
      query (timerange_query start_time end_time size)
  | HighLevelEventCount => high_level_count_query start_time end_time
  | LoadMessages g _ => load_messages_query start_time end_time g
  end.

(** Every hit carries a timestamp and no later position is older. *)
Definition oldest_first (l : list Entry) : Prop :=
  forall (i j : nat) (hi hj : Entry),
    (i < j)%nat -> l !! i = Some hi -> l !! j = Some hj ->
    exists ti tj, timestamp_of (_source hi) = Some ti /\ timestamp_of (_source hj) = Some tj
                  /\ instant ti <= instant tj.






(** ** Documents against the schema of the partition *)

(** The type the schema of [create_index_with_mapping] declares for a field. *)
Definition field_type (f : string) : option string :=
  (list_to_map mapping : gmap string string) !! f.

(** A JSON value a field of the given type takes: [null] for any, a number
    for [integer], a date text for [date], a string for the others. *)
Definition conforms (ty : string) (v : JValue) : bool :=
  match v with
  | JNull => true
  | JInt _ => String.eqb ty "integer"
  | JDate _ => String.eqb ty "date"
  | JStr _ => String.eqb ty "keyword" || String.eqb ty "text" || String.eqb ty "ip"
  end.

Definition fits_schema (d : Document) : Prop :=
  map_Forall (fun k v => exists ty, field_type k = Some ty /\ conforms ty v = true) d.

(** ** Capital letters *)

(** The code points below 256 that [str.lower()] changes. *)
Definition is_capital (c : ascii) : bool :=
  let n := N_of_ascii c in
  ((65 <=? n) && (n <=? 90) || (192 <=? n) && (n <=? 222) && negb (n =? 215))%N.

Fixpoint has_capital (s : string) : bool :=
  match s with
  | EmptyString => false
  | String c rest => is_capital c || has_capital rest
  end.

(** ** The message schema ([app/schemas/wazuh.py]) *)

Module AgentMessage.

(** [rule_level: int = Field(..., ge=9, le=15)]. *)
Definition rule_level_ok (l : Z) : bool := (9 <=? l) && (l <=? 15).

End AgentMessage.

(** The hits of a window by rule level. *)
Definition level_is (p : Z -> bool) (s e : datetime) (d : Document) : bool :=
  in_window_excl s e d && match level_of d with Some l => p l | None => false end.

(** High-severity events of levels 9, 16 and 8 on the second of August. *)
Definition level_world : World :=
  world_of [ stored_event (at_day 2 1) 9 "group1"; stored_event (at_day 2 2) 16 "group1";
             stored_event (at_day 2 3) 8 "group1" ].


(** * Properties *)


(** ** The stable sort *)

Section Sorting.

Context {A : Type} (leb : A -> A -> bool).

Local Abbreviation sorted := (StronglySorted (leb_rel leb)).

Lemma insert_by_perm (x : A) (l : list A) : insert_by leb x l ≡ₚ x :: l.
Proof.
  induction l as [|y l IH]; simpl; [done|].
  destruct (leb x y); [done|].
  rewrite IH. apply Permutation_swap.
Qed.

Lemma sort_by_perm (l : list A) : sort_by leb l ≡ₚ l.
Proof.
  induction l as [|x l IH]; simpl; [done|].
  unfold sort_by in *. simpl. rewrite insert_by_perm. by rewrite IH.
Qed.

Lemma sort_by_length (l : list A) : length (sort_by leb l) = length l.
Proof. by rewrite sort_by_perm. Qed.

Hypothesis leb_total : forall a b, leb a b = true \/ leb b a = true.
Hypothesis leb_trans : forall a b c, leb a b = true -> leb b c = true -> leb a c = true.

Lemma insert_by_sorted (x : A) (l : list A) :
  sorted l -> sorted (insert_by leb x l).
Proof.
  induction l as [|y l IH]; simpl; intros Hs.
  - repeat constructor.
  - apply StronglySorted_cons in Hs as [Hy Hl].
    destruct (leb x y) eqn:Hxy.
    + constructor; [by constructor|].
      constructor; [done|].
      eapply Forall_impl; [exact Hy|]. intros z Hz. by eapply leb_trans.
    + constructor; [by apply IH|].
      rewrite insert_by_perm. constructor; [|done].
      destruct (leb_total x y) as [H|H]; [congruence|done].
Qed.

Lemma sort_by_sorted (l : list A) : sorted (sort_by leb l).
Proof.
  induction l as [|x l IH]; [constructor|].
  unfold sort_by in *. simpl. by apply insert_by_sorted.
Qed.

Lemma take_sorted (n : nat) (l : list A) :
  sorted l -> sorted (take n l).
Proof.
  intros Hs. rewrite <- (take_drop n l) in Hs.
  by apply StronglySorted_app_1_l in Hs.
Qed.

(** In a sorted list an earlier position never ranks after a later one. *)
Lemma sorted_lookup (l : list A) (i j : nat) (a b : A) :
  sorted l -> (i < j)%nat ->
  l !! i = Some a -> l !! j = Some b -> leb a b = true.
Proof.
  revert i j. induction l as [|x l IH]; intros i j Hs Hij Hi Hj; [done|].
  apply StronglySorted_cons in Hs as [Hx Hl].
  destruct j as [|j]; [lia|]. simpl in Hj.
  destruct i as [|i]; simpl in Hi.
  - injection Hi as ->. rewrite Forall_forall in Hx.
    apply Hx. by eapply list_elem_of_lookup_2.
  - eapply (IH i j); eauto. lia.
Qed.

End Sorting.

Lemma before_total (f : string) (o : Order) (a b : Entry) :
  before f o a b = true \/ before f o b a = true.
Proof.
  unfold before. destruct (sort_key f a), (sort_key f b), o; auto; lia.
Qed.

Lemma before_trans (f : string) (o : Order) (a b c : Entry) :
  before f o a b = true -> before f o b c = true -> before f o a c = true.
Proof.
  unfold before.
  destruct (sort_key f a), (sort_key f b), (sort_key f c), o; auto; try discriminate; lia.
Qed.

(** ** What a search returns *)

Lemma matching_elem (q : Query) (docs : list Entry) (e : Entry) :
  e ∈ matching q docs <-> e ∈ docs /\ matches q (_source e) = true.
Proof.
  unfold matching. rewrite !list_elem_of_In, filter_In. tauto.
Qed.

Lemma sort_hits_perm (s : option (string * Order)) (l : list Entry) :
  sort_hits s l ≡ₚ l.
Proof. destruct s as [[f o]|]; simpl; [apply sort_by_perm|done]. Qed.

Lemma run_search_hit (body : SearchBody) (docs : list Entry) (e : Entry) :
  e ∈ hits_hits (run_search body docs) ->
  e ∈ docs /\ matches (query body) (_source e) = true.
Proof.
  simpl. intros H. apply elem_of_take in H as (i & H & _).
  apply list_elem_of_lookup_2 in H. rewrite sort_hits_perm in H.
  by apply matching_elem.
Qed.

Lemma run_search_length (body : SearchBody) (docs : list Entry) :
  length (hits_hits (run_search body docs))
  = Nat.min (Z.to_nat (size body)) (length (matching (query body) docs)).
Proof. simpl. by rewrite length_take, sort_hits_perm. Qed.

(** When the page is large enough nothing that matches is left out. *)
Lemma run_search_complete (body : SearchBody) (docs : list Entry) (e : Entry) :
  e ∈ docs -> matches (query body) (_source e) = true ->
  Z.of_nat (length (matching (query body) docs)) <= size body ->
  e ∈ hits_hits (run_search body docs).
Proof.
  intros He Hm Hsz. simpl. rewrite take_ge.
  - rewrite sort_hits_perm. by apply matching_elem.
  - rewrite sort_hits_perm. lia.
Qed.

Lemma run_search_sorted (body : SearchBody) (docs : list Entry) (f : string) (o : Order) :
  sort body = Some (f, o) ->
  StronglySorted (leb_rel (before f o)) (hits_hits (run_search body docs)).
Proof.
  intros Hs. simpl. rewrite Hs. simpl. apply take_sorted.
  apply sort_by_sorted; [apply before_total|apply before_trans].
Qed.

(** ** Worlds in which the store serves every call *)

Lemma quiet_next_fault (w : World) : quiet w -> next_fault w = None.
Proof.
  unfold quiet, next_fault. destruct (schedule w) as [|[e|] l]; try done.
  intros H. by apply Forall_cons in H as [? _].
Qed.

Lemma quiet_advance (c : ApiCall) (w : World) : quiet w -> quiet (advance c w).
Proof.
  unfold quiet. simpl. destruct (schedule w) as [|o l]; simpl; [done|].
  intros H. by apply Forall_cons in H as [_ ?].
Qed.

Lemma quiet_with_indices (m : gmap string Index) (w : World) :
  quiet w -> quiet (with_indices m w).
Proof. done. Qed.

(** Whenever [get_index_name] returns, it returns the key of the month, the
    partition exists, its hits are those it had (none if it was just
    made), and only existence and creation calls were made. *)
Lemma get_index_name_ret (now : datetime) (w w' : World) (k : string) :
  get_index_name now w = (Ret k, w') ->
  k = index_name_at now
  /\ is_Some (indices w' !! k)
  /\ active_docs now w' = active_docs now w
  /\ exists cs, added w w' cs /\ partition_calls k cs.
Proof.
  unfold get_index_name, create_index_with_mapping, bind, es_indices_exists.
  destruct (next_fault w) as [e|] eqn:Hf; [done|].
  destruct (indices w !! index_name_at now) as [ix|] eqn:Hix.
  - rewrite bool_decide_eq_true_2 by eauto. simpl. intros [= <- <-].
    unfold active_docs. simpl. rewrite Hix.
    repeat split; eauto. exists [CallExists (index_name_at now)].
    split; [done|by left].
  - rewrite bool_decide_eq_false_2 by (intros [? ?]; done). simpl.
    unfold try_except, es_indices_create. simpl. rewrite Hix.
    set (w1 := advance (CallExists (index_name_at now)) w).
    assert (Hcalls : forall m,
      added w (with_indices m (advance (CallCreate (index_name_at now)) w1))
        [CallExists (index_name_at now); CallCreate (index_name_at now)]).
    { intros m. unfold added. simpl. by rewrite <- app_assoc. }
    destruct (next_fault w1) as [e|] eqn:Hf1.
    + destruct e as [i|err|i|m c|m c]; simpl; try done.
      destruct (String.eqb err already_exists) eqn:Herr; simpl; [|done].
      unfold ret. intros [= <- <-]. unfold active_docs, ensure_index. simpl.
      rewrite Hix. simpl. rewrite lookup_insert_eq. simpl.
      repeat split; eauto. eexists. split; [apply Hcalls|by right].
    + unfold ret. simpl. intros [= <- <-]. unfold active_docs. simpl.
      rewrite Hix, lookup_insert_eq. simpl.
      repeat split; eauto. eexists. split; [apply Hcalls|by right].
Qed.

(** In a quiet world [get_index_name] returns. *)
Lemma get_index_name_quiet (now : datetime) (w : World) :
  quiet w ->
  exists w', get_index_name now w = (Ret (index_name_at now), w') /\ quiet w'.
Proof.
  intros Hq.
  unfold get_index_name, create_index_with_mapping, bind, es_indices_exists.
  rewrite (quiet_next_fault w Hq).
  destruct (indices w !! index_name_at now) as [ix|] eqn:Hix.
  - rewrite bool_decide_eq_true_2 by eauto. simpl.
    eexists. split; [done|]. by apply quiet_advance.
  - rewrite bool_decide_eq_false_2 by (intros [? ?]; done). simpl.
    unfold try_except, es_indices_create. simpl.
    set (w1 := advance (CallExists (index_name_at now)) w).
    assert (Hq1 : quiet w1) by by apply quiet_advance.
    rewrite (quiet_next_fault w1 Hq1), Hix. simpl.
    eexists. split; [done|].
    apply quiet_with_indices. by apply quiet_advance.
Qed.

Lemma search_active_ret {B} (now : datetime) (body : SearchBody)
    (f : SearchResponse -> B) (w w' : World) (b : B) :
  search_active now body f w = (Ret b, w') ->
  b = f (run_search body (active_docs now w)).
Proof.
  unfold search_active, bind.
  destruct (get_index_name now w) as [[k|e] w1] eqn:Hk; [|done].
  apply get_index_name_ret in Hk as (-> & [ix Hix] & Hdocs & _).
  unfold es_search. destruct (next_fault w1); [done|].
  rewrite Hix. unfold ret. intros [= <- <-].
  rewrite <- Hdocs. unfold active_docs. by rewrite Hix.
Qed.

Lemma search_active_quiet {B} (now : datetime) (body : SearchBody)
    (f : SearchResponse -> B) (w : World) :
  quiet w ->
  exists w', search_active now body f w
             = (Ret (f (run_search body (active_docs now w))), w').
Proof.
  intros Hq. unfold search_active, bind.
  destruct (get_index_name_quiet now w Hq) as (w1 & Hk & Hq1). rewrite Hk.
  apply get_index_name_ret in Hk as (_ & [ix Hix] & Hdocs & _).
  unfold es_search. rewrite (quiet_next_fault w1 Hq1), Hix. unfold ret.
  eexists. rewrite <- Hdocs. unfold active_docs. by rewrite Hix.
Qed.

Lemma try_except_ret {A} (m : M A) (h : exn -> M A) (w w' : World) (a : A) :
  m w = (Ret a, w') -> try_except m h w = (Ret a, w').
Proof. unfold try_except. by intros ->. Qed.

(** A handler that only raises lets no result through that the body did
    not produce. *)
Lemma try_except_ret_inv {A} (m : M A) (h : exn -> exn) (w w' : World) (a : A) :
  try_except m (fun e => raise (h e)) w = (Ret a, w') -> m w = (Ret a, w').
Proof. unfold try_except, raise. destruct (m w) as [[a'|e] w1]; by intros [= <- <-]. Qed.

(** ** Reading documents *)

Lemma is_ge_compare (x y : Z) : is_ge (x ?= y) = (y <=? x).
Proof. unfold Z.leb. rewrite (Z.compare_antisym x y). by destruct (x ?= y). Qed.

Lemma is_gt_compare (x y : Z) : is_gt (x ?= y) = (y <? x).
Proof. unfold Z.ltb. rewrite (Z.compare_antisym x y). by destruct (x ?= y). Qed.

Lemma is_le_compare (x y : Z) : is_le (x ?= y) = (x <=? y).
Proof. done. Qed.

Lemma is_lt_compare (x y : Z) : is_lt (x ?= y) = (x <? y).
Proof. done. Qed.

Lemma matches_range_gte_lt (s e : datetime) (d : Document) :
  matches (range_gte_lt s e) d = in_window_excl s e d.
Proof.
  unfold in_window_excl, timestamp_of. simpl.
  destruct (d !! "timestamp") as [[| | |t]|]; try done.
  unfold range_matches. simpl.
  by rewrite is_ge_compare, is_lt_compare, !andb_true_r.
Qed.

Lemma matches_range_gte_lte (s e : datetime) (fmt : option string) (d : Document) :
  matches (range_gte_lte s e fmt) d = in_window_incl s e d.
Proof.
  unfold in_window_incl, timestamp_of. simpl.
  destruct (d !! "timestamp") as [[| | |t]|]; try done.
  unfold range_matches. simpl.
  by rewrite is_ge_compare, is_le_compare, !andb_true_r.
Qed.

Lemma matches_group_clause (group_names : option (list string)) (d : Document) :
  forallb (fun q => matches q d) (group_clause group_names) = in_groups group_names d.
Proof.
  unfold group_clause, in_groups. destruct (truthy group_names); [|done].
  simpl. by rewrite andb_true_r.
Qed.

Lemma matches_high_level_count_query (s e : datetime) (d : Document) :
  matches (high_level_count_query s e) d = in_window_excl s e d && high_severity d.
Proof.
  unfold high_level_count_query.
  change (matches (QBoolMust ?l) d) with (forallb (fun q => matches q d) l).
  cbn [forallb]. rewrite matches_range_gte_lt, andb_true_r. f_equal.
  unfold high_severity, level_of. simpl.
  destruct (d !! "rule_level") as [[| |l|]|]; try done.
  unfold range_matches. simpl.
  by rewrite is_ge_compare, is_le_compare, !andb_true_r.
Qed.

Lemma matches_load_messages_query (s e : datetime) (g : option (list string)) (d : Document) :
  matches (load_messages_query s e g) d
  = in_window_excl s e d && above_8 d && in_groups g d.
Proof.
  unfold load_messages_query.
  change (matches (QBoolMust ?l) d) with (forallb (fun q => matches q d) l).
  cbn [forallb app]. rewrite matches_range_gte_lt, matches_group_clause.
  rewrite andb_assoc. f_equal. f_equal.
  unfold above_8, level_of. simpl.
  destruct (d !! "rule_level") as [[| |l|]|]; try done.
  unfold range_matches. simpl.
  by rewrite is_gt_compare, !andb_true_r.
Qed.

(** The fields the queries read, on the two kinds of normalized document. *)
Lemma event_timestamp (ev : EventModel.t) :
  timestamp_of (EventModel.to_dict ev) = Some (EventModel.timestamp ev).
Proof. done. Qed.

Lemma event_level (ev : EventModel.t) :
  level_of (EventModel.to_dict ev) = Some (EventModel.rule_level ev).
Proof. done. Qed.

Lemma agent_timestamp (a : AgentModel.t) :
  timestamp_of (AgentModel.to_dict a) = Some (AgentModel.timestamp a).
Proof. done. Qed.

Lemma agent_level (a : AgentModel.t) : level_of (AgentModel.to_dict a) = None.
Proof. done. Qed.

(** ** The high-severity count *)

Lemma count_active_ret (now : datetime) (q : Query) (w w' : World) (n : Z) :
  (index_name <- get_index_name now ;; es_count index_name q) w = (Ret n, w') ->
  n = run_count q (active_docs now w)
  /\ exists cs, added w w' cs /\ count_calls (index_name_at now) cs.
Proof.
  unfold bind.
  destruct (get_index_name now w) as [[k|e] w1] eqn:Hk; [|done].
  apply get_index_name_ret in Hk as (-> & [ix Hix] & Hdocs & cs & Hcs & Hshape).
  unfold es_count. destruct (next_fault w1); [done|].
  rewrite Hix. intros [= <- <-]. split.
  - rewrite <- Hdocs. unfold active_docs. by rewrite Hix.
  - exists (cs ++ [CallCount (index_name_at now)]). split.
    + unfold added in *. simpl. by rewrite Hcs, <- app_assoc.
    + destruct Hshape as [-> | ->]; [by left|by right].
Qed.

Lemma count_active_quiet (now : datetime) (q : Query) (w : World) :
  quiet w ->
  exists n w', (index_name <- get_index_name now ;; es_count index_name q) w = (Ret n, w').
Proof.
  intros Hq. unfold bind.
  destruct (get_index_name_quiet now w Hq) as (w1 & Hk & Hq1). rewrite Hk.
  apply get_index_name_ret in Hk as (_ & [ix Hix] & _).
  unfold es_count. rewrite (quiet_next_fault w1 Hq1), Hix. eauto.
Qed.

Lemma run_count_high_level (s e : datetime) (docs : list Entry) :
  run_count (high_level_count_query s e) docs
  = Z.of_nat (length (List.filter (fun h => counted s e (_source h)) docs)).
Proof.
  unfold run_count, matching. f_equal. f_equal.
  apply filter_ext. intros h. apply matches_high_level_count_query.
Qed.

(** C1. In a world whose store serves the calls, [get_high_level_event_count]
    returns the number of hits of the active partition whose [rule_level]
    lies in 8..14 and whose [timestamp] lies in [start, end); it does so by
    one count call, after the partition calls, and issues no search. A
    normalized event is counted exactly when [8 <= rule_level <= 14] and
    [start <= timestamp < end] (so levels 7 and 15 are left out, 8 and 14
    are in), and a normalized agent record is never counted. *)
Theorem get_high_level_event_count_spec
    (exn_str : exn -> string) (now start_time end_time : datetime) (w : World) :
  quiet w ->
  (exists w' cs,
     get_high_level_event_count exn_str now start_time end_time w
     = (Ret (Z.of_nat (length (List.filter
                (fun h => counted start_time end_time (_source h))
                (active_docs now w)))), w')
     /\ added w w' cs
     /\ count_calls (index_name_at now) cs
     /\ forall i, CallSearch i ∉ cs)
  /\ (forall ev : EventModel.t,
        counted start_time end_time (EventModel.to_dict ev) = true
        <-> (8 <= EventModel.rule_level ev <= 14
             /\ instant start_time <= instant (EventModel.timestamp ev) < instant end_time))
  /\ (forall a : AgentModel.t, counted start_time end_time (AgentModel.to_dict a) = false).
Proof.
  intros Hq. split; [|split].
  - destruct (count_active_quiet now (high_level_count_query start_time end_time) w Hq)
      as (n & w' & Hrun).
    pose proof Hrun as Hret.
    apply count_active_ret in Hret as (-> & cs & Hcs & Hshape).
    exists w', cs. repeat split; try done.
    + unfold get_high_level_event_count.
      erewrite try_except_ret; [|exact Hrun]. by rewrite run_count_high_level.
    + intros i Hi.
      destruct Hshape as [-> | ->];
        repeat (apply elem_of_cons in Hi as [Hi|Hi]; [discriminate Hi|]);
        by apply elem_of_nil in Hi.
  - intros ev. unfold counted, in_window_excl, high_severity.
    rewrite event_timestamp, event_level. rewrite !andb_true_iff.
    rewrite !Z.leb_le, Z.ltb_lt. lia.
  - intros a. unfold counted, high_severity. rewrite agent_level. apply andb_false_r.
Qed.

Lemma get_high_level_event_count_witness :
  quiet severity_world
  /\ exists w', get_high_level_event_count plain_str (at_day 5 0) (at_day 2 0) (at_day 3 0)
                  severity_world = (Ret 2, w').
Proof.
  assert (Hq : quiet severity_world) by constructor.
  split; [exact Hq|].
  destruct (get_high_level_event_count_spec plain_str (at_day 5 0) (at_day 2 0) (at_day 3 0)
              severity_world Hq) as [(w' & cs & Hrun & _) _].
  exists w'. rewrite Hrun. reflexivity.
Defined.

(** ** The paginated high-severity feed *)

Lemma sort_key_timestamp (h : Entry) (t : datetime) :
  timestamp_of (_source h) = Some t -> sort_key "timestamp" h = Some (instant t).
Proof.
  unfold timestamp_of, sort_key.
  destruct (_source h !! "timestamp") as [[| | |t']|]; try done. by intros [= ->].
Qed.

Lemma hits_newest_first (hits : list Entry) :
  StronglySorted (leb_rel (before "timestamp" Desc)) hits ->
  (forall h, h ∈ hits -> is_Some (timestamp_of (_source h))) ->
  newest_first (_source <$> hits).
Proof.
  intros Hs Hts i j di dj Hij Hi Hj.
  apply list_lookup_fmap_Some_1 in Hi as (hi & -> & Hi).
  apply list_lookup_fmap_Some_1 in Hj as (hj & -> & Hj).
  destruct (Hts hi) as [ti Hti]; [by eapply list_elem_of_lookup_2|].
  destruct (Hts hj) as [tj Htj]; [by eapply list_elem_of_lookup_2|].
  exists ti, tj. repeat split; try done.
  pose proof (sorted_lookup _ hits i j hi hj Hs Hij Hi Hj) as Hb.
  unfold before in Hb.
  rewrite (sort_key_timestamp hi ti Hti), (sort_key_timestamp hj tj Htj) in Hb. lia.
Qed.

Lemma in_window_excl_timestamp (s e : datetime) (d : Document) :
  in_window_excl s e d = true -> is_Some (timestamp_of d).
Proof. unfold in_window_excl. destruct (timestamp_of d); [eauto|done]. Qed.

Lemma load_messages_unfold (exn_str : exn -> string) (now s e : datetime)
    (g : option (list string)) (limit : Z) :
  load_messages exn_str now s e g limit
  = try_except
      (search_active now (load_messages_body s e g limit)
         (fun r => (sources r, hits_total_value r)))
      (fun e' => raise (ElasticsearchError
                          ("Error loading high-level messages: " +:+ exn_str e') None)).
Proof. done. Qed.

Lemma feed_matching (s e : datetime) (g : option (list string)) (docs : list Entry) :
  matching (load_messages_query s e g) docs
  = List.filter (fun h => feed_match s e g (_source h)) docs.
Proof. unfold matching. apply filter_ext. intros h. apply matches_load_messages_query. Qed.

(** The total the store reports for the feed: the matches, counted up to
    [TRACK_TOTAL_HITS]. *)
Lemma feed_total (s e : datetime) (g : option (list string)) (limit : Z) (docs : list Entry) :
  hits_total_value (run_search (load_messages_body s e g limit) docs)
  = Z.min (Z.of_nat (length (List.filter (fun h => feed_match s e g (_source h)) docs)))
      TRACK_TOTAL_HITS.
Proof. rewrite <- feed_matching. reflexivity. Qed.

Lemma active_docs_world_of (now : datetime) (docs : list Entry) :
  index_name_at now = "2024_08_agents_data" -> active_docs now (world_of docs) = docs.
Proof.
  intros Hk. unfold active_docs, world_of. cbn [indices]. rewrite Hk.
  by rewrite lookup_singleton_eq.
Qed.

Lemma filter_all {A} (p : A -> bool) (l : list A) :
  (forall x, x ∈ l -> p x = true) -> List.filter p l = l.
Proof.
  induction l as [|x l IH]; intros Hall; [done|]. simpl.
  rewrite (Hall x) by apply list_elem_of_here.
  f_equal. apply IH. intros y Hy. apply Hall. by apply list_elem_of_further.
Qed.

Lemma burst_event_matches (i : Z) :
  0 <= i < 10001 ->
  feed_match (at_day 2 0) (at_day 3 0) None (_source (burst_event i)) = true.
Proof.
  intros Hi. unfold feed_match, in_window_excl, above_8, in_groups, burst_event, stored_event.
  cbn [_source truthy]. rewrite event_timestamp, event_level.
  rewrite !andb_true_iff, Z.leb_le, !Z.ltb_lt.
  unfold sample_event, EventModel.init. cbn [EventModel.timestamp EventModel.rule_level
    Schema.timestamp Schema.rule_level].
  unfold instant, at_day. cbn [year month day hour minute second microsecond].
  pose proof (Z.div_pos i 3600). pose proof (Z.div_lt_upper_bound i 3600 3).
  pose proof (Z.mod_pos_bound (i / 60) 60). pose proof (Z.mod_pos_bound i 60).
  repeat split; lia.
Qed.

Lemma burst_world_matches :
  List.filter (fun h => feed_match (at_day 2 0) (at_day 3 0) None (_source h))
    (active_docs (at_day 5 0) burst_world)
  = burst_event <$> seqZ 0 10001.
Proof.
  unfold burst_world. rewrite active_docs_world_of by reflexivity.
  apply filter_all. intros h Hh.
  apply list_elem_of_fmap in Hh as (i & -> & Hi).
  apply elem_of_seqZ in Hi. apply burst_event_matches. lia.
Qed.

(** C3. Beyond 10000 matching events the total of the feed is not the full
    matching count: against a partition that holds 10001 events of level 12
    of the window, one a second, [load_messages] with limit 2 returns a page
    of 2 documents and the total 10000, where 10001 events match. The search
    body carries no [track_total_hits], so the store stops counting at
    10000. *)
Theorem load_messages_total_is_capped :
  Z.of_nat (length (List.filter
              (fun h => feed_match (at_day 2 0) (at_day 3 0) None (_source h))
              (active_docs (at_day 5 0) burst_world))) = 10001
  /\ exists messages w',
       load_messages plain_str (at_day 5 0) (at_day 2 0) (at_day 3 0) None 2 burst_world
       = (Ret (messages, 10000), w')
       /\ length messages = 2%nat.
Proof.
  assert (Hn : length (List.filter
                 (fun h => feed_match (at_day 2 0) (at_day 3 0) None (_source h))
                 (active_docs (at_day 5 0) burst_world)) = Z.to_nat 10001).
  { rewrite burst_world_matches, length_fmap. apply length_seqZ. }
  split; [rewrite Hn; lia|].
  assert (Hq : quiet burst_world) by constructor.
  set (body := load_messages_body (at_day 2 0) (at_day 3 0) None 2).
  set (docs := active_docs (at_day 5 0) burst_world) in *.
  destruct (search_active_quiet (at_day 5 0) body
              (fun r => (sources r, hits_total_value r)) burst_world Hq) as (w' & Hrun).
  exists (sources (run_search body docs)), w'. split.
  - assert (Ht : hits_total_value (run_search body docs) = 10000).
    { unfold body. rewrite feed_total. fold docs. rewrite Hn. reflexivity. }
    rewrite load_messages_unfold. erewrite try_except_ret; [|exact Hrun].
    fold docs. rewrite Ht. reflexivity.
  - unfold sources. rewrite length_fmap, run_search_length.
    unfold body at 2. cbn [query load_messages_body]. rewrite feed_matching.
    fold docs. rewrite Hn. unfold body. cbn [size load_messages_body]. lia.
Qed.

(** ** The read operations as searches of the active partition *)

Lemma try_except_raises_only_inv {A} (m : M A) (h : exn -> M A) (w w' : World) (a : A) :
  raises_only h -> try_except m h w = (Ret a, w') -> m w = (Ret a, w').
Proof.
  intros Hh. unfold try_except. destruct (m w) as [[a'|e] w1]; [done|].
  destruct (Hh e w1) as [e' ->]. done.
Qed.

Lemma raises_only_raise {A} (f : exn -> exn) : raises_only (A := A) (fun e => raise (f e)).
Proof. intros e w. by exists (f e). Qed.

Lemma raises_only_decorator {A} (exn_str : exn -> string) :
  raises_only (A := A)
    (fun e =>
       match e with
       | NotFoundError _ => raise (UserNotFoundError (exn_str e) 404)
       | _ => raise (ElasticsearchError ("Elasticsearch error: " +:+ exn_str e) (Some 500))
       end).
Proof. intros e w. destruct e; eexists; reflexivity. Qed.

Lemma handle_es_exceptions_ret {A} (exn_str : exn -> string) (m : M A) (w w' : World) (a : A) :
  m w = (Ret a, w') -> handle_es_exceptions exn_str m w = (Ret a, w').
Proof. apply try_except_ret. Qed.

Lemma handle_es_exceptions_ret_inv {A} (exn_str : exn -> string) (m : M A)
    (w w' : World) (a : A) :
  handle_es_exceptions exn_str m w = (Ret a, w') -> m w = (Ret a, w').
Proof. apply try_except_raises_only_inv, raises_only_decorator. Qed.

Section ReadAnswers.

Variable exn_str : exn -> string.
Variables now start_time end_time : datetime.
Variable w : World.

Let docs := active_docs now w.

Ltac answer_ret :=
  let Hrun := fresh "Hrun" in
  intros Hrun;
  repeat first
    [ apply handle_es_exceptions_ret_inv in Hrun
    | apply try_except_raises_only_inv in Hrun; [|by apply raises_only_raise] ];
  by apply search_active_ret in Hrun.

Ltac answer_quiet f :=
  let Hq := fresh "Hq" in
  let w1 := fresh "w1" in
  let Hrun := fresh "Hrun" in
  intros Hq;
  match goal with
  | |- context [run_search ?body _] =>
      destruct (search_active_quiet now body f w Hq) as (w1 & Hrun)
  end;
  eexists;
  repeat first [ apply handle_es_exceptions_ret | apply try_except_ret ];
  exact Hrun.

Lemma load_agents_ret (g : option (list string)) (w' : World) (r : list Document) :
  load_agents exn_str now start_time end_time g w = (Ret r, w') ->
  r = sources (run_search (load_agents_query start_time end_time g) docs).
Proof. answer_ret. Qed.

Lemma load_agents_quiet (g : option (list string)) :
  quiet w ->
  exists w', load_agents exn_str now start_time end_time g w
             = (Ret (sources (run_search (load_agents_query start_time end_time g) docs)), w').
Proof. answer_quiet sources. Qed.

Lemma load_group_events_ret (g : list string) (w' : World) (r : list Document) :
  load_group_events_from_elasticsearch exn_str now g start_time end_time w = (Ret r, w') ->
  r = sources (run_search (load_group_events_query g start_time end_time) docs).
Proof. answer_ret. Qed.

Lemma load_group_events_quiet (g : list string) :
  quiet w ->
  exists w', load_group_events_from_elasticsearch exn_str now g start_time end_time w
             = (Ret (sources (run_search (load_group_events_query g start_time end_time) docs)), w').
Proof. answer_quiet sources. Qed.

Lemma load_agent_events_ret (id : string) (w' : World) (r : list Document) :
  load_from_elasticsearch_with_time_range exn_str now id start_time end_time w = (Ret r, w') ->
  r = sources (run_search (load_agent_events_query id start_time end_time) docs).
Proof. answer_ret. Qed.

Lemma load_agent_events_quiet (id : string) :
  quiet w ->
  exists w', load_from_elasticsearch_with_time_range exn_str now id start_time end_time w
             = (Ret (sources (run_search (load_agent_events_query id start_time end_time) docs)), w').
Proof. answer_quiet sources. Qed.


Lemma load_all_events_quiet :
  quiet w ->
  exists w', load_all_events_from_elasticsearch exn_str now start_time end_time w
             = (Ret (sources (run_search (load_all_events_query start_time end_time) docs)), w').
Proof. answer_quiet sources. Qed.

Lemma get_events_in_timerange_ret (size : Z) (w' : World) (r : list Entry) :
  get_events_in_timerange exn_str now start_time end_time size w = (Ret r, w') ->
  r = hits_hits (run_search (timerange_query start_time end_time size) docs).
Proof. answer_ret. Qed.

Lemma get_events_in_timerange_quiet (size : Z) :
  quiet w ->
  exists w', get_events_in_timerange exn_str now start_time end_time size w
             = (Ret (hits_hits (run_search (timerange_query start_time end_time size) docs)), w').
Proof. answer_quiet hits_hits. Qed.

Lemma get_events_for_pie_chart_ret (size : Z) (w' : World) (r : list Entry) :
  get_events_for_pie_chart exn_str now start_time end_time size w = (Ret r, w') ->
  r = hits_hits (run_search (timerange_query start_time end_time size) docs).
Proof. answer_ret. Qed.

Lemma get_events_for_pie_chart_quiet (size : Z) :
  quiet w ->
  exists w', get_events_for_pie_chart exn_str now start_time end_time size w
             = (Ret (hits_hits (run_search (timerange_query start_time end_time size) docs)), w').
Proof. answer_quiet hits_hits. Qed.


Lemma load_messages_quiet (g : option (list string)) (limit : Z) :
  quiet w ->
  exists w', load_messages exn_str now start_time end_time g limit w
    = (Ret (sources (run_search (load_messages_body start_time end_time g limit) docs),
            hits_total_value (run_search (load_messages_body start_time end_time g limit) docs)),
       w').
Proof.
  intros Hq.
  destruct (search_active_quiet now (load_messages_body start_time end_time g limit)
              (fun r => (sources r, hits_total_value r)) w Hq) as (w' & Hrun).
  exists w'. rewrite load_messages_unfold. by apply try_except_ret.
Qed.

End ReadAnswers.

(** ** What each query selects *)

Ltac open_must :=
  match goal with
  | |- context [matches (QBoolMust ?l) ?d] =>
      change (matches (QBoolMust l) d) with (forallb (fun q => matches q d) l);
      cbn [forallb app]
  end.

Lemma matches_load_agents_query (s e : datetime) (g : option (list string)) (d : Document) :
  matches (query (load_agents_query s e g)) d
  = has_type "agent_info" d && in_window_incl s e d && in_groups g d.
Proof.
  unfold load_agents_query. cbn [query]. open_must.
  rewrite matches_range_gte_lte, matches_group_clause. by rewrite andb_assoc.
Qed.

Lemma matches_load_group_events_query (g : list string) (s e : datetime) (d : Document) :
  matches (query (load_group_events_query g s e)) d
  = in_window_incl s e d && in_group_list g d && has_type "wazuh_events" d.
Proof.
  unfold load_group_events_query. cbn [query]. open_must.
  rewrite matches_range_gte_lte, andb_true_r. by rewrite andb_assoc.
Qed.

Lemma matches_load_agent_events_query (id : string) (s e : datetime) (d : Document) :
  matches (query (load_agent_events_query id s e)) d
  = in_window_incl s e d && of_agent id d && has_type "wazuh_events" d.
Proof.
  unfold load_agent_events_query. cbn [query]. open_must.
  rewrite matches_range_gte_lte, andb_true_r. by rewrite andb_assoc.
Qed.

Lemma matches_load_all_events_query (s e : datetime) (d : Document) :
  matches (query (load_all_events_query s e)) d
  = in_window_incl s e d && has_type "wazuh_events" d.
Proof.
  unfold load_all_events_query. cbn [query]. open_must.
  by rewrite matches_range_gte_lte, andb_true_r.
Qed.

Lemma matches_timerange_query (s e : datetime) (size : Z) (d : Document) :
  matches (query (timerange_query s e size)) d = in_window_excl s e d.
Proof. apply matches_range_gte_lt. Qed.


Lemma in_window_excl_iff (s e : datetime) (d : Document) :
  in_window_excl s e d = true <-> within_excl s e d.
Proof.
  unfold in_window_excl, within_excl. destruct (timestamp_of d) as [t|].
  - rewrite andb_true_iff, Z.leb_le, Z.ltb_lt. split; [eauto|]. by intros (t' & [= <-] & ?).
  - split; [done|]. by intros (t' & ? & _).
Qed.

Lemma sources_hit (body : SearchBody) (docs : list Entry) (d : Document) :
  d ∈ sources (run_search body docs) -> matches (query body) d = true.
Proof.
  unfold sources. intros Hd. apply list_elem_of_fmap in Hd as (h & -> & Hh).
  by apply run_search_hit in Hh as [_ ?].
Qed.

(** ** Time bounds of the reads *)





(** ** The partition manager *)

Lemma index_name_same_month (now1 now2 : datetime) :
  year now1 = year now2 -> month now1 = month now2 ->
  index_name_at now1 = index_name_at now2.
Proof.
  intros Hy Hm. unfold index_name_at, strftime_Y, strftime_m. by rewrite Hy, Hm.
Qed.

Lemma create_when_present (now : datetime) (w : World) :
  next_fault w = None -> is_Some (indices w !! index_name_at now) ->
  create_index_with_mapping now w
  = (Ret (index_name_at now), advance (CallExists (index_name_at now)) w).
Proof.
  intros Hf Hix. unfold create_index_with_mapping, bind, es_indices_exists.
  rewrite Hf. by rewrite bool_decide_eq_true_2.
Qed.

(** The run of [create_index_with_mapping] once the existence check has
    answered that there is no index: the outcome of the creation call
    decides. *)
Lemma create_when_absent (now : datetime) (w : World) :
  next_fault w = None -> indices w !! index_name_at now = None ->
  let k := index_name_at now in
  let w1 := advance (CallExists k) w in
  let w2 := advance (CallCreate k) w1 in
  create_index_with_mapping now w
  = match next_fault w1 with
    | Some e =>
        if is_already_exists e
        then (Ret k, with_indices (<[k := empty_index mapping]> (indices w)) w2)
        else (Raise e, w2)
    | None => (Ret k, with_indices (<[k := empty_index mapping]> (indices w)) w2)
    end.
Proof.
  intros Hf Hix. unfold create_index_with_mapping, bind, es_indices_exists.
  rewrite Hf, Hix. rewrite bool_decide_eq_false_2 by (intros [? ?]; done). simpl.
  unfold try_except, es_indices_create. simpl. rewrite Hix.
  destruct (next_fault (advance (CallExists (index_name_at now)) w)) as [e|]; [|done].
  destruct e as [i|err|i|m c|m c]; simpl; try done.
  unfold ensure_index. simpl. rewrite Hix.
  by destruct (String.eqb err already_exists).
Qed.

(** C4. The partition key is [{YYYY}_{MM}_agents_data] and depends on the
    year and month only. If a first call returns a key, a second call in the
    same month, whose existence check the store answers, returns the same
    key, does not raise and leaves the store's indices as they were. When
    the index is absent at the existence check: a served creation makes it
    with the fixed schema and returns the key; a creation refused with
    [resource_already_exists_exception] returns the key all the same; a
    creation failing with any other exception raises that exception to the
    caller. When the index is present the call returns the key after the
    existence check alone. *)
Theorem create_index_with_mapping_idempotent (now now' : datetime) :
  year now = year now' -> month now = month now' ->
  let k := index_name_at now in
  k = strftime_Y now +:+ "_" +:+ strftime_m now +:+ "_agents_data"
  /\ String.length k = 19%nat
  /\ index_name_at now' = k
  /\ (forall w w1 k1,
        create_index_with_mapping now w = (Ret k1, w1) ->
        next_fault w1 = None ->
        k1 = k
        /\ exists w2, get_index_name now' w1 = (Ret k, w2)
                      /\ indices w2 = indices w1
                      /\ added w1 w2 [CallExists k])
  /\ (forall w, quiet w -> exists w1,
        create_index_with_mapping now w = (Ret k, w1)
        /\ quiet w1
        /\ indices w1 !! k
           = Some (default (empty_index mapping) (indices w !! k)))
  /\ (forall w e,
        next_fault w = None -> indices w !! k = None ->
        next_fault (advance (CallExists k) w) = Some e ->
        if is_already_exists e
        then exists w1, create_index_with_mapping now w = (Ret k, w1)
                        /\ is_Some (indices w1 !! k)
        else exists w1, create_index_with_mapping now w = (Raise e, w1))
  /\ (forall w,
        next_fault w = None -> is_Some (indices w !! k) ->
        create_index_with_mapping now w = (Ret k, advance (CallExists k) w)).
Proof.
  intros Hy Hm k.
  assert (Hk : index_name_at now' = k) by (symmetry; by apply index_name_same_month).
  split; [done|]. split; [done|]. split; [done|]. split; [|split; [|split]].
  - intros w w1 k1 Hrun Hf.
    apply (get_index_name_ret now w w1 k1) in Hrun as (-> & Hix & _).
    split; [done|]. fold k in Hix.
    exists (advance (CallExists k) w1). unfold get_index_name.
    rewrite create_when_present; rewrite ?Hk; done.
  - intros w Hq.
    destruct (indices w !! k) as [ix|] eqn:Hix.
    + exists (advance (CallExists k) w).
      rewrite create_when_present by (rewrite ?quiet_next_fault; eauto).
      split; [done|]. split; [by apply quiet_advance|done].
    + pose proof (create_when_absent now w (quiet_next_fault w Hq) Hix) as Hrun.
      simpl in Hrun. fold k in Hrun.
      rewrite (quiet_next_fault (advance (CallExists k) w)) in Hrun
        by by apply quiet_advance.
      eexists. split; [exact Hrun|]. split.
      * apply quiet_with_indices. by do 2 apply quiet_advance.
      * simpl. by rewrite lookup_insert_eq.
  - intros w e Hf Hix He.
    pose proof (create_when_absent now w Hf Hix) as Hrun.
    simpl in Hrun. fold k in Hrun. rewrite He in Hrun.
    destruct (is_already_exists e); eexists; (split || idtac); try exact Hrun.
    simpl. rewrite lookup_insert_eq. eauto.
  - intros w Hf Hix. by apply create_when_present.
Qed.

Lemma create_index_with_mapping_witness :
  year (at_day 2 0) = year (at_day 30 23) /\ month (at_day 2 0) = month (at_day 30 23)
  /\ index_name_at (at_day 30 23) = "2024_08_agents_data"
  /\ (exists w1, create_index_with_mapping (at_day 2 0)
                   (refusing_world (RequestError already_exists))
                 = (Ret "2024_08_agents_data", w1))
  /\ (exists w1, create_index_with_mapping (at_day 2 0)
                   (refusing_world (RequestError "mapper_parsing_exception"))
                 = (Raise (RequestError "mapper_parsing_exception"), w1)).
Proof.
  assert (Hy : year (at_day 2 0) = year (at_day 30 23)) by reflexivity.
  assert (Hm : month (at_day 2 0) = month (at_day 30 23)) by reflexivity.
  split; [exact Hy|]. split; [exact Hm|].
  destruct (create_index_with_mapping_idempotent (at_day 2 0) (at_day 30 23) Hy Hm)
    as (_ & _ & Hname & _ & _ & Hcreate & _).
  split; [exact Hname|]. split.
  - destruct (Hcreate (refusing_world (RequestError already_exists))
                (RequestError already_exists) eq_refl eq_refl eq_refl) as (w1 & Hrun & _).
    by exists w1.
  - exact (Hcreate (refusing_world (RequestError "mapper_parsing_exception"))
             (RequestError "mapper_parsing_exception") eq_refl eq_refl eq_refl).
Defined.

(** ** The fault translator *)

Lemma try_except_raise {A} (m : M A) (h : exn -> M A) (w w1 : World) (e : exn) :
  m w = (Raise e, w1) -> try_except m h w = h e w1.
Proof. unfold try_except. by intros ->. Qed.

Lemma try_except_raise_inv {A} (m : M A) (h : exn -> M A) (w w' : World) (x : exn) :
  try_except m h w = (Raise x, w') ->
  exists e w1, m w = (Raise e, w1) /\ h e w1 = (Raise x, w').
Proof. unfold try_except. destruct (m w) as [[a|e] w1]; [done|eauto]. Qed.

Lemma handle_es_exceptions_raise {A} (exn_str : exn -> string) (m : M A)
    (w w1 : World) (e : exn) :
  m w = (Raise e, w1) ->
  handle_es_exceptions exn_str m w = (Raise (decorated_fault exn_str e), w1).
Proof.
  intros Hm. unfold handle_es_exceptions. rewrite (try_except_raise _ _ _ _ _ Hm).
  by destruct e.
Qed.

Lemma handle_es_exceptions_domain {A} (exn_str : exn -> string) (m : M A)
    (w w' : World) (x : exn) :
  handle_es_exceptions exn_str m w = (Raise x, w') -> is_domain_fault x = true.
Proof.
  intros Hrun. apply try_except_raise_inv in Hrun as (e & w1 & _ & Hh).
  destruct e; by injection Hh as <- _.
Qed.

Lemma wrapped_domain {A} (m : M A) (f : exn -> exn) (w w' : World) (x : exn) :
  (forall e, is_domain_fault (f e) = true) ->
  try_except m (fun e => raise (f e)) w = (Raise x, w') -> is_domain_fault x = true.
Proof.
  intros Hf Hrun. apply try_except_raise_inv in Hrun as (e & w1 & _ & Hh).
  injection Hh as <- _. apply Hf.
Qed.

(** C5, as stated, fails: [load_messages] is a store-facing operation, the
    store answers its search with a not-found condition, and the caller
    receives the store fault [ElasticsearchError], not the not-found fault;
    and [AgentModel.save_to_elasticsearch] passes a failure of the store on
    to its caller as the client's own exception. *)
Lemma load_messages_not_found_is_store_fault :
  fst (load_messages plain_str (at_day 2 0) (at_day 2 0) (at_day 3 0) None 20
         (failing_world (NotFoundError "index_not_found_exception")))
  = Raise (ElasticsearchError
             "Error loading high-level messages: index_not_found_exception" None)
  /\ fst (AgentModel_save_to_elasticsearch (at_day 2 0)
            (AgentModel.init (at_day 2 0)
               {| Schema.agent_name := "Agent_001"; Schema.agent_id := "001";
                  Schema.ip := "192.168.1.101"; Schema.agent_status := "Active";
                  Schema.status_code := 0; Schema.last_keep_alive := at_day 2 0;
                  Schema.os := "Ubuntu"; Schema.os_version := "20.04";
                  Schema.group_name := "threathunting" |})
            (failing_world (OtherError "ConnectionTimeout")))
     = Raise (OtherError "ConnectionTimeout").
Proof. split; reflexivity. Qed.

(** C5 (amended). Whatever the store does, an exception raised by a read
    operation is one of the two domain faults. In the three decorated event
    loaders an exception [x] of the body (partition resolution and search)
    surfaces as [UserNotFoundError] with code 404 when [x] is the client's
    [NotFoundError], and as [ElasticsearchError] with code 500 otherwise. In
    [get_events_in_timerange], [get_high_level_event_count],
    [get_events_for_pie_chart] and [load_messages] every exception of the
    body, not-found included, surfaces as [ElasticsearchError]. *)
Theorem fault_translation_spec
    (exn_str : exn -> string) (now start_time end_time : datetime) (w : World) :
  (forall x w', 
      (forall g, load_agents exn_str now start_time end_time g w = (Raise x, w') ->
                 is_domain_fault x = true)
      /\ (forall g, load_group_events_from_elasticsearch exn_str now g start_time end_time w
                    = (Raise x, w') -> is_domain_fault x = true)
      /\ (forall id, load_from_elasticsearch_with_time_range exn_str now id start_time end_time w
                     = (Raise x, w') -> is_domain_fault x = true)
      /\ (load_all_events_from_elasticsearch exn_str now start_time end_time w
          = (Raise x, w') -> is_domain_fault x = true)
      /\ (forall size, get_events_in_timerange exn_str now start_time end_time size w
                       = (Raise x, w') -> is_domain_fault x = true)
      /\ (get_high_level_event_count exn_str now start_time end_time w
          = (Raise x, w') -> is_domain_fault x = true)
      /\ (forall size, get_events_for_pie_chart exn_str now start_time end_time size w
                       = (Raise x, w') -> is_domain_fault x = true)
      /\ (forall g limit, load_messages exn_str now start_time end_time g limit w
                          = (Raise x, w') -> is_domain_fault x = true))
  /\ (forall x w1,
        (forall g,
           search_active now (load_group_events_query g start_time end_time) sources w
           = (Raise x, w1) ->
           load_group_events_from_elasticsearch exn_str now g start_time end_time w
           = (Raise (decorated_fault exn_str x), w1))
        /\ (forall id,
           search_active now (load_agent_events_query id start_time end_time) sources w
           = (Raise x, w1) ->
           load_from_elasticsearch_with_time_range exn_str now id start_time end_time w
           = (Raise (decorated_fault exn_str x), w1))
        /\ (search_active now (load_all_events_query start_time end_time) sources w
            = (Raise x, w1) ->
            load_all_events_from_elasticsearch exn_str now start_time end_time w
            = (Raise (decorated_fault exn_str x), w1)))
  /\ (forall info, decorated_fault exn_str (NotFoundError info)
                   = UserNotFoundError (exn_str (NotFoundError info)) 404)
  /\ (forall x, (forall info, x <> NotFoundError info) ->
                decorated_fault exn_str x
                = ElasticsearchError ("Elasticsearch error: " +:+ exn_str x) (Some 500))
  /\ (forall x w1,
        (forall size,
           search_active now (timerange_query start_time end_time size) hits_hits w
           = (Raise x, w1) ->
           get_events_in_timerange exn_str now start_time end_time size w
           = (Raise (ElasticsearchError ("Error getting events: " +:+ exn_str x) None), w1)
           /\ get_events_for_pie_chart exn_str now start_time end_time size w
              = (Raise (ElasticsearchError
                          ("Error getting events for pie chart: " +:+ exn_str x) None), w1))
        /\ (count_active now (high_level_count_query start_time end_time) w = (Raise x, w1) ->
            get_high_level_event_count exn_str now start_time end_time w
            = (Raise (ElasticsearchError
                        ("Error getting high-level event count: " +:+ exn_str x) None), w1))
        /\ (forall g limit,
           search_active now (load_messages_body start_time end_time g limit)
             (fun r => (sources r, hits_total_value r)) w = (Raise x, w1) ->
           load_messages exn_str now start_time end_time g limit w
           = (Raise (ElasticsearchError
                       ("Error loading high-level messages: " +:+ exn_str x) None), w1))).
Proof.
  repeat apply conj.
  - intros x w'. repeat apply conj; intros;
      first [ by eapply handle_es_exceptions_domain
            | by eapply (wrapped_domain _ (fun e => ElasticsearchError _ _)) ].
  - intros x w1. repeat apply conj; intros; by apply handle_es_exceptions_raise.
  - done.
  - intros x Hx. destruct x; try done. by destruct (Hx info).
  - intros x w1. repeat apply conj.
    + intros size Hb. unfold search_active in Hb.
      unfold get_events_in_timerange, get_events_for_pie_chart.
      by rewrite !(try_except_raise _ _ w w1 x Hb).
    + intros Hb. unfold count_active in Hb. unfold get_high_level_event_count.
      by rewrite (try_except_raise _ _ w w1 x Hb).
    + intros g limit Hb. rewrite load_messages_unfold.
      by rewrite (try_except_raise _ _ w w1 x Hb).
Qed.

Lemma fault_translation_witness :
  (exists w1,
     load_all_events_from_elasticsearch plain_str (at_day 2 0) (at_day 2 0) (at_day 3 0)
       (failing_world (NotFoundError "index_not_found_exception"))
     = (Raise (UserNotFoundError "index_not_found_exception" 404), w1))
  /\ (exists w1,
     load_all_events_from_elasticsearch plain_str (at_day 2 0) (at_day 2 0) (at_day 3 0)
       (failing_world (OtherError "ConnectionTimeout"))
     = (Raise (ElasticsearchError "Elasticsearch error: ConnectionTimeout" (Some 500)), w1))
  /\ (exists w1,
     load_messages plain_str (at_day 2 0) (at_day 2 0) (at_day 3 0) None 20
       (failing_world (NotFoundError "index_not_found_exception"))
     = (Raise (ElasticsearchError
                 "Error loading high-level messages: index_not_found_exception" None), w1)).
Proof.
  repeat apply conj.
  - set (w := failing_world (NotFoundError "index_not_found_exception")).
    destruct (fault_translation_spec plain_str (at_day 2 0) (at_day 2 0) (at_day 3 0) w)
      as (_ & Hdec & _).
    destruct (Hdec (NotFoundError "index_not_found_exception")
                (snd (search_active (at_day 2 0)
                        (load_all_events_query (at_day 2 0) (at_day 3 0)) sources w)))
      as (_ & _ & Hall).
    eexists. apply Hall. reflexivity.
  - set (w := failing_world (OtherError "ConnectionTimeout")).
    destruct (fault_translation_spec plain_str (at_day 2 0) (at_day 2 0) (at_day 3 0) w)
      as (_ & Hdec & _).
    destruct (Hdec (OtherError "ConnectionTimeout")
                (snd (search_active (at_day 2 0)
                        (load_all_events_query (at_day 2 0) (at_day 3 0)) sources w)))
      as (_ & _ & Hall).
    eexists. apply Hall. reflexivity.
  - set (w := failing_world (NotFoundError "index_not_found_exception")).
    destruct (fault_translation_spec plain_str (at_day 2 0) (at_day 2 0) (at_day 3 0) w)
      as (_ & _ & _ & _ & Hraw).
    destruct (Hraw (NotFoundError "index_not_found_exception")
                (snd (search_active (at_day 2 0)
                        (load_messages_body (at_day 2 0) (at_day 3 0) None 20)
                        (fun r => (sources r, hits_total_value r)) w)))
      as (_ & _ & Hmsg).
    eexists. apply (Hmsg None 20). reflexivity.
Defined.

(** ** Agent normalization *)

Example lower_Active : lower "Active" = "active".
Proof. reflexivity. Qed.







(** ** Event normalization *)

Lemma parse_accepted (r : Schema.RawEvent) :
  accepted (Schema.raw_rule_mitre_id r) ->
  accepted (Schema.raw_rule_mitre_tactic r) ->
  accepted (Schema.raw_rule_mitre_technique r) ->
  exists ev,
    Schema.parse_WazuhEvent r = Some ev
    /\ opt_str (Schema.rule_mitre_id ev) = persisted (Schema.raw_rule_mitre_id r)
    /\ opt_str (Schema.rule_mitre_tactic ev) = persisted (Schema.raw_rule_mitre_tactic r)
    /\ opt_str (Schema.rule_mitre_technique ev) = persisted (Schema.raw_rule_mitre_technique r).
Proof.
  unfold accepted, Schema.parse_WazuhEvent.
  destruct (Schema.raw_rule_mitre_id r), (Schema.raw_rule_mitre_tactic r),
    (Schema.raw_rule_mitre_technique r); simpl;
    intros [? ?] [? ?] [? ?]; try discriminate; eexists; (split; [reflexivity|done]).
Qed.

(** Saving an event in a quiet world appends its normalized document to the
    active partition. *)
Lemma save_event_quiet (now : datetime) (ev : EventModel.t) (w : World) :
  quiet w ->
  exists w1,
    EventModel_save_to_elasticsearch now ev w = (Ret Created, w1)
    /\ quiet w1
    /\ active_docs now w1
       = active_docs now w ++ [ {| _id := None; _source := EventModel.to_dict ev |} ].
Proof.
  intros Hq. unfold EventModel_save_to_elasticsearch, try_except, bind.
  destruct (get_index_name_quiet now w Hq) as (w0 & Hk & Hq0). rewrite Hk.
  apply get_index_name_ret in Hk as (_ & [ix Hix] & Hdocs & _).
  unfold es_index. rewrite (quiet_next_fault w0 Hq0), Hix. simpl.
  eexists. split; [done|]. split.
  - apply quiet_with_indices. by apply quiet_advance.
  - rewrite <- Hdocs. unfold active_docs. simpl. by rewrite lookup_insert_eq, Hix.
Qed.

(** C7, as stated, fails: an event that supplies none of the MITRE fields
    is normalized to a document in which the three keys are present and
    hold [null]; none of them is absent. *)
Lemma to_dict_keeps_null_mitre_fields :
  exists ev,
    Schema.parse_WazuhEvent (raw_event Schema.Missing Schema.Missing Schema.Missing) = Some ev
    /\ EventModel.to_dict (EventModel.init ev) !! "rule_mitre_id" = Some JNull
    /\ EventModel.to_dict (EventModel.init ev) !! "rule_mitre_tactic" = Some JNull
    /\ EventModel.to_dict (EventModel.init ev) !! "rule_mitre_technique" = Some JNull
    /\ EventModel.to_dict (EventModel.init ev) !! "rule_mitre_id" <> None.
Proof. eexists. split; [reflexivity|]. repeat split; done. Qed.

(** C7 (amended). An incoming event whose optional MITRE fields are each
    either not supplied or a string passes validation, and its normalized
    document holds each of the three keys: with the string when one was
    supplied, with [null] when none was. *)
Theorem event_optional_fields (r : Schema.RawEvent) :
  accepted (Schema.raw_rule_mitre_id r) ->
  accepted (Schema.raw_rule_mitre_tactic r) ->
  accepted (Schema.raw_rule_mitre_technique r) ->
  exists ev,
    Schema.parse_WazuhEvent r = Some ev
    /\ EventModel.to_dict (EventModel.init ev) !! "rule_mitre_id"
       = Some (persisted (Schema.raw_rule_mitre_id r))
    /\ EventModel.to_dict (EventModel.init ev) !! "rule_mitre_tactic"
       = Some (persisted (Schema.raw_rule_mitre_tactic r))
    /\ EventModel.to_dict (EventModel.init ev) !! "rule_mitre_technique"
       = Some (persisted (Schema.raw_rule_mitre_technique r))
    /\ (Schema.raw_rule_mitre_id r = Schema.Missing -> 
        EventModel.to_dict (EventModel.init ev) !! "rule_mitre_id" = Some JNull)
    /\ (Schema.raw_rule_mitre_tactic r = Schema.Missing -> 
        EventModel.to_dict (EventModel.init ev) !! "rule_mitre_tactic" = Some JNull)
    /\ (Schema.raw_rule_mitre_technique r = Schema.Missing -> 
        EventModel.to_dict (EventModel.init ev) !! "rule_mitre_technique" = Some JNull).
Proof.
  intros H1 H2 H3.
  destruct (parse_accepted r H1 H2 H3) as (ev & Hparse & Hid & Htactic & Htechnique).
  exists ev. split; [done|].
  change (EventModel.to_dict (EventModel.init ev) !! "rule_mitre_id")
    with (Some (opt_str (Schema.rule_mitre_id ev))).
  change (EventModel.to_dict (EventModel.init ev) !! "rule_mitre_tactic")
    with (Some (opt_str (Schema.rule_mitre_tactic ev))).
  change (EventModel.to_dict (EventModel.init ev) !! "rule_mitre_technique")
    with (Some (opt_str (Schema.rule_mitre_technique ev))).
  rewrite Hid, Htactic, Htechnique.
  repeat split; try done; by intros ->.
Qed.

Lemma event_optional_fields_witness :
  accepted Schema.Missing /\ accepted (Schema.RawStr "Impact")
  /\ exists ev,
       Schema.parse_WazuhEvent (raw_event Schema.Missing (Schema.RawStr "Impact") Schema.Missing)
       = Some ev
       /\ EventModel.to_dict (EventModel.init ev) !! "rule_mitre_id" = Some JNull
       /\ EventModel.to_dict (EventModel.init ev) !! "rule_mitre_tactic" = Some (JStr "Impact").
Proof.
  assert (Hm : accepted Schema.Missing) by (eexists; reflexivity).
  assert (Hs : accepted (Schema.RawStr "Impact")) by (eexists; reflexivity).
  split; [exact Hm|]. split; [exact Hs|].
  destruct (event_optional_fields
              (raw_event Schema.Missing (Schema.RawStr "Impact") Schema.Missing) Hm Hs Hm)
    as (ev & Hparse & Hid & Htactic & _).
  exists ev. split; [exact Hparse|]. split; [exact Hid|exact Htactic].
Defined.

(** ** The MITRE tactic at ingestion *)




(** ** Top-N rankings *)

Example top_2_tie : top_n 2 (grouping_key ByAgentName) tie_events = [("A", 3%nat); ("B", 3%nat)].
Proof. vm_compute. reflexivity. Qed.

(** *** The order of the ranking *)

Lemma ascii_compare_lt_trans (a b c : ascii) :
  Ascii.compare a b = Lt -> Ascii.compare b c = Lt -> Ascii.compare a c = Lt.
Proof. unfold Ascii.compare. rewrite !N.compare_lt_iff. lia. Qed.

Lemma string_compare_lt_trans (a b c : string) :
  String.compare a b = Lt -> String.compare b c = Lt -> String.compare a c = Lt.
Proof.
  revert b c. induction a as [|x a IH]; intros [|y b] [|z c]; simpl; try done.
  destruct (Ascii.compare x y) eqn:Hxy; try done;
    destruct (Ascii.compare y z) eqn:Hyz; try done.
  - apply Ascii.compare_eq_iff in Hxy as ->. rewrite Hyz. apply IH.
  - apply Ascii.compare_eq_iff in Hxy as ->. by rewrite Hyz.
  - apply Ascii.compare_eq_iff in Hyz as <-. by rewrite Hxy.
  - by rewrite (ascii_compare_lt_trans x y z).
Qed.

Lemma string_compare_refl (a : string) : String.compare a a = Eq.
Proof.
  induction a as [|x a IH]; simpl; [done|].
  unfold Ascii.compare. by rewrite N.compare_refl.
Qed.

Lemma string_leb_cases (a b : string) :
  String.leb a b = true <-> a = b \/ String.ltb a b = true.
Proof.
  unfold String.leb, String.ltb.
  destruct (String.compare a b) eqn:Hc.
  - apply String.compare_eq_iff in Hc. tauto.
  - tauto.
  - split; [done|]. intros [->|?]; [|done].
    rewrite string_compare_refl in Hc. discriminate.
Qed.

Lemma string_ltb_trans (a b c : string) :
  String.ltb a b = true -> String.ltb b c = true -> String.ltb a c = true.
Proof.
  unfold String.ltb. intros Hab Hbc.
  destruct (String.compare a b) eqn:H1; try done.
  destruct (String.compare b c) eqn:H2; try done.
  by rewrite (string_compare_lt_trans a b c).
Qed.

Lemma string_leb_trans (a b c : string) :
  String.leb a b = true -> String.leb b c = true -> String.leb a c = true.
Proof.
  rewrite !string_leb_cases. intros [->|Hab] [->|Hbc]; auto.
  right. by eapply string_ltb_trans.
Qed.

Lemma rank_leb_true (p q : string * nat) :
  rank_leb p q = true
  <-> (q.2 < p.2)%nat \/ (p.2 = q.2 /\ String.leb p.1 q.1 = true).
Proof.
  unfold rank_leb. by rewrite orb_true_iff, andb_true_iff, Nat.ltb_lt, Nat.eqb_eq.
Qed.

Lemma rank_leb_total (p q : string * nat) : rank_leb p q = true \/ rank_leb q p = true.
Proof.
  rewrite !rank_leb_true.
  destruct (Nat.lt_trichotomy p.2 q.2) as [Hlt|[Heq|Hgt]].
  - right. by left.
  - destruct (String.leb_total p.1 q.1) as [Hl|Hl].
    + left. right. by split.
    + right. right. by split.
  - left. by left.
Qed.

Lemma rank_leb_trans (p q r : string * nat) :
  rank_leb p q = true -> rank_leb q r = true -> rank_leb p r = true.
Proof.
  rewrite !rank_leb_true. intros [H1|[H1 L1]] [H2|[H2 L2]]; try (left; lia).
  right. split; [lia|]. by eapply string_leb_trans.
Qed.

Lemma rank_leb_outranks (p q : string * nat) :
  rank_leb p q = true -> p.1 <> q.1 -> outranks p q.
Proof.
  rewrite rank_leb_true. intros [H|[H L]] Hne; [by left|right].
  split; [done|]. apply string_leb_cases in L as [?|?]; done.
Qed.

(** *** Counting *)

Lemma tally_lookup (labels : list string) (k : string) :
  tally labels !! k = match occ k labels with O => None | S n => Some (S n) end.
Proof.
  induction labels as [|x l IH]; [done|].
  unfold occ in *. simpl. rewrite lookup_insert. case_decide as Hx.
  - subst x. rewrite bool_decide_eq_true_2 by done. simpl.
    rewrite IH. by destruct (length _).
  - rewrite bool_decide_eq_false_2 by done. exact IH.
Qed.

Lemma occ_perm (k : string) (l l' : list string) : l ≡ₚ l' -> occ k l = occ k l'.
Proof.
  unfold occ. induction 1 as [|x l l' _ IH|x y l|l1 l2 l3 _ IH1 _ IH2]; simpl.
  - done.
  - destruct (bool_decide (x = k)); simpl; by rewrite IH.
  - by destruct (bool_decide (x = k)), (bool_decide (y = k)).
  - by rewrite IH1.
Qed.

Lemma tally_perm (l l' : list string) : l ≡ₚ l' -> tally l = tally l'.
Proof.
  intros Hp. apply map_eq. intros k. by rewrite !tally_lookup, (occ_perm k l l' Hp).
Qed.

Lemma occ_group_size (key : Document -> option string) (events : list Entry) (name : string) :
  occ name (omap (fun h => key (_source h)) events) = group_size key events name.
Proof.
  unfold occ, group_size. induction events as [|h l IH]; [done|].
  simpl. destruct (key (_source h)) as [s|] eqn:Hk; simpl.
  - destruct (decide (s = name)) as [->|Hne].
    + rewrite !bool_decide_eq_true_2 by done. simpl. f_equal. exact IH.
    + rewrite !bool_decide_eq_false_2 by congruence. exact IH.
  - exact IH.
Qed.

Lemma ranked_elem (key : Document -> option string) (events : list Entry)
    (name : string) (value : nat) :
  (name, value) ∈ ranked key events
  <-> value = group_size key events name /\ (1 <= value)%nat.
Proof.
  unfold ranked. rewrite sort_by_perm, elem_of_map_to_list, tally_lookup, occ_group_size.
  destruct (group_size key events name) as [|n].
  - split; [done|]. intros [-> ?]. lia.
  - split; [intros [= <-]; split; [done|lia]|]. by intros [-> _].
Qed.

Lemma ranked_sorted (key : Document -> option string) (events : list Entry) :
  StronglySorted (leb_rel rank_leb) (ranked key events).
Proof. apply sort_by_sorted; [apply rank_leb_total|apply rank_leb_trans]. Qed.

Lemma ranked_NoDup (key : Document -> option string) (events : list Entry) :
  NoDup (ranked key events).*1.
Proof. unfold ranked. rewrite sort_by_perm. apply NoDup_fst_map_to_list. Qed.

Lemma top_n_ranked (n : nat) (key : Document -> option string) (events : list Entry) :
  top_n n key events = take n (ranked key events).
Proof. done. Qed.

(** C9. Against the ranking described by the spec: every emitted pair is a
    label with the number of documents carrying that label, at least one,
    so a document without a label is counted under no name; at most [n]
    pairs are emitted ([n] is 5 for the four pie-chart groupings); an
    earlier pair outranks a later one, by a higher count or by the same
    count and the lexically smaller label; every group left out is outranked
    by every emitted pair; the ranking does not depend on the order of the
    events; and for A:3, B:3, C:1 the top 2 by agent name is [A,3],[B,3]. *)
Theorem top_n_spec (n : nat) (key : Document -> option string) (events : list Entry) :
  (forall name value,
      (name, value) ∈ top_n n key events ->
      value = group_size key events name /\ (1 <= value)%nat)
  /\ length (top_n n key events) = Nat.min n (length (ranked key events))
  /\ (forall name, (1 <= group_size key events name)%nat ->
        (name, group_size key events name) ∈ ranked key events)
  /\ (forall i j p q,
        (i < j)%nat -> top_n n key events !! i = Some p -> top_n n key events !! j = Some q ->
        outranks p q)
  /\ (forall name p,
        (1 <= group_size key events name)%nat ->
        (name, group_size key events name) ∉ top_n n key events ->
        p ∈ top_n n key events ->
        outranks p (name, group_size key events name))
  /\ (forall events', events ≡ₚ events' -> top_n n key events' = top_n n key events)
  /\ (forall g, top_5 g events = top_n 5 (grouping_key g) events
                /\ (length (top_5 g events) <= 5)%nat)
  /\ top_n 2 (grouping_key ByAgentName) tie_events = [("A", 3%nat); ("B", 3%nat)].
Proof.
  rewrite !top_n_ranked.
  pose proof (ranked_sorted key events) as Hsorted.
  pose proof (ranked_NoDup key events) as Hnodup.
  repeat apply conj.
  - intros name value Hin. apply ranked_elem. by eapply subseteq_take.
  - apply length_take.
  - intros name Hsize. by apply ranked_elem.
  - intros i j p q Hij Hi Hj.
    apply lookup_take_Some in Hi as [Hi _]. apply lookup_take_Some in Hj as [Hj _].
    apply rank_leb_outranks.
    + by apply (sorted_lookup rank_leb (ranked key events) i j).
    + intros Heq.
      assert (i = j); [|lia].
      apply (NoDup_lookup _ i j p.1 Hnodup); rewrite list_lookup_fmap.
      * by rewrite Hi.
      * by rewrite Hj, Heq.
  - intros name p Hsize Hout Hp.
    assert (Hall : (name, group_size key events name) ∈ ranked key events)
      by by apply ranked_elem.
    rewrite <- (take_drop n (ranked key events)) in Hall, Hsorted, Hnodup.
    apply elem_of_app in Hall as [Hall|Hall]; [done|].
    apply rank_leb_outranks.
    + by apply (StronglySorted_app_1_elem_of _ _ _ _ _ Hsorted).
    + rewrite fmap_app in Hnodup. apply NoDup_app in Hnodup as (_ & Hdisj & _).
      intros Heq. apply (Hdisj p.1).
      * by apply list_elem_of_fmap_2.
      * rewrite Heq. by apply (list_elem_of_fmap_2 fst _ (name, group_size key events name)).
  - intros events' Hperm. rewrite top_n_ranked. unfold ranked. do 3 f_equal.
    apply tally_perm. by rewrite Hperm.
  - intros g. split; [done|]. unfold top_5. rewrite top_n_ranked, length_take. lia.
  - vm_compute. reflexivity.
Qed.

Lemma top_n_witness :
  (1 <= group_size (grouping_key ByAgentName) tie_events "C")%nat
  /\ (("C", 1%nat) ∉ top_n 2 (grouping_key ByAgentName) tie_events)
  /\ outranks ("B", 3%nat) ("C", group_size (grouping_key ByAgentName) tie_events "C")
  /\ outranks ("A", 3%nat) ("B", 3%nat).
Proof.
  destruct (top_n_spec 2 (grouping_key ByAgentName) tie_events)
    as (_ & _ & _ & Horder & Hleft & _ & _ & Htop).
  assert (Hsize : (1 <= group_size (grouping_key ByAgentName) tie_events "C")%nat)
    by (vm_compute; lia).
  assert (Hout : ("C", 1%nat) ∉ top_n 2 (grouping_key ByAgentName) tie_events).
  { rewrite Htop. intros Hin.
    repeat (apply elem_of_cons in Hin as [Hin|Hin]; [discriminate Hin|]).
    by apply elem_of_nil in Hin. }
  split; [exact Hsize|]. split; [exact Hout|]. split.
  - apply (Hleft "C" ("B", 3%nat) Hsize Hout). rewrite Htop.
    apply list_elem_of_further, list_elem_of_here.
  - apply (Horder 0%nat 1%nat); [lia|by rewrite Htop..].
Defined.

(** ** The discriminator in the queries *)

(** C10, as stated, fails in its last clause: the fifth shaped query, the
    message query of [load_messages], carries no clause on the
    discriminator, and it returns a document tagged [agent_info] whose rule
    level is above 8. *)
Lemma load_messages_query_has_no_discriminator :
  filters_on discriminator (load_messages_query (at_day 2 0) (at_day 3 0) None) = false
  /\ has_type "agent_info" tagged_agent_doc = true
  /\ fst (load_messages plain_str (at_day 5 0) (at_day 2 0) (at_day 3 0) None 20
            (world_of [ {| _id := None; _source := tagged_agent_doc |} ]))
     = Ret ([tagged_agent_doc], 1).
Proof. repeat split; reflexivity. Qed.

(** C10 (amended). The query shared by [get_events_in_timerange] and
    [get_events_for_pie_chart] carries no clause on [wazuh_data_type]: it
    selects a document exactly when [start <= timestamp < end], so a
    normalized agent record captured in the window is selected, and in a
    world whose store serves the calls both scans, asked for a page the
    store accepts, return every hit of the active partition tagged
    [agent_info] with its timestamp in the window, as long as the hits of
    the window fit in the page size. The queries of
    [load_agents] and of the three event loaders carry such a clause and
    select documents of their own kind only; the message query of
    [load_messages] carries none. *)
Theorem raw_scans_ignore_discriminator
    (exn_str : exn -> string) (now start_time end_time : datetime) (size : Z) (w : World) :
  quiet w -> 0 <= size <= MAX_RESULTS ->
  filters_on discriminator (query (timerange_query start_time end_time size)) = false
  /\ (forall d, matches (query (timerange_query start_time end_time size)) d
                = in_window_excl start_time end_time d)
  /\ (forall utcnow agent,
        instant start_time <= instant utcnow < instant end_time ->
        matches (query (timerange_query start_time end_time size))
          (AgentModel.to_dict (AgentModel.init utcnow agent)) = true)
  /\ (forall h,
        h ∈ active_docs now w ->
        has_type "agent_info" (_source h) = true ->
        within_excl start_time end_time (_source h) ->
        Z.of_nat (length (List.filter
                    (fun h' => in_window_excl start_time end_time (_source h'))
                    (active_docs now w))) <= size ->
        exists w1 r1 w2 r2,
          get_events_in_timerange exn_str now start_time end_time size w = (Ret r1, w1)
          /\ h ∈ r1
          /\ get_events_for_pie_chart exn_str now start_time end_time size w = (Ret r2, w2)
          /\ h ∈ r2)
  /\ (forall g id,
        filters_on discriminator (query (load_agents_query start_time end_time g)) = true
        /\ filters_on discriminator
             (query (load_group_events_query (default [] g) start_time end_time)) = true
        /\ filters_on discriminator
             (query (load_agent_events_query id start_time end_time)) = true
        /\ filters_on discriminator (query (load_all_events_query start_time end_time)) = true
        /\ filters_on discriminator (load_messages_query start_time end_time g) = false)
  /\ (forall d g id,
        (matches (query (load_agents_query start_time end_time g)) d = true ->
         has_type "agent_info" d = true)
        /\ (matches (query (load_group_events_query (default [] g) start_time end_time)) d
            = true -> has_type "wazuh_events" d = true)
        /\ (matches (query (load_agent_events_query id start_time end_time)) d = true ->
            has_type "wazuh_events" d = true)
        /\ (matches (query (load_all_events_query start_time end_time)) d = true ->
            has_type "wazuh_events" d = true)).
Proof.
  intros Hq _. repeat apply conj.
  - done.
  - intros d. apply matches_timerange_query.
  - intros utcnow agent Hwin. rewrite matches_timerange_query.
    unfold in_window_excl. rewrite agent_timestamp.
    change (AgentModel.timestamp (AgentModel.init utcnow agent)) with utcnow.
    apply andb_true_iff. split; [apply Z.leb_le|apply Z.ltb_lt]; lia.
  - intros h Hin _ Hwin Hfit.
    destruct (get_events_in_timerange_quiet exn_str now start_time end_time w size Hq)
      as (w1 & Hrun1).
    destruct (get_events_for_pie_chart_quiet exn_str now start_time end_time w size Hq)
      as (w2 & Hrun2).
    assert (Hhit : h ∈ hits_hits (run_search (timerange_query start_time end_time size)
                                    (active_docs now w))).
    { apply run_search_complete; [done| |].
      - rewrite matches_timerange_query. by apply in_window_excl_iff.
      - unfold matching.
        erewrite filter_ext; [exact Hfit|]. intros h'. apply matches_timerange_query. }
    eexists _, _, _, _. split; [exact Hrun1|]. split; [exact Hhit|].
    split; [exact Hrun2|exact Hhit].
  - intros g id. repeat split.
    unfold load_messages_query, group_clause. by destruct (truthy g).
  - intros d g id. repeat apply conj.
    + rewrite matches_load_agents_query, !andb_true_iff. tauto.
    + rewrite matches_load_group_events_query, !andb_true_iff. tauto.
    + rewrite matches_load_agent_events_query, !andb_true_iff. tauto.
    + rewrite matches_load_all_events_query, !andb_true_iff. tauto.
Qed.

Lemma raw_scans_ignore_discriminator_witness :
  quiet mixed_world
  /\ exists w1 r1,
       get_events_in_timerange plain_str (at_day 5 0) (at_day 2 0) (at_day 3 0) 10000
         mixed_world = (Ret r1, w1)
       /\ {| _id := Some "agent_001";
             _source := AgentModel.to_dict (AgentModel.init (at_day 2 12) sample_agent) |} ∈ r1.
Proof.
  assert (Hq : quiet mixed_world) by constructor.
  assert (Hsize : 0 <= 10000 <= MAX_RESULTS) by (vm_compute; split; discriminate).
  split; [exact Hq|].
  destruct (raw_scans_ignore_discriminator plain_str (at_day 5 0) (at_day 2 0) (at_day 3 0)
              10000 mixed_world Hq Hsize) as (_ & _ & _ & Hscan & _).
  destruct (Hscan {| _id := Some "agent_001";
                     _source := AgentModel.to_dict (AgentModel.init (at_day 2 12) sample_agent) |})
    as (w1 & r1 & _ & _ & Hrun & Hin & _).
  - apply list_elem_of_here.
  - reflexivity.
  - exists (at_day 2 12). split; [reflexivity|]. vm_compute. split; [discriminate|reflexivity].
  - vm_compute. discriminate.
  - by exists w1, r1.
Defined.

(** * Further properties of the code *)

(** ** Runs under an arbitrary schedule *)

Lemma next_fault_at (w : World) (e : exn) : next_fault w = Some e <-> fault_at w 0 e.
Proof.
  unfold next_fault, fault_at. destruct (schedule w) as [|[e'|] l]; simpl.
  - split; intros; discriminate.
  - split; intros [= ->]; done.
  - split; intros; discriminate.
Qed.

Lemma consumed_nil (w : World) : consumed w w [].
Proof. split; [by rewrite app_nil_r|done]. Qed.

Lemma consumed_advance (c : ApiCall) (w : World) : consumed w (advance c w) [c].
Proof. split; [done|]. simpl. by destruct (schedule w). Qed.

Lemma consumed_with_indices (m : gmap string Index) (w w' : World) (cs : list ApiCall) :
  consumed w w' cs -> consumed w (with_indices m w') cs.
Proof. done. Qed.

Lemma consumed_trans (w w1 w2 : World) (cs cs' : list ApiCall) :
  consumed w w1 cs -> consumed w1 w2 cs' -> consumed w w2 (cs ++ cs').
Proof.
  intros [Hc Hs] [Hc' Hs']. split.
  - by rewrite Hc', Hc, app_assoc.
  - by rewrite Hs', Hs, drop_drop, length_app.
Qed.

Lemma fault_at_consumed (w w1 : World) (cs : list ApiCall) (e : exn) :
  consumed w w1 cs -> next_fault w1 = Some e -> fault_at w (length cs) e.
Proof.
  intros [_ Hs] Hf. apply next_fault_at in Hf. unfold fault_at in *.
  rewrite Hs, lookup_drop in Hf. by rewrite Nat.add_0_r in Hf.
Qed.

Lemma kept_refl (w : World) : kept w w.
Proof. by intros k ix. Qed.

Lemma kept_trans (w w1 w2 : World) : kept w w1 -> kept w1 w2 -> kept w w2.
Proof. intros H1 H2 k ix Hk. by apply H2, H1. Qed.

Lemma kept_advance (c : ApiCall) (w : World) : kept w (advance c w).
Proof. by intros k ix. Qed.

Lemma kept_insert_fresh (k : string) (ix : Index) (w w' : World) :
  indices w !! k = None -> indices w' = indices w ->
  kept w (with_indices (<[k := ix]> (indices w)) w').
Proof.
  intros Hk _ j ix' Hj. simpl. rewrite lookup_insert_ne; [done|]. congruence.
Qed.

(** Every way [get_index_name] can end. *)
Lemma get_index_name_cases (now : datetime) (w : World) :
  let k := index_name_at now in
  match get_index_name now w with
  | (Ret k', w') =>
      k' = k
      /\ kept w w'
      /\ indices w' !! k = Some (default (empty_index mapping) (indices w !! k))
      /\ (forall j, j <> k -> indices w' !! j = indices w !! j)
      /\ exists cs, consumed w w' cs /\ partition_calls k cs
  | (Raise e, w') =>
      indices w' = indices w
      /\ exists cs, consumed w w' cs /\ partition_calls k cs
                    /\ fault_at w (length cs - 1) e
  end.
Proof.
  intros k. unfold get_index_name.
  destruct (next_fault w) as [e|] eqn:Hf.
  - unfold create_index_with_mapping, bind, es_indices_exists. rewrite Hf.
    split; [done|]. exists [CallExists k]. split; [apply consumed_advance|].
    split; [by left|]. by apply next_fault_at.
  - destruct (indices w !! k) as [ix|] eqn:Hix.
    + rewrite create_when_present by eauto. fold k.
      split; [done|]. split; [apply kept_advance|]. split; [exact Hix|].
      split; [done|]. exists [CallExists k]. split; [apply consumed_advance|by left].
    + pose proof (create_when_absent now w Hf Hix) as Hrun. simpl in Hrun. fold k in Hrun.
      rewrite Hrun. clear Hrun.
      set (w1 := advance (CallExists k) w).
      assert (Hcs : consumed w (advance (CallCreate k) w1) [CallExists k; CallCreate k]).
      { apply (consumed_trans w w1 _ [CallExists k] [CallCreate k]); apply consumed_advance. }
      assert (Hret : forall w'',
        w'' = with_indices (<[k := empty_index mapping]> (indices w)) (advance (CallCreate k) w1) ->
        k = k /\ kept w w''
        /\ indices w'' !! k = Some (default (empty_index mapping) (indices w !! k))
        /\ (forall j, j <> k -> indices w'' !! j = indices w !! j)
        /\ exists cs, consumed w w'' cs /\ partition_calls k cs).
      { intros w'' ->. split; [done|]. split; [by apply kept_insert_fresh|].
        split; [cbn [indices with_indices]; by rewrite lookup_insert_eq, Hix|].
        split; [intros j Hj; cbn [indices with_indices]; by rewrite lookup_insert_ne|].
        exists [CallExists k; CallCreate k]. split; [done|by right]. }
      specialize (Hret _ eq_refl). rewrite Hix in Hret at 1.
      destruct (next_fault w1) as [e|] eqn:Hf1; [|exact Hret].
      destruct (is_already_exists e); [exact Hret|].
      split; [done|]. exists [CallExists k; CallCreate k].
      split; [done|]. split; [by right|].
      apply (fault_at_consumed w w1 [CallExists k]); [apply consumed_advance|done].
Qed.

Lemma partition_calls_then (k : string) (c : ApiCall) (cs : list ApiCall) :
  partition_calls k cs -> cs ++ [c] = [CallExists k; c] \/ cs ++ [c] = [CallExists k; CallCreate k; c].
Proof. intros [-> | ->]; [by left|by right]. Qed.

Lemma partition_calls_length (k : string) (cs : list ApiCall) :
  partition_calls k cs -> (1 <= length cs <= 2)%nat.
Proof. intros [-> | ->]; simpl; lia. Qed.

Lemma op_calls_length (k : string) (c : ApiCall) (cs : list ApiCall) :
  op_calls k c cs -> (1 <= length cs <= 3)%nat.
Proof. intros [[-> | ->]|[-> | ->]]; simpl; lia. Qed.

(** Every way an operation can end that resolves the partition and then
    makes one more client call. *)
Lemma after_partition {A} (now : datetime) (c : ApiCall) (final : string -> M A) (w : World) :
  let k := index_name_at now in
  final_call k c (final k) ->
  match (index_name <- get_index_name now ;; final index_name) w with
  | (Ret a, w') =>
      exists w1 cs,
        get_index_name now w = (Ret k, w1) /\ final k w1 = (Ret a, w')
        /\ consumed w w' cs /\ (cs = [CallExists k; c] \/ cs = [CallExists k; CallCreate k; c])
  | (Raise e, w') =>
      kept w w'
      /\ (forall j, j <> k -> indices w' !! j = indices w !! j)
      /\ active_docs now w' = active_docs now w
      /\ exists cs, consumed w w' cs /\ op_calls k c cs /\ fault_at w (length cs - 1) e
  end.
Proof.
  intros k Hfinal. unfold bind.
  pose proof (get_index_name_cases now w) as Hk. cbv zeta in Hk. fold k in Hk.
  destruct (get_index_name now w) as [[k'|e] w1] eqn:Hrun.
  - destruct Hk as (-> & Hkept & Hix & Hother & cs & Hcs & Hshape).
    specialize (Hfinal w1 (ex_intro _ _ Hix)).
    destruct (final k w1) as [[a|e] w2] eqn:Hfin.
    + exists w1, (cs ++ [c]). split; [done|]. split; [done|]. split.
      * by apply (consumed_trans w w1 w2).
      * by apply partition_calls_then.
    + destruct Hfinal as (Hc & Hsame & Hfault). split; [|split; [|split]].
      * intros j ix Hj. rewrite Hsame. by apply Hkept.
      * intros j Hj. rewrite Hsame. by apply Hother.
      * apply get_index_name_ret in Hrun as (_ & _ & <- & _).
        unfold active_docs. by rewrite Hsame.
      * exists (cs ++ [c]). split; [by apply (consumed_trans w w1 w2)|]. split.
        { right. by apply partition_calls_then. }
        rewrite length_app. simpl. replace (length cs + 1 - 1)%nat with (length cs) by lia.
        destruct Hcs as [_ Hs]. unfold fault_at in *.
        rewrite Hs, lookup_drop, Nat.add_0_r in Hfault. exact Hfault.
  - destruct Hk as (Hsame & cs & Hcs & Hshape & Hfault). split; [|split; [|split]].
    + intros j ix Hj. by rewrite Hsame.
    + intros j _. by rewrite Hsame.
    + unfold active_docs. by rewrite Hsame.
    + exists cs. split; [done|]. split; [by left|done].
Qed.

Lemma final_call_search {B} (k : string) (body : SearchBody) (f : SearchResponse -> B) :
  final_call k (CallSearch k) (response <- es_search k body ;; ret (f response)).
Proof.
  intros w1 [ix Hix]. unfold bind, es_search, ret. rewrite Hix.
  destruct (next_fault w1) as [e|] eqn:Hf.
  - split; [apply consumed_advance|]. split; [done|by apply next_fault_at].
  - apply consumed_advance.
Qed.

Lemma final_call_count (k : string) (q : Query) : final_call k (CallCount k) (es_count k q).
Proof.
  intros w1 [ix Hix]. unfold es_count. rewrite Hix.
  destruct (next_fault w1) as [e|] eqn:Hf.
  - split; [apply consumed_advance|]. split; [done|by apply next_fault_at].
  - apply consumed_advance.
Qed.

Lemma final_call_index (k : string) (id : option string) (d : Document) :
  final_call k (CallIndex k id) (es_index k id d).
Proof.
  intros w1 [ix Hix]. unfold es_index. rewrite Hix. simpl.
  destruct (next_fault w1) as [e|] eqn:Hf.
  - split; [apply consumed_advance|]. split; [done|by apply next_fault_at].
  - destruct (write_entry id d (idx_docs ix)) as [r docs].
    apply consumed_with_indices, consumed_advance.
Qed.

Lemma after_partition_raise {A} (now : datetime) (c : ApiCall) (final : string -> M A)
    (w w' : World) (e : exn) :
  final_call (index_name_at now) c (final (index_name_at now)) ->
  (index_name <- get_index_name now ;; final index_name) w = (Raise e, w') ->
  kept w w'
  /\ (forall j, j <> index_name_at now -> indices w' !! j = indices w !! j)
  /\ failed_by_store now c w w' e.
Proof.
  intros Hfinal Hrun. pose proof (after_partition now c final w Hfinal) as Hcases.
  cbv zeta in Hcases. rewrite Hrun in Hcases.
  destruct Hcases as (Hkept & Hother & Hdocs & Hcs). by repeat split.
Qed.

Lemma after_partition_ret {A} (now : datetime) (c : ApiCall) (final : string -> M A)
    (w w' : World) (a : A) :
  final_call (index_name_at now) c (final (index_name_at now)) ->
  (index_name <- get_index_name now ;; final index_name) w = (Ret a, w') ->
  exists w1 cs,
    get_index_name now w = (Ret (index_name_at now), w1)
    /\ final (index_name_at now) w1 = (Ret a, w')
    /\ consumed w w' cs
    /\ (cs = [CallExists (index_name_at now); c]
        \/ cs = [CallExists (index_name_at now); CallCreate (index_name_at now); c]).
Proof.
  intros Hfinal Hrun. pose proof (after_partition now c final w Hfinal) as Hcases.
  cbv zeta in Hcases. by rewrite Hrun in Hcases.
Qed.

(** ** Writing *)

Lemma es_index_ret (k : string) (id : option string) (d : Document)
    (w1 w2 : World) (ix : Index) (r : IndexResult) :
  indices w1 !! k = Some ix ->
  es_index k id d w1 = (Ret r, w2) ->
  r = (write_entry id d (idx_docs ix)).1
  /\ indices w2
     = <[k := {| idx_mapping := idx_mapping ix;
                 idx_docs := (write_entry id d (idx_docs ix)).2 |}]> (indices w1).
Proof.
  intros Hix. unfold es_index. rewrite Hix. simpl.
  destruct (next_fault w1); [done|].
  destruct (write_entry id d (idx_docs ix)) as [r' docs]. by intros [= <- <-].
Qed.

Lemma not_has_id_filter (id : string) (l : list Entry) :
  Some id ∉ _id <$> l -> List.filter (has_id id) l = [].
Proof.
  induction l as [|e l IH]; [done|]. intros Hnot.
  rewrite fmap_cons in Hnot. apply not_elem_of_cons in Hnot as [Hne Hnot].
  cbn [List.filter]. unfold has_id at 1.
  rewrite bool_decide_eq_false_2 by congruence. by apply IH.
Qed.

Lemma ids_unique_cons (e : Entry) (l : list Entry) :
  ids_unique (e :: l) ->
  ids_unique l /\ forall id, _id e = Some id -> Some id ∉ _id <$> l.
Proof.
  unfold ids_unique. simpl. destruct (_id e) as [i|] eqn:He.
  - intros Hnd. apply NoDup_cons in Hnd as [Hnot Hnd]. split; [done|].
    intros id [= <-] Hin. apply Hnot.
    apply list_elem_of_fmap in Hin as (e' & He' & Hin).
    apply list_elem_of_omap. exists e'. split; [done|]. by rewrite <- He'.
  - intros Hnd. split; [done|]. intros id Hid. discriminate.
Qed.

Lemma has_id_new (id : string) (d : Document) :
  has_id id {| _id := Some id; _source := d |} = true.
Proof. unfold has_id. by apply bool_decide_eq_true_2. Qed.

Lemma put_entry_others (id : string) (d : Document) (l : list Entry) :
  List.filter (fun e => negb (has_id id e)) (put_entry id d l).2
  = List.filter (fun e => negb (has_id id e)) l.
Proof.
  induction l as [|e l IH]; cbn [put_entry].
  - cbn [snd List.filter]. by rewrite has_id_new.
  - change (bool_decide (_id e = Some id)) with (has_id id e).
    destruct (has_id id e) eqn:He.
    + cbn [snd List.filter]. by rewrite has_id_new, He.
    + destruct (put_entry id d l) as [r l']. cbn [snd List.filter] in *.
      rewrite He. cbn [negb]. by rewrite IH.
Qed.

Lemma put_entry_own (id : string) (d : Document) (l : list Entry) :
  ids_unique l ->
  List.filter (has_id id) (put_entry id d l).2 = [ {| _id := Some id; _source := d |} ].
Proof.
  induction l as [|e l IH]; cbn [put_entry]; intros Hu.
  - cbn [snd List.filter]. by rewrite has_id_new.
  - apply ids_unique_cons in Hu as [Hu Hhead].
    change (bool_decide (_id e = Some id)) with (has_id id e).
    destruct (has_id id e) eqn:He.
    + apply bool_decide_eq_true in He.
      cbn [snd List.filter]. rewrite has_id_new.
      f_equal. apply not_has_id_filter. by apply Hhead.
    + destruct (put_entry id d l) as [r l'] eqn:Hput. cbn [snd List.filter] in *.
      rewrite He. by apply IH.
Qed.

Lemma omap_id_cons (e : Entry) (l : list Entry) :
  omap _id (e :: l)
  = match _id e with
    | Some i => i :: omap _id l
    | None => omap _id l
    end.
Proof. done. Qed.

Lemma put_entry_ids (id : string) (d : Document) (l : list Entry) :
  omap _id (put_entry id d l).2
  = match (put_entry id d l).1 with
    | Updated => omap _id l
    | Created => omap _id l ++ [id]
    end
  /\ ((put_entry id d l).1 = Updated <-> id ∈ omap _id l).
Proof.
  induction l as [|e l [IH1 IH2]]; cbn [put_entry].
  - split; [done|]. split; [done|]. intros Hin. by apply elem_of_nil in Hin.
  - destruct (bool_decide (_id e = Some id)) eqn:He.
    + apply bool_decide_eq_true in He. cbn [fst snd].
      rewrite !omap_id_cons, He. cbn [_id].
      split; [done|]. split; [intros _; apply list_elem_of_here|done].
    + apply bool_decide_eq_false in He.
      destruct (put_entry id d l) as [r l'] eqn:Hput. cbn [fst snd] in *.
      rewrite !omap_id_cons. destruct (_id e) as [i|] eqn:Hid.
      * rewrite IH1. split; [by destruct r|].
        rewrite IH2, elem_of_cons. split; [by right|].
        intros [->|?]; done.
      * done.
Qed.

Lemma put_entry_unique (id : string) (d : Document) (l : list Entry) :
  ids_unique l -> ids_unique (put_entry id d l).2.
Proof.
  unfold ids_unique. intros Hu.
  destruct (put_entry_ids id d l) as [Hids Hres]. rewrite Hids.
  destruct (put_entry id d l).1 eqn:Hr; [|done].
  apply NoDup_app. split; [done|]. split; [|apply NoDup_singleton].
  intros x Hx Hx'. apply list_elem_of_singleton in Hx' as ->.
  apply Hres in Hx. congruence.
Qed.

Lemma put_entry_again (id : string) (d : Document) (l : list Entry) :
  put_entry id d (put_entry id d l).2 = (Updated, (put_entry id d l).2).
Proof.
  induction l as [|e l IH]; cbn [put_entry].
  - cbn [snd put_entry _id]. by rewrite bool_decide_eq_true_2.
  - destruct (bool_decide (_id e = Some id)) eqn:He.
    + cbn [snd put_entry _id]. by rewrite bool_decide_eq_true_2.
    + destruct (put_entry id d l) as [r l'] eqn:Hput. cbn [snd put_entry] in *.
      by rewrite He, IH.
Qed.

Lemma put_entry_result_length (id : string) (d : Document) (l : list Entry) :
  length (put_entry id d l).2
  = match (put_entry id d l).1 with
    | Updated => length l
    | Created => S (length l)
    end.
Proof.
  induction l as [|e l IH]; simpl; [done|].
  destruct (bool_decide (_id e = Some id)); simpl; [done|].
  destruct (put_entry id d l) as [r l']. simpl in *. rewrite IH. by destruct r.
Qed.

(** A served save of an agent, with what it returns. *)
Lemma save_agent_result (now : datetime) (a : AgentModel.t) (w : World) :
  quiet w ->
  exists w1,
    AgentModel_save_to_elasticsearch now a w
    = (Ret (put_entry (agent_key a) (AgentModel.to_dict a) (active_docs now w)).1, w1)
    /\ quiet w1
    /\ active_docs now w1
       = (put_entry (agent_key a) (AgentModel.to_dict a) (active_docs now w)).2.
Proof.
  intros Hq. unfold AgentModel_save_to_elasticsearch, try_except, bind.
  destruct (get_index_name_quiet now w Hq) as (w0 & Hk & Hq0). rewrite Hk.
  apply get_index_name_ret in Hk as (_ & [ix Hix] & Hdocs & _).
  unfold es_index. rewrite (quiet_next_fault w0 Hq0), Hix. simpl.
  rewrite <- Hdocs. unfold active_docs at 1 3. rewrite Hix. fold (agent_key a).
  destruct (put_entry (agent_key a) (AgentModel.to_dict a) (idx_docs ix)) as [r l'] eqn:Hput.
  eexists. split; [done|]. split.
  - apply quiet_with_indices. by apply quiet_advance.
  - unfold active_docs. simpl. by rewrite lookup_insert_eq.
Qed.

(** X1. Saving an agent is an upsert keyed by [agent_<agent_id>]: in a world
    whose store serves the calls and whose active partition holds no
    identifier twice, the save returns, afterwards exactly one hit carries
    the agent's identifier and it holds the agent's normalized document,
    every hit under another identifier (events included) is as before and
    in the same order, identifiers are still unique, and the partition grew
    by one hit when the identifier was new and not at all when it was
    there. *)
Theorem agent_save_upsert (now : datetime) (a : AgentModel.t) (w : World) :
  quiet w -> ids_unique (active_docs now w) ->
  exists r w1,
    AgentModel_save_to_elasticsearch now a w = (Ret r, w1)
    /\ List.filter (has_id (agent_key a)) (active_docs now w1) = [stored_agent a]
    /\ List.filter (fun e => negb (has_id (agent_key a) e)) (active_docs now w1)
       = List.filter (fun e => negb (has_id (agent_key a) e)) (active_docs now w)
    /\ ids_unique (active_docs now w1)
    /\ (r = Updated <-> agent_key a ∈ omap _id (active_docs now w))
    /\ length (active_docs now w1)
       = match r with
         | Updated => length (active_docs now w)
         | Created => S (length (active_docs now w))
         end.
Proof.
  intros Hq Hu. destruct (save_agent_result now a w Hq) as (w1 & Hsave & _ & Hdocs).
  eexists _, w1. split; [exact Hsave|]. rewrite Hdocs.
  split; [by apply put_entry_own|]. split; [apply put_entry_others|].
  split; [by apply put_entry_unique|]. split; [apply put_entry_ids|].
  apply put_entry_result_length.
Qed.

Lemma agent_save_upsert_witness :
  quiet mixed_world /\ ids_unique (active_docs (at_day 3 9) mixed_world)
  /\ exists w1,
       AgentModel_save_to_elasticsearch (at_day 3 9) later_agent mixed_world = (Ret Updated, w1)
       /\ List.filter (has_id "agent_001") (active_docs (at_day 3 9) w1)
          = [stored_agent later_agent]
       /\ length (active_docs (at_day 3 9) w1) = 3%nat.
Proof.
  assert (Hq : quiet mixed_world) by constructor.
  assert (Hu : ids_unique (active_docs (at_day 3 9) mixed_world)).
  { unfold ids_unique. vm_compute. apply NoDup_singleton. }
  split; [exact Hq|]. split; [exact Hu|].
  destruct (agent_save_upsert (at_day 3 9) later_agent mixed_world Hq Hu)
    as (r & w1 & Hsave & Hown & _ & _ & Hres & Hlen).
  assert (Hr : r = Updated).
  { apply Hres. vm_compute. apply list_elem_of_here. }
  subst r. exists w1. split; [exact Hsave|]. split; [exact Hown|exact Hlen].
Defined.

(** X2. Saving the same agent record a second time changes nothing: in a
    world whose store serves the calls the second save returns [Updated]
    and the active partition holds the same hits, in the same order, as
    after the first save. *)
Theorem agent_save_idempotent (now : datetime) (a : AgentModel.t) (w : World) :
  quiet w ->
  exists r w1 w2,
    AgentModel_save_to_elasticsearch now a w = (Ret r, w1)
    /\ AgentModel_save_to_elasticsearch now a w1 = (Ret Updated, w2)
    /\ active_docs now w2 = active_docs now w1.
Proof.
  intros Hq. destruct (save_agent_result now a w Hq) as (w1 & Hsave & Hq1 & Hdocs).
  destruct (save_agent_result now a w1 Hq1) as (w2 & Hsave2 & _ & Hdocs2).
  rewrite Hdocs, put_entry_again in Hsave2, Hdocs2.
  eexists _, w1, w2. split; [exact Hsave|]. split; [exact Hsave2|].
  by rewrite Hdocs2, Hdocs.
Qed.

Lemma agent_save_idempotent_witness :
  quiet empty_world
  /\ exists w1 w2,
       AgentModel_save_to_elasticsearch (at_day 3 9) later_agent empty_world = (Ret Created, w1)
       /\ AgentModel_save_to_elasticsearch (at_day 3 9) later_agent w1 = (Ret Updated, w2)
       /\ active_docs (at_day 3 9) w2 = [stored_agent later_agent].
Proof.
  assert (Hq : quiet empty_world) by constructor.
  split; [exact Hq|].
  destruct (agent_save_idempotent (at_day 3 9) later_agent empty_world Hq)
    as (r & w1 & w2 & Hsave & Hsave2 & Hdocs).
  assert (Hw1 : (AgentModel_save_to_elasticsearch (at_day 3 9) later_agent empty_world).1
                = Ret Created
                /\ active_docs (at_day 3 9)
                     (AgentModel_save_to_elasticsearch (at_day 3 9) later_agent empty_world).2
                   = [stored_agent later_agent]) by (split; reflexivity).
  rewrite Hsave in Hw1. destruct Hw1 as [Hr Hd]. simpl in Hr, Hd. injection Hr as ->.
  exists w1, w2. split; [exact Hsave|]. split; [exact Hsave2|]. by rewrite Hdocs.
Defined.

(** X3. Saving events only ever appends: in a world whose store serves the
    calls, two saves in a row both return [Created] and leave the active
    partition with the hits it had, in their order, followed by the two
    normalized events, each under an identifier of the store's; this holds
    also when the two events are equal, and identifiers given by callers
    stay unique. *)
Theorem event_save_appends (now : datetime) (ev1 ev2 : EventModel.t) (w : World) :
  quiet w ->
  exists w1 w2,
    EventModel_save_to_elasticsearch now ev1 w = (Ret Created, w1)
    /\ EventModel_save_to_elasticsearch now ev2 w1 = (Ret Created, w2)
    /\ active_docs now w2
       = active_docs now w
         ++ [ {| _id := None; _source := EventModel.to_dict ev1 |};
              {| _id := None; _source := EventModel.to_dict ev2 |} ]
    /\ (ids_unique (active_docs now w) -> ids_unique (active_docs now w2)).
Proof.
  intros Hq. destruct (save_event_quiet now ev1 w Hq) as (w1 & Hsave1 & Hq1 & Hdocs1).
  destruct (save_event_quiet now ev2 w1 Hq1) as (w2 & Hsave2 & _ & Hdocs2).
  exists w1, w2. split; [done|]. split; [done|].
  assert (Hdocs : active_docs now w2
    = active_docs now w
      ++ [ {| _id := None; _source := EventModel.to_dict ev1 |};
           {| _id := None; _source := EventModel.to_dict ev2 |} ]).
  { by rewrite Hdocs2, Hdocs1, <- app_assoc. }
  split; [done|]. unfold ids_unique. rewrite Hdocs, omap_app. simpl.
  by rewrite app_nil_r.
Qed.

Lemma event_save_appends_witness :
  quiet mixed_world
  /\ exists w1 w2,
       EventModel_save_to_elasticsearch (at_day 3 9) boundary_event mixed_world
       = (Ret Created, w1)
       /\ EventModel_save_to_elasticsearch (at_day 3 9) boundary_event w1 = (Ret Created, w2)
       /\ length (active_docs (at_day 3 9) w2) = 5%nat.
Proof.
  assert (Hq : quiet mixed_world) by constructor.
  split; [exact Hq|].
  destruct (event_save_appends (at_day 3 9) boundary_event boundary_event mixed_world Hq)
    as (w1 & w2 & Hsave1 & Hsave2 & Hdocs & _).
  exists w1, w2. split; [exact Hsave1|]. split; [exact Hsave2|]. by rewrite Hdocs.
Defined.

Lemma raise_handler_inv {A} (m : M A) (w w' : World) (x : exn) :
  try_except m (fun e => raise e) w = (Raise x, w') -> m w = (Raise x, w').
Proof.
  intros Hrun. apply try_except_raise_inv in Hrun as (e & w1 & Hm & Hh).
  by injection Hh as -> ->.
Qed.

(** X4. A save fails only because the store failed, and hands that failure
    on as it is: when either save raises [x], the store failed a client call
    of the save with that very [x], the call was the save's last one (at
    most three were made: existence check, creation, write), every index
    that existed is untouched, and the hits of the active partition are
    those from before. *)
Theorem save_failure_passthrough
    (now : datetime) (a : AgentModel.t) (ev : EventModel.t) (w w' : World) (x : exn) :
  (AgentModel_save_to_elasticsearch now a w = (Raise x, w') ->
   failed_by_store now (CallIndex (index_name_at now) (Some (agent_key a))) w w' x)
  /\ (EventModel_save_to_elasticsearch now ev w = (Raise x, w') ->
      failed_by_store now (CallIndex (index_name_at now) None) w w' x).
Proof.
  split; intros Hrun; apply raise_handler_inv in Hrun.
  - apply (after_partition_raise now _
             (fun k => es_index k (Some (agent_key a)) (AgentModel.to_dict a)) w w' x);
      [apply final_call_index|exact Hrun].
  - apply (after_partition_raise now _ (fun k => es_index k None (EventModel.to_dict ev))
             w w' x); [apply final_call_index|exact Hrun].
Qed.

Lemma save_failure_passthrough_witness :
  exists w',
    EventModel_save_to_elasticsearch (at_day 2 0) boundary_event
      (failing_world (OtherError "ConnectionTimeout"))
    = (Raise (OtherError "ConnectionTimeout"), w')
    /\ failed_by_store (at_day 2 0) (CallIndex "2024_08_agents_data" None)
         (failing_world (OtherError "ConnectionTimeout")) w' (OtherError "ConnectionTimeout").
Proof.
  eexists. split; [reflexivity|].
  apply (save_failure_passthrough (at_day 2 0) later_agent boundary_event). reflexivity.
Defined.

(** A run of partition resolution and a write, whatever the store does. *)
Lemma index_run (now : datetime) (id : option string) (d : Document)
    (w w' : World) (r : outcome IndexResult) :
  (index_name <- get_index_name now ;; es_index index_name id d) w = (r, w') ->
  same_schema w w'
  /\ (forall j, j <> index_name_at now -> indices w' !! j = indices w !! j)
  /\ (indices w !! index_name_at now = None ->
      forall ix, indices w' !! index_name_at now = Some ix -> idx_mapping ix = mapping).
Proof.
  unfold bind. pose proof (get_index_name_cases now w) as Hk. cbv zeta in Hk.
  destruct (get_index_name now w) as [[k'|e] w1]; revert Hk;
    generalize (index_name_at now); intros k Hk.
  - destruct Hk as (-> & Hkept & Hix & Hother & _).
    unfold es_index. rewrite Hix.
    set (ix1 := default (empty_index mapping) (indices w !! k)) in *.
    change (default (empty_index []) (Some ix1)) with ix1.
    assert (Hix1 : forall ix, indices w !! k = Some ix -> ix1 = ix).
    { intros ix Hw. unfold ix1. by rewrite Hw. }
    assert (Hfresh : indices w !! k = None -> idx_mapping ix1 = mapping).
    { intros Hw. unfold ix1. by rewrite Hw. }
    destruct (next_fault w1).
    + intros [= <- <-]. cbn [indices advance]. split; [|split].
      * intros j ix Hj. exists ix. split; [by apply Hkept|done].
      * done.
      * intros Hw ix Hix'. rewrite Hix in Hix'. injection Hix' as <-. by apply Hfresh.
    + destruct (write_entry id d (idx_docs ix1)) as [r' docs]. cbv beta iota.
      intros [= <- <-]. unfold with_indices. cbn [indices]. split; [|split].
      * intros j ix Hj. destruct (decide (j = k)) as [->|Hne].
        -- eexists. split; [apply lookup_insert_eq|].
           cbn [idx_mapping]. by rewrite (Hix1 ix Hj).
        -- exists ix. split; [|done]. unfold with_indices. cbn [indices].
           rewrite lookup_insert_ne by done. by rewrite Hother.
      * intros j Hj. rewrite lookup_insert_ne by done. by apply Hother.
      * intros Hw ix. rewrite lookup_insert_eq. intros [= <-]. by apply Hfresh.
  - destruct Hk as (Hsame & _). intros [= <- <-]. split; [|split].
    + intros j ix Hj. exists ix. by rewrite Hsame.
    + intros j _. by rewrite Hsame.
    + intros Hw ix Hix. rewrite Hsame in Hix. congruence.
Qed.

(** X5. A save never alters a schema and never touches another partition:
    however either save ends, whatever the store does, every index that
    existed is still there with its schema, every index other than the
    partition of the month is exactly as it was, and if the partition of
    the month is there afterwards without having been there before, it
    carries the fixed schema of [create_index_with_mapping]. *)
Theorem saves_keep_schema
    (now : datetime) (a : AgentModel.t) (ev : EventModel.t)
    (w w' : World) (r : outcome IndexResult) :
  AgentModel_save_to_elasticsearch now a w = (r, w')
  \/ EventModel_save_to_elasticsearch now ev w = (r, w') ->
  same_schema w w'
  /\ (forall j, j <> index_name_at now -> indices w' !! j = indices w !! j)
  /\ (indices w !! index_name_at now = None ->
      forall ix, indices w' !! index_name_at now = Some ix -> idx_mapping ix = mapping).
Proof.
  assert (Hhandler : forall (m : M IndexResult) w0,
            try_except m (fun e => raise e) w0 = m w0).
  { intros m w0. unfold try_except, raise. by destruct (m w0) as [[?|?] ?]. }
  intros [Hrun|Hrun].
  - unfold AgentModel_save_to_elasticsearch in Hrun. rewrite Hhandler in Hrun.
    by apply (index_run now _ _ w w' r Hrun).
  - unfold EventModel_save_to_elasticsearch in Hrun. rewrite Hhandler in Hrun.
    by apply (index_run now _ _ w w' r Hrun).
Qed.

Lemma saves_keep_schema_witness :
  exists w',
    AgentModel_save_to_elasticsearch (at_day 3 9) later_agent empty_world = (Ret Created, w')
    /\ forall ix, indices w' !! "2024_08_agents_data" = Some ix -> idx_mapping ix = mapping.
Proof.
  eexists. split; [reflexivity|].
  eapply (saves_keep_schema (at_day 3 9) later_agent boundary_event empty_world).
  - left. reflexivity.
  - reflexivity.
Defined.

(** ** Reading *)

Lemma try_except_world {A} (m : M A) (h : exn -> M A) (w : World) :
  raises_only h -> (try_except m h w).2 = (m w).2.
Proof.
  intros Hh. unfold try_except. destruct (m w) as [[a|e] w1]; [done|].
  by destruct (Hh e w1) as [e' ->].
Qed.

Lemma handle_es_exceptions_world {A} (exn_str : exn -> string) (m : M A) (w : World) :
  (handle_es_exceptions exn_str m w).2 = (m w).2.
Proof. apply try_except_world, raises_only_decorator. Qed.

Lemma handle_es_exceptions_raise_inv {A} (exn_str : exn -> string) (m : M A)
    (w w' : World) (x : exn) :
  handle_es_exceptions exn_str m w = (Raise x, w') ->
  exists e, m w = (Raise e, w') /\ x = decorated_fault exn_str e.
Proof.
  intros Hrun. apply try_except_raise_inv in Hrun as (e & w1 & Hm & Hh).
  exists e. destruct e; injection Hh as <- <-; by split.
Qed.

Lemma wrapped_raise_inv {A} (m : M A) (f : exn -> exn) (w w' : World) (x : exn) :
  try_except m (fun e => raise (f e)) w = (Raise x, w') ->
  exists e, m w = (Raise e, w') /\ x = f e.
Proof.
  intros Hrun. apply try_except_raise_inv in Hrun as (e & w1 & Hm & Hh).
  exists e. injection Hh as <- <-. by split.
Qed.

Lemma reading_search {B} (k : string) (body : SearchBody) (f : SearchResponse -> B) :
  reading (response <- es_search k body ;; ret (f response)).
Proof.
  intros w1. unfold bind, es_search, ret.
  destruct (next_fault w1); [done|]. by destruct (indices w1 !! k).
Qed.

Lemma reading_count (k : string) (q : Query) : reading (es_count k q).
Proof.
  intros w1. unfold es_count.
  destruct (next_fault w1); [done|]. by destruct (indices w1 !! k).
Qed.

(** What a run of partition resolution and a reading call does to the
    store, however it ends. *)
Lemma read_run {A} (now : datetime) (c : ApiCall) (final : string -> M A) (w : World) :
  final_call (index_name_at now) c (final (index_name_at now)) ->
  reading (final (index_name_at now)) ->
  read_effect now c w ((index_name <- get_index_name now ;; final index_name) w).2.
Proof.
  intros Hfinal Hread. unfold bind.
  pose proof (get_index_name_cases now w) as Hk. cbv zeta in Hk.
  destruct (get_index_name now w) as [[k'|e] w1].
  - destruct Hk as (-> & Hkept & Hix & Hother & cs & Hcs & Hshape).
    specialize (Hfinal w1 (ex_intro _ _ Hix)). specialize (Hread w1).
    destruct (final (index_name_at now) w1) as [r w2]. simpl in Hread |- *.
    assert (Hcs2 : consumed w1 w2 [c]) by (destruct r; [done|by destruct Hfinal]).
    split; [|split; [|split]].
    + intros j ix Hj. rewrite Hread. by apply Hkept.
    + intros j Hj. rewrite Hread. by apply Hother.
    + rewrite Hread, Hix. destruct (indices w !! index_name_at now); [by left|by right].
    + exists (cs ++ [c]). split; [by apply (consumed_trans w w1 w2)|].
      right. by apply partition_calls_then.
  - destruct Hk as (Hsame & cs & Hcs & Hshape & _). simpl.
    split; [|split; [|split]].
    + intros j ix Hj. by rewrite Hsame.
    + intros j _. by rewrite Hsame.
    + left. by rewrite Hsame.
    + exists cs. split; [done|by left].
Qed.

Lemma observe_snd {A} (r : outcome A * World) : (observe r).2 = r.2.
Proof. done. Qed.

Lemma observe_fst {A} (r : outcome A * World) : (observe r).1 = outcome_exn r.1.
Proof. done. Qed.

Ltac read_effect_of final_lemma reading_lemma :=
  rewrite observe_snd;
  unfold load_agents, load_group_events_from_elasticsearch,
    load_from_elasticsearch_with_time_range, load_all_events_from_elasticsearch,
    get_events_in_timerange, get_high_level_event_count, get_events_for_pie_chart,
    search_active;
  repeat first [ rewrite handle_es_exceptions_world
               | rewrite try_except_world by apply raises_only_raise ];
  apply read_run; [apply final_lemma|apply reading_lemma].

Lemma read_effect_all
    (exn_str : exn -> string) (now start_time end_time : datetime) (op : ReadOp) (w : World) :
  read_effect now (read_call op (index_name_at now)) w
    (run_read exn_str now start_time end_time op w).2.
Proof.
  destruct op; cbn [run_read read_call].
  - read_effect_of @final_call_search @reading_search.
  - read_effect_of @final_call_search @reading_search.
  - read_effect_of @final_call_search @reading_search.
  - read_effect_of @final_call_search @reading_search.
  - read_effect_of @final_call_search @reading_search.
  - read_effect_of @final_call_count @reading_count.
  - read_effect_of @final_call_search @reading_search.
  - rewrite load_messages_unfold. read_effect_of @final_call_search @reading_search.
Qed.

Lemma op_calls_no_write (k : string) (op : ReadOp) (cs : list ApiCall) :
  op_calls k (read_call op k) cs -> forall k' id, CallIndex k' id ∉ cs.
Proof.
  intros Hshape k' id Hin.
  destruct Hshape as [[-> | ->]|[-> | ->]]; destruct op; cbn [read_call] in Hin;
    repeat (apply elem_of_cons in Hin as [Hin|Hin]; [discriminate Hin|]);
    by apply elem_of_nil in Hin.
Qed.

(** X6. A read never changes what is stored: however any of the eight reads
    ends, whatever the store does, every index that existed is exactly as it
    was (schema and hits), the hits of the active partition are those from
    before, the only index that may be new is the partition of the month,
    created empty with the fixed schema, and the read made at most three
    client calls, none of them a write: the existence check, at most one
    creation, at most one search (a count for
    [get_high_level_event_count]). *)
Theorem reads_keep_store
    (exn_str : exn -> string) (now start_time end_time : datetime) (op : ReadOp) (w : World) :
  let w' := (run_read exn_str now start_time end_time op w).2 in
  read_effect now (read_call op (index_name_at now)) w w'
  /\ active_docs now w' = active_docs now w
  /\ exists cs, consumed w w' cs
                /\ (1 <= length cs <= 3)%nat
                /\ forall k id, CallIndex k id ∉ cs.
Proof.
  intros w'. pose proof (read_effect_all exn_str now start_time end_time op w) as Heff.
  fold w' in Heff. split; [exact Heff|].
  destruct Heff as (Hkept & _ & Hk & cs & Hcs & Hshape). split.
  - unfold active_docs. destruct Hk as [->|[-> ->]]; done.
  - exists cs. split; [done|]. split; [by eapply op_calls_length|].
    by eapply op_calls_no_write.
Qed.

Lemma reads_keep_store_witness :
  active_docs (at_day 5 0)
    (run_read plain_str (at_day 5 0) (at_day 2 0) (at_day 3 0) (LoadMessages None 20)
       (failing_world (OtherError "ConnectionTimeout"))).2
  = []
  /\ kept mixed_world
       (run_read plain_str (at_day 5 0) (at_day 2 0) (at_day 3 0) LoadAllEvents mixed_world).2.
Proof.
  split.
  - by destruct (reads_keep_store plain_str (at_day 5 0) (at_day 2 0) (at_day 3 0)
                   (LoadMessages None 20) (failing_world (OtherError "ConnectionTimeout")))
      as (_ & -> & _).
  - by destruct (reads_keep_store plain_str (at_day 5 0) (at_day 2 0) (at_day 3 0)
                   LoadAllEvents mixed_world) as ((Hkept & _) & _).
Defined.

(** In a quiet world the partition of the month is there after a run of
    partition resolution and a reading call. *)
Lemma read_run_quiet {A} (now : datetime) (final : string -> M A) (w : World) :
  quiet w -> reading (final (index_name_at now)) ->
  indices ((index_name <- get_index_name now ;; final index_name) w).2 !! index_name_at now
  = Some (default (empty_index mapping) (indices w !! index_name_at now)).
Proof.
  intros Hq Hread. unfold bind.
  destruct (get_index_name_quiet now w Hq) as (w1 & Hrun & _).
  pose proof (get_index_name_cases now w) as Hk. cbv zeta in Hk. rewrite Hrun in Hk.
  destruct Hk as (_ & _ & Hix & _). rewrite Hrun.
  destruct (final (index_name_at now) w1) as [r w2] eqn:Hfin.
  specialize (Hread w1). rewrite Hfin in Hread. simpl in *. by rewrite Hread.
Qed.

Ltac read_quiet_of reading_lemma :=
  rewrite observe_snd;
  unfold load_agents, load_group_events_from_elasticsearch,
    load_from_elasticsearch_with_time_range, load_all_events_from_elasticsearch,
    get_events_in_timerange, get_high_level_event_count, get_events_for_pie_chart,
    search_active;
  repeat first [ rewrite handle_es_exceptions_world
               | rewrite try_except_world by apply raises_only_raise ];
  apply read_run_quiet; [assumption|apply reading_lemma].

Lemma read_has_partition
    (exn_str : exn -> string) (now start_time end_time : datetime) (op : ReadOp) (w : World) :
  quiet w ->
  indices (run_read exn_str now start_time end_time op w).2 !! index_name_at now
  = Some (default (empty_index mapping) (indices w !! index_name_at now)).
Proof.
  intros Hq. destruct op; cbn [run_read].
  - read_quiet_of @reading_search.
  - read_quiet_of @reading_search.
  - read_quiet_of @reading_search.
  - read_quiet_of @reading_search.
  - read_quiet_of @reading_search.
  - read_quiet_of @reading_count.
  - read_quiet_of @reading_search.
  - rewrite load_messages_unfold. read_quiet_of @reading_search.
Qed.

Lemma observe_raise {A} (r : outcome A * World) (x : exn) :
  (observe r).1 = Some x -> r = (Raise x, (observe r).2).
Proof. destruct r as [[a|e] w']; simpl; [done|]. by intros [= ->]. Qed.

Lemma observe_ret {A} (r : outcome A * World) (a : A) (w' : World) :
  r = (Ret a, w') -> (observe r).1 = None.
Proof. by intros ->. Qed.

Ltac store_failed :=
  match goal with
  | H : _ = (Raise _, _) |- _ =>
      eapply after_partition_raise;
      [|exact H]; first [apply @final_call_search | apply final_call_count]
  end.

(** X7. A read fails only because the store failed, and does not try
    again: in a world whose store serves the calls none of the eight reads
    raises; and when a read raises [x], the store failed one of its client
    calls with some [e], that call was the read's last one, no index that
    existed was touched, and [x] is the fault the read makes of [e]:
    [UserNotFoundError] (404) or [ElasticsearchError] (500) in the three
    decorated event loaders, [ElasticsearchError] in the four undecorated
    reads, and in [load_agents] always an [ElasticsearchError] (500) that
    wraps the [ElasticsearchError] of its own handler, never the not-found
    fault. *)
Theorem read_fails_with_store
    (exn_str : exn -> string) (now start_time end_time : datetime) (op : ReadOp) (w : World) :
  (quiet w -> (run_read exn_str now start_time end_time op w).1 = None)
  /\ (forall x,
        (run_read exn_str now start_time end_time op w).1 = Some x ->
        exists e,
          failed_by_store now (read_call op (index_name_at now)) w
            (run_read exn_str now start_time end_time op w).2 e
          /\ x = read_fault exn_str op e)
  /\ (forall g e, is_domain_fault (read_fault exn_str op e) = true
                  /\ forall m c, read_fault exn_str (LoadAgents g) e <> UserNotFoundError m c).
Proof.
  split; [|split].
  - intros Hq. destruct op as [g|g|id| |sz| |sz|g limit]; cbn [run_read].
    + destruct (load_agents_quiet exn_str now start_time end_time w g Hq)
        as (w' & Hrun). by rewrite Hrun.
    + destruct (load_group_events_quiet exn_str now start_time end_time w g Hq)
        as (w' & Hrun). by rewrite Hrun.
    + destruct (load_agent_events_quiet exn_str now start_time end_time w id Hq)
        as (w' & Hrun). by rewrite Hrun.
    + destruct (load_all_events_quiet exn_str now start_time end_time w Hq)
        as (w' & Hrun). by rewrite Hrun.
    + destruct (get_events_in_timerange_quiet exn_str now start_time end_time w sz Hq)
        as (w' & Hrun). by rewrite Hrun.
    + destruct (count_active_quiet now (high_level_count_query start_time end_time) w Hq)
        as (n & w' & Hrun).
      unfold get_high_level_event_count. by rewrite (try_except_ret _ _ _ _ _ Hrun).
    + destruct (get_events_for_pie_chart_quiet exn_str now start_time end_time w sz Hq)
        as (w' & Hrun). by rewrite Hrun.
    + destruct (load_messages_quiet exn_str now start_time end_time w g limit Hq)
        as (w' & Hrun). by rewrite Hrun.
  - intros x Hx. destruct op as [g|g|id| |sz| |sz|g limit];
      cbn [run_read read_call read_fault] in *;
      apply observe_raise in Hx; rewrite observe_snd in *;
      match type of Hx with _ = (Raise _, ?w1) => set (w' := w1) in * end.
    + apply handle_es_exceptions_raise_inv in Hx as (e1 & Hx & ->).
      apply wrapped_raise_inv in Hx as (e & Hx & ->).
      exists e. split; [|done]. by store_failed.
    + apply handle_es_exceptions_raise_inv in Hx as (e & Hx & ->).
      exists e. split; [|done]. by store_failed.
    + apply handle_es_exceptions_raise_inv in Hx as (e & Hx & ->).
      exists e. split; [|done]. by store_failed.
    + apply handle_es_exceptions_raise_inv in Hx as (e & Hx & ->).
      exists e. split; [|done]. by store_failed.
    + apply wrapped_raise_inv in Hx as (e & Hx & ->).
      exists e. split; [|done]. by store_failed.
    + apply wrapped_raise_inv in Hx as (e & Hx & ->).
      exists e. split; [|done]. by store_failed.
    + apply wrapped_raise_inv in Hx as (e & Hx & ->).
      exists e. split; [|done]. by store_failed.
    + rewrite load_messages_unfold in Hx.
      apply wrapped_raise_inv in Hx as (e & Hx & ->).
      exists e. split; [|done]. unfold search_active in Hx. by store_failed.
  - intros g e. split; [destruct op; cbn [read_fault]; try done; by destruct e|done].
Qed.

Lemma read_fails_with_store_witness :
  quiet mixed_world
  /\ (run_read plain_str (at_day 2 0) (at_day 2 0) (at_day 3 0) (LoadAgents None) mixed_world).1
     = None
  /\ (run_read plain_str (at_day 2 0) (at_day 2 0) (at_day 3 0) (LoadAgents None)
        (failing_world (NotFoundError "index_not_found_exception"))).1
     = Some (ElasticsearchError
               "Elasticsearch error: Error loading agents: index_not_found_exception"
               (Some 500))
  /\ exists e,
       failed_by_store (at_day 2 0) (CallSearch "2024_08_agents_data")
         (failing_world (NotFoundError "index_not_found_exception"))
         (run_read plain_str (at_day 2 0) (at_day 2 0) (at_day 3 0) (LoadAgents None)
            (failing_world (NotFoundError "index_not_found_exception"))).2 e.
Proof.
  assert (Hq : quiet mixed_world) by constructor.
  split; [exact Hq|].
  split.
  { by apply (read_fails_with_store plain_str (at_day 2 0) (at_day 2 0) (at_day 3 0)
                (LoadAgents None) mixed_world). }
  split; [reflexivity|].
  destruct (read_fails_with_store plain_str (at_day 2 0) (at_day 2 0) (at_day 3 0)
              (LoadAgents None) (failing_world (NotFoundError "index_not_found_exception")))
    as (_ & Hfail & _).
  destruct (Hfail _ eq_refl) as (e & Hstore & _). by exists e.
Defined.

(** ** Partitions and months *)

Lemma digit_inj (x y : Z) : digit x = digit y -> x mod 10 = y mod 10.
Proof.
  unfold digit. intros [= H].
  apply (f_equal N_of_ascii) in H.
  pose proof (Z.mod_pos_bound x 10 ltac:(lia)) as Hx.
  pose proof (Z.mod_pos_bound y 10 ltac:(lia)) as Hy.
  rewrite !N_ascii_embedding in H by lia. lia.
Qed.

Lemma index_name_inj (now now' : datetime) :
  valid_clock now -> valid_clock now' ->
  index_name_at now = index_name_at now' ->
  year now = year now' /\ month now = month now'.
Proof.
  intros [Hy Hm] [Hy' Hm'].
  unfold index_name_at, strftime_Y, strftime_m.
  remember (year now) as y. remember (year now') as y'.
  remember (month now) as m. remember (month now') as m'.
  intros H.
  assert (Hd : digit (y / 1000) = digit (y' / 1000) /\ digit (y / 100) = digit (y' / 100)
               /\ digit (y / 10) = digit (y' / 10) /\ digit y = digit y'
               /\ digit (m / 10) = digit (m' / 10) /\ digit m = digit m').
  { unfold digit in *. simpl in H. injection H as H1 H2 H3 H4 H5 H6.
    by rewrite H1, H2, H3, H4, H5, H6. }
  destruct Hd as (D1 & D2 & D3 & D4 & D5 & D6).
  apply digit_inj in D1, D2, D3, D4, D5, D6.
  clear H Heqy Heqy' Heqm Heqm'.
  split; Z.div_mod_to_equations; lia.
Qed.

Lemma count_quiet_value (exn_str : exn -> string) (now s e : datetime) (w : World) :
  quiet w ->
  exists w', get_high_level_event_count exn_str now s e w
             = (Ret (run_count (high_level_count_query s e) (active_docs now w)), w').
Proof.
  intros Hq.
  destruct (count_active_quiet now (high_level_count_query s e) w Hq) as (n & w' & Hrun).
  pose proof Hrun as Hret. apply count_active_ret in Hret as [-> _].
  exists w'. unfold get_high_level_event_count. by apply try_except_ret.
Qed.

Lemma save_event_other_partition (now now' : datetime) (ev : EventModel.t) (w w1 : World)
    (r : outcome IndexResult) :
  index_name_at now <> index_name_at now' ->
  EventModel_save_to_elasticsearch now ev w = (r, w1) ->
  active_docs now' w1 = active_docs now' w.
Proof.
  intros Hne Hrun. unfold EventModel_save_to_elasticsearch in Hrun.
  assert (Hbody : (index_name <- get_index_name now ;;
                   es_index index_name None (EventModel.to_dict ev)) w = (r, w1)).
  { revert Hrun. unfold try_except, raise.
    by destruct ((index_name <- get_index_name now ;;
                  (let event_dict := EventModel.to_dict ev in
                   es_index index_name None event_dict)) w) as [[?|?] ?]. }
  apply index_run in Hbody as (_ & Hother & _).
  unfold active_docs. rewrite Hother; [done|]. congruence.
Qed.

(** X8. The partition key tells months apart, and a read sees the partition
    of its own month only: for clock readings with a four-digit year, two
    keys are equal exactly when year and month are; and an event saved
    while the clock is in one month leaves untouched what the count and
    the message feed return while the clock is in another month, whatever
    the time window asked for. *)
Theorem partitions_are_isolated
    (exn_str : exn -> string) (now now' start_time end_time : datetime)
    (ev : EventModel.t) (g : option (list string)) (limit : Z) (w : World) :
  valid_clock now -> valid_clock now' ->
  (index_name_at now = index_name_at now' <-> year now = year now' /\ month now = month now')
  /\ (quiet w -> (year now, month now) <> (year now', month now') ->
      exists w1 n page total w2 w3 w4 w5,
        EventModel_save_to_elasticsearch now ev w = (Ret Created, w1)
        /\ active_docs now' w1 = active_docs now' w
        /\ get_high_level_event_count exn_str now' start_time end_time w = (Ret n, w2)
        /\ get_high_level_event_count exn_str now' start_time end_time w1 = (Ret n, w3)
        /\ load_messages exn_str now' start_time end_time g limit w = (Ret (page, total), w4)
        /\ load_messages exn_str now' start_time end_time g limit w1
           = (Ret (page, total), w5)).
Proof.
  intros Hv Hv'. split.
  - split; [by apply index_name_inj|]. intros [Hy Hm]. by apply index_name_same_month.
  - intros Hq Hdiff.
    assert (Hne : index_name_at now <> index_name_at now').
    { intros Heq. apply index_name_inj in Heq as [Hy Hm]; [|done..]. apply Hdiff. congruence. }
    destruct (save_event_quiet now ev w Hq) as (w1 & Hsave & Hq1 & _).
    pose proof (save_event_other_partition now now' ev w w1 _ Hne Hsave) as Hdocs.
    destruct (count_quiet_value exn_str now' start_time end_time w Hq) as (w2 & Hc).
    destruct (count_quiet_value exn_str now' start_time end_time w1 Hq1) as (w3 & Hc1).
    destruct (load_messages_quiet exn_str now' start_time end_time w g limit Hq) as (w4 & Hm).
    destruct (load_messages_quiet exn_str now' start_time end_time w1 g limit Hq1)
      as (w5 & Hm1).
    rewrite Hdocs in Hc1, Hm1.
    eexists w1, _, _, _, w2, w3, w4, w5. by repeat split.
Qed.

Lemma partitions_are_isolated_witness :
  valid_clock (mk_datetime 2024 7 31 9 0 0 0) /\ valid_clock (at_day 5 0)
  /\ quiet two_month_world
  /\ exists w1 w3,
       EventModel_save_to_elasticsearch (mk_datetime 2024 7 31 9 0 0 0)
         (sample_event (mk_datetime 2024 7 31 8 0 0 0) 13 "group1") two_month_world
       = (Ret Created, w1)
       /\ length (active_docs (mk_datetime 2024 7 31 9 0 0 0) w1) = 2%nat
       /\ get_high_level_event_count plain_str (at_day 5 0)
            (mk_datetime 2024 7 1 0 0 0 0) (mk_datetime 2024 9 1 0 0 0 0) w1
          = (Ret 1, w3).
Proof.
  assert (Hv : valid_clock (mk_datetime 2024 7 31 9 0 0 0)) by (repeat split; by vm_compute).
  assert (Hv' : valid_clock (at_day 5 0)) by (repeat split; by vm_compute).
  assert (Hq : quiet two_month_world) by constructor.
  split; [exact Hv|]. split; [exact Hv'|]. split; [exact Hq|].
  destruct (partitions_are_isolated plain_str (mk_datetime 2024 7 31 9 0 0 0) (at_day 5 0)
              (mk_datetime 2024 7 1 0 0 0 0) (mk_datetime 2024 9 1 0 0 0 0)
              (sample_event (mk_datetime 2024 7 31 8 0 0 0) 13 "group1") None 20
              two_month_world Hv Hv') as [_ Hiso].
  destruct (Hiso Hq) as (w1 & n & page & total & w2 & w3 & w4 & w5
                          & Hsave & _ & Hc & Hc1 & _); [by vm_compute|].
  exists w1, w3. split; [exact Hsave|]. split.
  - assert (Hlen : length (active_docs (mk_datetime 2024 7 31 9 0 0 0)
                     (EventModel_save_to_elasticsearch (mk_datetime 2024 7 31 9 0 0 0)
                        (sample_event (mk_datetime 2024 7 31 8 0 0 0) 13 "group1")
                        two_month_world).2) = 2%nat) by reflexivity.
    by rewrite Hsave in Hlen.
  - assert (Hn : (get_high_level_event_count plain_str (at_day 5 0)
                    (mk_datetime 2024 7 1 0 0 0 0) (mk_datetime 2024 9 1 0 0 0 0)
                    two_month_world).1 = Ret 1) by reflexivity.
    rewrite Hc in Hn. simpl in Hn. injection Hn as ->. exact Hc1.
Defined.

(** ** The values of the reads *)

Lemma read_result_quiet (exn_str : exn -> string) (now start_time end_time : datetime)
    (op : ReadOp) (w : World) :
  quiet w ->
  exists w', read_result exn_str now start_time end_time op w
             = (Ret (read_answer start_time end_time op (active_docs now w)), w').
Proof.
  intros Hq. destruct op as [g|g|id| |sz| |sz|g limit]; cbn [read_result read_answer].
  - destruct (load_agents_quiet exn_str now start_time end_time w g Hq) as (w' & ->).
    by exists w'.
  - destruct (load_group_events_quiet exn_str now start_time end_time w g Hq) as (w' & ->).
    by exists w'.
  - destruct (load_agent_events_quiet exn_str now start_time end_time w id Hq) as (w' & ->).
    by exists w'.
  - destruct (load_all_events_quiet exn_str now start_time end_time w Hq) as (w' & ->).
    by exists w'.
  - destruct (get_events_in_timerange_quiet exn_str now start_time end_time w sz Hq)
      as (w' & ->). by exists w'.
  - destruct (count_quiet_value exn_str now start_time end_time w Hq) as (w' & ->).
    by exists w'.
  - destruct (get_events_for_pie_chart_quiet exn_str now start_time end_time w sz Hq)
      as (w' & ->). by exists w'.
  - destruct (load_messages_quiet exn_str now start_time end_time w g limit Hq) as (w' & ->).
    by exists w'.
Qed.

Lemma matching_none (q : Query) (docs : list Entry) :
  (forall h, h ∈ docs -> matches q (_source h) = false) -> matching q docs = [].
Proof.
  unfold matching. induction docs as [|h l IH]; [done|]. intros Hnone. simpl.
  rewrite (Hnone h) by apply list_elem_of_here.
  apply IH. intros h' Hh'. apply Hnone. by apply list_elem_of_further.
Qed.

Lemma run_search_none (body : SearchBody) (docs : list Entry) :
  matching (query body) docs = [] ->
  run_search body docs = {| hits_hits := []; hits_total_value := 0 |}.
Proof.
  intros Hnone. unfold run_search. rewrite Hnone.
  destruct (sort body) as [[f o]|]; cbn [sort_hits sort_by foldr length]; by rewrite take_nil.
Qed.

(** A read whose query matches no hit finds nothing. *)
Lemma read_answer_nothing (start_time end_time : datetime) (op : ReadOp) (docs : list Entry) :
  matching (read_query start_time end_time op) docs = [] ->
  read_answer start_time end_time op docs = nothing op.
Proof.
  intros Hnone. destruct op; cbn [read_answer nothing read_query] in *;
    try (by rewrite run_search_none).
  unfold run_count. by rewrite Hnone.
Qed.






(** X10. The first read of a month makes the month's partition: in a world
    whose store serves the calls and holds no partition for the month of
    the clock, each of the eight reads returns nothing (no document, no hit,
    a count of 0, an empty page with total 0) and leaves behind the
    partition of the month, empty and with the fixed schema. *)
Theorem first_read_of_month
    (exn_str : exn -> string) (now start_time end_time : datetime) (op : ReadOp) (w : World) :
  quiet w -> indices w !! index_name_at now = None ->
  exists w',
    read_result exn_str now start_time end_time op w = (Ret (nothing op), w')
    /\ indices w' !! index_name_at now = Some (empty_index mapping)
    /\ (run_read exn_str now start_time end_time op w).2 = w'.
Proof.
  intros Hq Hfresh.
  destruct (read_result_quiet exn_str now start_time end_time op w Hq) as (w' & Hrun).
  assert (Hdocs : active_docs now w = []) by (unfold active_docs; by rewrite Hfresh).
  rewrite Hdocs, read_answer_nothing in Hrun by done.
  assert (Hw : (run_read exn_str now start_time end_time op w).2 = w').
  { destruct op; cbn [run_read read_result] in *; rewrite observe_snd;
      match goal with
      | H : tag _ ?r = _ |- _ =>
          destruct r as [[a|x] w1] eqn:E; rewrite ?E in H; cbn [tag snd] in *;
          [congruence|discriminate H]
      end. }
  exists w'. split; [done|]. split; [|done].
  pose proof (read_has_partition exn_str now start_time end_time op w Hq) as Hsome.
  by rewrite Hw, Hfresh in Hsome.
Qed.

Lemma first_read_of_month_witness :
  quiet empty_world /\ indices empty_world !! index_name_at (at_day 5 0) = None
  /\ exists w',
       load_messages plain_str (at_day 5 0) (at_day 2 0) (at_day 3 0) None 20 empty_world
       = (Ret ([], 0), w')
       /\ indices w' !! "2024_08_agents_data" = Some (empty_index mapping).
Proof.
  assert (Hq : quiet empty_world) by constructor.
  assert (Hfresh : indices empty_world !! index_name_at (at_day 5 0) = None) by reflexivity.
  split; [exact Hq|]. split; [exact Hfresh|].
  destruct (first_read_of_month plain_str (at_day 5 0) (at_day 2 0) (at_day 3 0)
              (LoadMessages None 20) empty_world Hq Hfresh) as (w' & Hrun & Hix & _).
  exists w'. split; [|exact Hix].
  cbn [read_result nothing] in Hrun.
  destruct (load_messages _ _ _ _ _ _ _) as [[[page total]|x] w1]; [|done].
  by injection Hrun as -> -> ->.
Defined.

(** ** Exact answers *)







Lemma agent_kind (utcnow : datetime) (agent : Schema.Agent) :
  has_type "agent_info" (AgentModel.to_dict (AgentModel.init utcnow agent)) = true.
Proof. done. Qed.


Lemma matching_filter (body : SearchBody) (p : Document -> bool) (docs : list Entry) :
  (forall d, matches (query body) d = p d) ->
  matching (query body) docs = List.filter (fun h => p (_source h)) docs.
Proof. intros Hp. unfold matching. apply filter_ext. intros h. apply Hp. Qed.



Lemma hits_oldest_first (hits : list Entry) :
  StronglySorted (leb_rel (before "timestamp" Asc)) hits ->
  (forall h, h ∈ hits -> is_Some (timestamp_of (_source h))) ->
  oldest_first hits.
Proof.
  intros Hs Hts i j hi hj Hij Hi Hj.
  destruct (Hts hi) as [ti Hti]; [by eapply list_elem_of_lookup_2|].
  destruct (Hts hj) as [tj Htj]; [by eapply list_elem_of_lookup_2|].
  exists ti, tj. repeat split; try done.
  pose proof (sorted_lookup _ hits i j hi hj Hs Hij Hi Hj) as Hb.
  unfold before in Hb.
  rewrite (sort_key_timestamp hi ti Hti), (sort_key_timestamp hj tj Htj) in Hb. lia.
Qed.

(** X13. The two raw scans are one and the same read, oldest first: in a
    world whose store serves the calls, for a page size from 0 to 10000,
    [get_events_in_timerange] and [get_events_for_pie_chart] return the same
    hits; these are hits of the active partition with
    [start <= timestamp < end], of whatever kind, ordered oldest first, at
    most [page_size] of them, and all of the window's hits when these are no more
    than [page_size]. *)
Theorem raw_scans_agree
    (exn_str : exn -> string) (now start_time end_time : datetime) (page_size : Z) (w : World) :
  quiet w -> 0 <= page_size <= MAX_RESULTS ->
  exists hits w1 w2,
    get_events_in_timerange exn_str now start_time end_time page_size w = (Ret hits, w1)
    /\ get_events_for_pie_chart exn_str now start_time end_time page_size w = (Ret hits, w2)
    /\ (forall h, h ∈ hits ->
          h ∈ active_docs now w /\ in_window_excl start_time end_time (_source h) = true)
    /\ oldest_first hits
    /\ Z.of_nat (length hits) <= page_size
    /\ (Z.of_nat (length (List.filter
                    (fun h => in_window_excl start_time end_time (_source h))
                    (active_docs now w))) <= page_size ->
        hits ≡ₚ List.filter (fun h => in_window_excl start_time end_time (_source h))
                  (active_docs now w)).
Proof.
  intros Hq Hsize.
  destruct (get_events_in_timerange_quiet exn_str now start_time end_time w page_size Hq)
    as (w1 & Hrun1).
  destruct (get_events_for_pie_chart_quiet exn_str now start_time end_time w page_size Hq)
    as (w2 & Hrun2).
  set (body := timerange_query start_time end_time page_size) in *.
  set (docs := active_docs now w) in *.
  assert (Hp : forall d, matches (query body) d = in_window_excl start_time end_time d).
  { intros d. apply matches_timerange_query. }
  exists (hits_hits (run_search body docs)), w1, w2.
  split; [done|]. split; [done|]. split; [|split; [|split]].
  - intros h Hh. apply run_search_hit in Hh as [Hin Hm]. by rewrite <- Hp.
  - apply hits_oldest_first.
    + by apply (run_search_sorted body docs "timestamp" Asc).
    + intros h Hh. apply run_search_hit in Hh as [_ Hm]. rewrite Hp in Hm.
      by eapply in_window_excl_timestamp.
  - rewrite run_search_length. change (size body) with page_size. lia.
  - intros Hfit. unfold run_search. cbn [hits_hits].
    rewrite (matching_filter body _ docs Hp). rewrite take_ge.
    + change (sort body) with (Some ("timestamp", Asc)). cbn [sort_hits].
      by rewrite sort_by_perm.
    + rewrite sort_hits_perm. change (size body) with page_size. lia.
Qed.

Lemma raw_scans_agree_witness :
  quiet mixed_world /\ 0 <= 2 <= MAX_RESULTS
  /\ exists w1 w2,
       get_events_in_timerange plain_str (at_day 5 0) (at_day 2 0) (at_day 3 0) 2 mixed_world
       = (Ret [ stored_event (at_day 2 1) 3 "group1";
                {| _id := Some "agent_001";
                   _source := AgentModel.to_dict (AgentModel.init (at_day 2 12) sample_agent) |} ],
          w1)
       /\ get_events_for_pie_chart plain_str (at_day 5 0) (at_day 2 0) (at_day 3 0) 2 mixed_world
          = (Ret [ stored_event (at_day 2 1) 3 "group1";
                   {| _id := Some "agent_001";
                      _source := AgentModel.to_dict (AgentModel.init (at_day 2 12) sample_agent) |} ],
             w2).
Proof.
  assert (Hq : quiet mixed_world) by constructor.
  assert (Hsize : 0 <= 2 <= MAX_RESULTS) by (split; by vm_compute).
  split; [exact Hq|]. split; [exact Hsize|].
  destruct (raw_scans_agree plain_str (at_day 5 0) (at_day 2 0) (at_day 3 0) 2 mixed_world
              Hq Hsize) as (hits & w1 & w2 & Hrun1 & Hrun2 & _).
  assert (Hv : (get_events_in_timerange plain_str (at_day 5 0) (at_day 2 0) (at_day 3 0) 2
                  mixed_world).1
               = Ret [ stored_event (at_day 2 1) 3 "group1";
                       {| _id := Some "agent_001";
                          _source := AgentModel.to_dict
                                       (AgentModel.init (at_day 2 12) sample_agent) |} ])
    by reflexivity.
  rewrite Hrun1 in Hv. injection Hv as ->.
  by exists w1, w2.
Defined.

(** ** Pages of the message feed *)

(** X14. Pages of the message feed nest: in a world whose store serves the
    calls, for limits [0 <= l1 <= l2] up to 10000, the page for [l1] is the
    beginning of the page for [l2]; both calls report the same total, which
    is the number of matching hits counted up to 10000; and when no more
    than [l2] hits match, the page for [l2] is a rearrangement of the
    documents of all matching hits and the total is their number. *)
Theorem message_pages_nest
    (exn_str : exn -> string) (now start_time end_time : datetime)
    (g : option (list string)) (l1 l2 : Z) (w : World) :
  let matched := List.filter (fun h => feed_match start_time end_time g (_source h))
                   (active_docs now w) in
  quiet w -> 0 <= l1 <= l2 -> l2 <= MAX_RESULTS ->
  exists page1 page2 total w1 w2,
    load_messages exn_str now start_time end_time g l1 w = (Ret (page1, total), w1)
    /\ load_messages exn_str now start_time end_time g l2 w = (Ret (page2, total), w2)
    /\ page1 = take (Z.to_nat l1) page2
    /\ total = Z.min (Z.of_nat (length matched)) TRACK_TOTAL_HITS
    /\ (Z.of_nat (length matched) <= l2 ->
        page2 ≡ₚ _source <$> matched /\ total = Z.of_nat (length matched)).
Proof.
  intros matched Hq Hl Hcap.
  destruct (load_messages_quiet exn_str now start_time end_time w g l1 Hq) as (w1 & Hrun1).
  destruct (load_messages_quiet exn_str now start_time end_time w g l2 Hq) as (w2 & Hrun2).
  set (docs := active_docs now w) in *.
  assert (Ht : forall l, hits_total_value
                           (run_search (load_messages_body start_time end_time g l) docs)
                         = Z.min (Z.of_nat (length matched)) TRACK_TOTAL_HITS).
  { intros l. apply feed_total. }
  rewrite Ht in Hrun1, Hrun2.
  eexists _, _, _, w1, w2. split; [exact Hrun1|]. split; [exact Hrun2|].
  split; [|split; [reflexivity|]].
  - unfold sources, run_search. cbn [hits_hits load_messages_body query sort size].
    rewrite <- fmap_take, take_take. do 2 f_equal. lia.
  - intros Hfit. split.
    + unfold sources, run_search. cbn [hits_hits load_messages_body query sort size].
      rewrite feed_matching. fold matched.
      rewrite take_ge by (rewrite sort_hits_perm; lia).
      by rewrite sort_hits_perm.
    + unfold MAX_RESULTS in Hcap. unfold TRACK_TOTAL_HITS. lia.
Qed.

Lemma message_pages_nest_witness :
  quiet feed_world /\ 0 <= 2 <= 100 /\ 100 <= MAX_RESULTS
  /\ exists page1 page2 w1 w2,
       load_messages plain_str (at_day 5 0) (at_day 2 0) (at_day 3 0) None 2 feed_world
       = (Ret (page1, 5), w1)
       /\ load_messages plain_str (at_day 5 0) (at_day 2 0) (at_day 3 0) None 100 feed_world
          = (Ret (page2, 5), w2)
       /\ page1 = take 2 page2 /\ length page2 = 5%nat.
Proof.
  assert (Hq : quiet feed_world) by constructor.
  assert (Hl : 0 <= 2 <= 100) by lia.
  assert (Hm : 100 <= MAX_RESULTS) by (by vm_compute).
  split; [exact Hq|]. split; [exact Hl|]. split; [exact Hm|].
  destruct (message_pages_nest plain_str (at_day 5 0) (at_day 2 0) (at_day 3 0) None 2 100
              feed_world Hq Hl Hm)
    as (page1 & page2 & total & w1 & w2 & Hrun1 & Hrun2 & Hnest & Htotal & Hall).
  assert (Ht : total = 5) by (rewrite Htotal; reflexivity). subst total.
  exists page1, page2, w1, w2. split; [exact Hrun1|]. split; [exact Hrun2|].
  split; [exact Hnest|].
  destruct Hall as [Hperm _]; [by vm_compute|].
  rewrite Hperm, length_fmap. reflexivity.
Defined.

(** ** Group lists *)

Lemma in_group_list_nil (d : Document) : in_group_list [] d = false.
Proof.
  unfold in_group_list. destruct (d !! "group_name"); [|done].
  apply bool_decide_eq_false. simpl. apply not_elem_of_nil.
Qed.

(** X15. An empty group list means opposite things: [load_agents] and
    [load_messages] treat an empty list like no list at all and impose no
    restriction by group, while [load_group_events_from_elasticsearch]
    given an empty list returns no document, whatever is stored (in a world
    whose store serves the calls). *)
Theorem empty_group_list
    (exn_str : exn -> string) (now start_time end_time : datetime) (limit : Z) (w : World) :
  quiet w ->
  load_agents exn_str now start_time end_time (Some []) w
  = load_agents exn_str now start_time end_time None w
  /\ load_messages exn_str now start_time end_time (Some []) limit w
     = load_messages exn_str now start_time end_time None limit w
  /\ (forall d, in_groups (Some []) d = true)
  /\ exists w', load_group_events_from_elasticsearch exn_str now [] start_time end_time w
                = (Ret [], w').
Proof.
  intros Hq. split; [done|]. split; [done|]. split; [done|].
  destruct (load_group_events_quiet exn_str now start_time end_time w [] Hq) as (w' & ->).
  exists w'. do 2 f_equal. unfold sources.
  rewrite run_search_none; [done|]. apply matching_none. intros h _.
  rewrite matches_load_group_events_query, in_group_list_nil.
  by rewrite andb_false_r.
Qed.

Lemma empty_group_list_witness :
  quiet mixed_world
  /\ (exists w', load_group_events_from_elasticsearch plain_str (at_day 5 0) []
                   (at_day 2 0) (at_day 3 0) mixed_world = (Ret [], w'))
  /\ (load_agents plain_str (at_day 5 0) (at_day 2 0) (at_day 3 0) (Some []) mixed_world).1
     = Ret [AgentModel.to_dict (AgentModel.init (at_day 2 12) sample_agent)].
Proof.
  assert (Hq : quiet mixed_world) by constructor.
  split; [exact Hq|].
  destruct (empty_group_list plain_str (at_day 5 0) (at_day 2 0) (at_day 3 0) 20
              mixed_world Hq) as (Hagents & _ & _ & Hnone).
  split; [exact Hnone|]. rewrite Hagents. reflexivity.
Defined.

(** ** Documents and schema *)

Ltac fits :=
  repeat (apply map_Forall_insert_2;
          [eexists; split; [reflexivity|try reflexivity]|]);
  try apply map_Forall_empty.

(** X16. The normalizers write nothing the schema of the partition does not
    declare: every key of a normalized agent record and of a normalized
    event is a field of the schema written by [create_index_with_mapping],
    and its value has the JSON shape of the field's type (a number for
    [integer], a date text for [date], a string for [keyword], [text] and
    [ip], or [null]). *)
Theorem normalized_documents_fit_schema (a : AgentModel.t) (ev : EventModel.t) :
  fits_schema (AgentModel.to_dict a) /\ fits_schema (EventModel.to_dict ev).
Proof.
  split; unfold fits_schema, AgentModel.to_dict, EventModel.to_dict.
  - fits.
  - destruct (EventModel.rule_mitre_id ev), (EventModel.rule_mitre_tactic ev),
      (EventModel.rule_mitre_technique ev); fits.
Qed.

Lemma normalized_documents_fit_schema_witness :
  fits_schema (AgentModel.to_dict later_agent)
  /\ fits_schema (EventModel.to_dict boundary_event)
  /\ field_type "rule_level" = Some "integer".
Proof.
  destruct (normalized_documents_fit_schema later_agent boundary_event) as [Ha He].
  split; [exact Ha|]. split; [exact He|reflexivity].
Defined.

(** ** Lowercasing *)

Lemma lower_char_not_capital (c : ascii) : is_capital (lower_char c) = false.
Proof. by destruct c as [[] [] [] [] [] [] [] []]. Qed.

Lemma lower_char_fixed (c : ascii) : is_capital c = false -> lower_char c = c.
Proof. by destruct c as [[] [] [] [] [] [] [] []]. Qed.

Lemma lower_has_no_capital (s : string) : has_capital (lower s) = false.
Proof.
  induction s as [|c s IH]; [done|]. simpl. by rewrite lower_char_not_capital, IH.
Qed.

Lemma lower_fixed (s : string) : has_capital s = false -> lower s = s.
Proof.
  induction s as [|c s IH]; [done|]. simpl. intros H.
  apply orb_false_iff in H as [Hc Hs]. by rewrite lower_char_fixed, IH.
Qed.

Lemma lower_length (s : string) : String.length (lower s) = String.length s.
Proof. induction s as [|c s IH]; [done|]. simpl. by rewrite IH. Qed.

(** X17. The persisted agent status holds no capital letter and has the
    length of the status reported; a status without capital letters is
    persisted unchanged, so normalizing a normalized status changes
    nothing. *)
Theorem persisted_status_has_no_capital (a : AgentModel.t) :
  exists s,
    AgentModel.to_dict a !! "agent_status" = Some (JStr s)
    /\ has_capital s = false
    /\ String.length s = String.length (AgentModel.agent_status a)
    /\ lower s = s
    /\ (has_capital (AgentModel.agent_status a) = false -> s = AgentModel.agent_status a).
Proof.
  exists (lower (AgentModel.agent_status a)). split; [done|].
  split; [apply lower_has_no_capital|]. split; [apply lower_length|].
  split; [apply lower_fixed, lower_has_no_capital|apply lower_fixed].
Qed.

Lemma persisted_status_has_no_capital_witness :
  exists s,
    AgentModel.to_dict later_agent !! "agent_status" = Some (JStr s)
    /\ has_capital s = false /\ s = "disconnected".
Proof.
  destruct (persisted_status_has_no_capital later_agent) as (s & Hs & Hc & _).
  exists s. split; [exact Hs|]. split; [exact Hc|].
  change (AgentModel.to_dict later_agent !! "agent_status")
    with (Some (JStr "disconnected")) in Hs.
  by injection Hs.
Defined.

(** ** The two severity bands *)

Lemma filter_balance {A} (p q r t : A -> bool) (l : list A) :
  (forall x, (Nat.b2n (p x) + Nat.b2n (q x) = Nat.b2n (r x) + Nat.b2n (t x))%nat) ->
  (length (List.filter p l) + length (List.filter q l)
   = length (List.filter r l) + length (List.filter t l))%nat.
Proof.
  intros Hx. induction l as [|x l IH]; [done|]. simpl.
  specialize (Hx x). destruct (p x), (q x), (r x), (t x); simpl in *; lia.
Qed.

Lemma bands_balance (s e : datetime) (d : Document) :
  (Nat.b2n (counted s e d) + Nat.b2n (level_is (fun l => (15 <=? l)%Z) s e d)
   = Nat.b2n (feed_match s e None d) + Nat.b2n (level_is (fun l => (l =? 8)%Z) s e d))%nat.
Proof.
  unfold counted, feed_match, level_is, high_severity, above_8, in_groups. cbn [truthy].
  destruct (in_window_excl s e d); [|done]. cbn [andb].
  destruct (level_of d) as [l|]; [|done]. rewrite andb_true_r.
  destruct (Z.leb_spec 8 l), (Z.leb_spec l 14), (Z.leb_spec 15 l), (Z.ltb_spec 8 l),
    (Z.eqb_spec l 8); simpl; lia.
Qed.

(** X18. The count and the feed look at two bands that differ at both ends:
    in a world whose store serves the calls, for one window and no group
    filter, the total of [load_messages] is the count of
    [get_high_level_event_count] plus the number of hits of level 15 or more
    minus the number of hits of level 8 (hits of the active partition with
    [start <= timestamp < end]), as far as the store counts: up to 10000. *)
Theorem count_and_feed_totals
    (exn_str : exn -> string) (now start_time end_time : datetime) (limit : Z) (w : World) :
  quiet w ->
  exists n page total w1 w2,
    get_high_level_event_count exn_str now start_time end_time w = (Ret n, w1)
    /\ load_messages exn_str now start_time end_time None limit w = (Ret (page, total), w2)
    /\ total
       = Z.min
           (n + Z.of_nat (length (List.filter
                  (fun h => level_is (fun l => 15 <=? l) start_time end_time (_source h))
                  (active_docs now w)))
              - Z.of_nat (length (List.filter
                  (fun h => level_is (fun l => l =? 8) start_time end_time (_source h))
                  (active_docs now w))))
           TRACK_TOTAL_HITS.
Proof.
  intros Hq.
  destruct (count_quiet_value exn_str now start_time end_time w Hq) as (w1 & Hc).
  destruct (load_messages_quiet exn_str now start_time end_time w None limit Hq) as (w2 & Hm).
  eexists _, _, _, w1, w2. split; [exact Hc|]. split; [exact Hm|].
  rewrite run_count_high_level, feed_total. f_equal.
  pose proof (filter_balance
                (fun h => counted start_time end_time (_source h))
                (fun h => level_is (fun l => 15 <=? l) start_time end_time (_source h))
                (fun h => feed_match start_time end_time None (_source h))
                (fun h => level_is (fun l => l =? 8) start_time end_time (_source h))
                (active_docs now w)
                (fun h => bands_balance start_time end_time (_source h))) as Hbal.
  lia.
Qed.

Lemma count_and_feed_totals_witness :
  quiet severity_world
  /\ exists page w1 w2,
       get_high_level_event_count plain_str (at_day 5 0) (at_day 2 0) (at_day 3 0)
         severity_world = (Ret 2, w1)
       /\ load_messages plain_str (at_day 5 0) (at_day 2 0) (at_day 3 0) None 20
            severity_world = (Ret (page, 2), w2).
Proof.
  assert (Hq : quiet severity_world) by constructor.
  split; [exact Hq|].
  destruct (count_and_feed_totals plain_str (at_day 5 0) (at_day 2 0) (at_day 3 0) 20
              severity_world Hq) as (n & page & total & w1 & w2 & Hc & Hm & Hbal).
  assert (Hn : (get_high_level_event_count plain_str (at_day 5 0) (at_day 2 0) (at_day 3 0)
                  severity_world).1 = Ret 2) by reflexivity.
  rewrite Hc in Hn. injection Hn as ->.
  assert (Ht : total = 2) by (rewrite Hbal; reflexivity).
  subst total. by exists page, w1, w2.
Defined.

(** ** The feed and the message schema *)

(** X19. The feed meets the lower bound of the message schema but not its
    upper bound: in a world whose store serves the calls, every document of
    a page of [load_messages] carries an integer rule level of at least 9,
    the least level [AgentMessage.rule_level] accepts, and passes the
    schema's bounds exactly when its level is at most 15; the query itself
    puts no upper bound on the level. *)
Theorem feed_levels_and_message_schema
    (exn_str : exn -> string) (now start_time end_time : datetime)
    (g : option (list string)) (limit : Z) (w : World) :
  quiet w ->
  exists page total w',
    load_messages exn_str now start_time end_time g limit w = (Ret (page, total), w')
    /\ forall d, d ∈ page ->
         exists l, level_of d = Some l /\ 9 <= l
                   /\ AgentMessage.rule_level_ok l = (l <=? 15).
Proof.
  intros Hq.
  destruct (load_messages_quiet exn_str now start_time end_time w g limit Hq) as (w' & Hm).
  eexists _, _, w'. split; [exact Hm|]. intros d Hd.
  apply sources_hit in Hd.
  change (query (load_messages_body start_time end_time g limit))
    with (load_messages_query start_time end_time g) in Hd.
  rewrite matches_load_messages_query, !andb_true_iff in Hd.
  destruct Hd as [[_ Hl] _]. unfold above_8 in Hl.
  destruct (level_of d) as [l|]; [|done]. apply Z.ltb_lt in Hl.
  exists l. split; [done|]. split; [lia|]. unfold AgentMessage.rule_level_ok.
  replace (9 <=? l) with true; [done|]. symmetry. apply Z.leb_le. lia.
Qed.

Lemma feed_levels_and_message_schema_witness :
  quiet level_world
  /\ exists page w',
       load_messages plain_str (at_day 5 0) (at_day 2 0) (at_day 3 0) None 20 level_world
       = (Ret (page, 2), w')
       /\ (level_of <$> page) = [Some 16; Some 9]
       /\ AgentMessage.rule_level_ok 16 = false.
Proof.
  assert (Hq : quiet level_world) by constructor.
  split; [exact Hq|].
  destruct (feed_levels_and_message_schema plain_str (at_day 5 0) (at_day 2 0) (at_day 3 0)
              None 20 level_world Hq) as (page & total & w' & Hm & _).
  assert (Hv : (load_messages plain_str (at_day 5 0) (at_day 2 0) (at_day 3 0) None 20
                  level_world).1
               = Ret ([ EventModel.to_dict (sample_event (at_day 2 2) 16 "group1");
                        EventModel.to_dict (sample_event (at_day 2 1) 9 "group1") ], 2))
    by reflexivity.
  rewrite Hm in Hv. injection Hv as -> ->.
  eexists _, w'. split; [exact Hm|]. split; reflexivity.
Defined.

(** ** Saving and finding an event *)




(** ** The page of the message feed *)

(** X21. The page of the feed is made of the newest matches: in a world
    whose store serves the calls, for a limit from 0 to 10000,
    [load_messages] returns the documents of hits [shown] and a total such
    that [shown] followed by some hits [rest] is an arrangement, newest
    first, of all hits of the active partition with [rule_level > 8],
    [start <= timestamp < end] and, when a non-empty group list is given, a
    group among those given; [shown] holds [limit] hits, or all matching hits
    when these are fewer; and the total is the number of matching hits
    counted up to 10000. A normalized event matches exactly when its level is
    above 8, its timestamp is in the window and its group passes the filter;
    a normalized agent record never matches. *)
Theorem load_messages_spec
    (exn_str : exn -> string) (now start_time end_time : datetime)
    (group_names : option (list string)) (limit : Z) (w : World) :
  let matched := List.filter
                   (fun h => feed_match start_time end_time group_names (_source h))
                   (active_docs now w) in
  quiet w -> 0 <= limit <= MAX_RESULTS ->
  (exists w' shown rest total_count,
     load_messages exn_str now start_time end_time group_names limit w
     = (Ret (_source <$> shown, total_count), w')
     /\ shown ++ rest ≡ₚ matched
     /\ newest_first (_source <$> (shown ++ rest))
     /\ Z.of_nat (length shown) = Z.min limit (Z.of_nat (length matched))
     /\ total_count = Z.min (Z.of_nat (length matched)) TRACK_TOTAL_HITS)
  /\ (forall ev : EventModel.t,
        feed_match start_time end_time group_names (EventModel.to_dict ev) = true
        <-> (8 < EventModel.rule_level ev
             /\ instant start_time <= instant (EventModel.timestamp ev) < instant end_time
             /\ (truthy group_names = true ->
                 EventModel.group_name ev ∈ default [] group_names)))
  /\ (forall a : AgentModel.t,
        feed_match start_time end_time group_names (AgentModel.to_dict a) = false).
Proof.
  intros matched Hq Hlimit. split; [|split].
  - set (body := load_messages_body start_time end_time group_names limit).
    set (docs := active_docs now w) in *.
    destruct (search_active_quiet now body (fun r => (sources r, hits_total_value r)) w Hq)
      as (w' & Hrun).
    set (ranked := sort_by (before "timestamp" Desc) matched).
    assert (Hs : StronglySorted (leb_rel (before "timestamp" Desc)) ranked).
    { apply sort_by_sorted; [apply before_total|apply before_trans]. }
    assert (Hp : ranked ≡ₚ matched) by apply sort_by_perm.
    exists w', (take (Z.to_nat limit) ranked), (drop (Z.to_nat limit) ranked),
      (Z.min (Z.of_nat (length matched)) TRACK_TOTAL_HITS).
    split; [|split; [|split; [|split]]].
    + rewrite load_messages_unfold. erewrite try_except_ret; [|exact Hrun].
      fold docs. unfold body. rewrite feed_total. fold matched.
      unfold sources, run_search. cbn [hits_hits load_messages_body query sort size sort_hits].
      rewrite feed_matching. reflexivity.
    + by rewrite take_drop.
    + rewrite take_drop. apply hits_newest_first; [exact Hs|].
      intros h Hh. rewrite Hp in Hh. unfold matched in Hh.
      apply list_elem_of_In, filter_In in Hh as [_ Hm].
      apply andb_true_iff in Hm as [Hm _]. apply andb_true_iff in Hm as [Hm _].
      by eapply in_window_excl_timestamp.
    + rewrite length_take, Hp. lia.
    + reflexivity.
  - intros ev. unfold feed_match, in_window_excl, above_8, in_groups.
    rewrite event_timestamp, event_level, !andb_true_iff, Z.leb_le, !Z.ltb_lt.
    destruct (truthy group_names) eqn:Hg.
    + change (EventModel.to_dict ev !! "group_name")
        with (Some (JStr (EventModel.group_name ev))).
      rewrite bool_decide_eq_true, list_elem_of_fmap.
      split.
      * intros [[Hw Hl] (y & [= ->] & Hy)]. repeat split; try lia. done.
      * intros (Hl & Hw & Hin). repeat split; try lia. eauto.
    + split; [intros [[Hw Hl] _]|intros (Hl & Hw & _)]; repeat split; try lia; done.
  - intros a. unfold feed_match, above_8. rewrite agent_level.
    by rewrite andb_false_r.
Qed.

Lemma load_messages_witness :
  quiet feed_world /\ 0 <= 2 <= MAX_RESULTS
  /\ exists w',
       load_messages plain_str (at_day 5 0) (at_day 2 0) (at_day 3 0) None 2 feed_world
       = (Ret ([ EventModel.to_dict (sample_event (at_day 2 6) 11 "group2");
                 EventModel.to_dict (sample_event (at_day 2 5) 12 "group1") ], 5), w').
Proof.
  assert (Hq : quiet feed_world) by constructor.
  assert (Hl : 0 <= 2 <= MAX_RESULTS) by (by vm_compute).
  split; [exact Hq|]. split; [exact Hl|].
  destruct (load_messages_spec plain_str (at_day 5 0) (at_day 2 0) (at_day 3 0) None 2
              feed_world Hq Hl) as [(w' & shown & rest & total & Hrun & _) _].
  assert (Hv : (load_messages plain_str (at_day 5 0) (at_day 2 0) (at_day 3 0) None 2
                  feed_world).1
               = Ret ([ EventModel.to_dict (sample_event (at_day 2 6) 11 "group2");
                        EventModel.to_dict (sample_event (at_day 2 5) 12 "group1") ], 5))
    by reflexivity.
  rewrite Hrun in Hv. cbn [fst] in Hv. injection Hv as Hpage Htotal.
  exists w'. rewrite Hrun, Hpage, Htotal. reflexivity.
Defined.
